(** * FileMonitor: a shallow embedding of the inotify file monitors

    The repository holds four near-duplicate C programs:
    - [main.c]              the original monitor,
    - [advanced_monitor.c]  checksums, regex pattern rules, log rotation,
    - [enhanced_monitor.c]  the dynamically growing watch table,
    - [monitor.c]           the "unified" monitor with three modes.

    Each program is embedded in a module of its own ([MainC], [AdvancedC],
    [UnifiedC]); [enhanced_monitor.c] is the enhanced mode of [monitor.c]
    line for line and is covered by [UnifiedC].  C strings are Rocq
    strings, C integers are [Z] with the wrap-around of unsigned counters
    written out, global variables are fields of explicit state records and
    the operating system is an explicit oracle record [os_env]. *)

From Stdlib Require Import ZArith List Bool Ascii String Lia DecimalString.
Import ListNotations.

Open Scope string_scope.
Open Scope Z_scope.

(* ================================================================= *)
(** ** C library functions on strings *)

(** [strrchr s c]: the suffix of [s] that starts at the last occurrence
    of [c], [None] for the null pointer. *)
Fixpoint strrchr (s : string) (c : ascii) : option string :=
  match s with
  | EmptyString => None
  | String a s' =>
      match strrchr s' c with
      | Some r => Some r
      | None => if Ascii.eqb a c then Some s else None
      end
  end.

(** [strstr h n]: the suffix of [h] that starts at the first occurrence
    of [n], [None] for the null pointer. *)
Fixpoint strstr (h n : string) : option string :=
  if String.prefix n h then Some h
  else match h with
       | EmptyString => None
       | String _ h' => strstr h' n
       end.

(** [p != NULL]. *)
Definition not_null {A : Type} (p : option A) : bool :=
  match p with
  | Some _ => true
  | None => false
  end.

(** [strcmp a b == 0]. *)
Definition strcmp_eq (a b : string) : bool := String.eqb a b.

(** Pointer increment on a C string: drop the first character. *)
Definition str_tail (s : string) : string :=
  match s with
  | EmptyString => EmptyString
  | String _ t => t
  end.

(** What a buffer of [n] bytes holds after [snprintf (buf, n, ...)] would
    have produced [s]: at most [n - 1] characters. *)
Definition snprintf (n : nat) (s : string) : string :=
  String.substring 0 (n - 1) s.

(** What [strncpy (dst, s, n)] leaves in a zero-filled [dst] of more than
    [n] bytes: the first [n] characters of [s]. *)
Definition strncpy (n : nat) (s : string) : string :=
  String.substring 0 n s.

(** [%d], [%ld], [%zu] conversions. *)
Definition fmt_int (z : Z) : string := NilZero.string_of_int (Z.to_int z).

(** [s] contains no occurrence of the character [c]. *)
Fixpoint char_free (c : ascii) (s : string) : Prop :=
  match s with
  | EmptyString => True
  | String a s' => a <> c /\ char_free c s'
  end.

(** [unsigned long] and [size_t] arithmetic wraps modulo 2^64. *)
Definition wrap64 (z : Z) : Z := z mod 2 ^ 64.

(** [int] arithmetic.  A product that does not fit the 32 bits of an
    [int] is undefined in C; the compiled programs wrap it around, and
    so does [int_mul]. *)
Definition wrap_int (z : Z) : Z := (z + 2 ^ 31) mod 2 ^ 32 - 2 ^ 31.

Definition int_mul (a b : Z) : Z := wrap_int (a * b).

Definition MAX_PATH_LEN : nat := 4096.

(* ================================================================= *)
(** ** <sys/inotify.h> *)

Definition IN_MODIFY        : Z := 0x2.
Definition IN_ATTRIB        : Z := 0x4.
Definition IN_CLOSE_WRITE   : Z := 0x8.
Definition IN_CLOSE_NOWRITE : Z := 0x10.
Definition IN_CLOSE         : Z := Z.lor IN_CLOSE_WRITE IN_CLOSE_NOWRITE.
Definition IN_OPEN          : Z := 0x20.
Definition IN_MOVED_FROM    : Z := 0x40.
Definition IN_MOVED_TO      : Z := 0x80.
Definition IN_MOVE          : Z := Z.lor IN_MOVED_FROM IN_MOVED_TO.
Definition IN_CREATE        : Z := 0x100.
Definition IN_DELETE        : Z := 0x200.
Definition IN_Q_OVERFLOW    : Z := 0x4000.
Definition IN_ISDIR         : Z := 0x40000000.

(** [struct inotify_event]; [len] is the size of the name field, zero
    when the event carries no name. *)
Record inotify_event : Type := mkEvent {
  ev_wd   : Z;
  ev_mask : Z;
  ev_len  : Z;
  ev_name : string
}.

(** [event->mask & FLAG] read as a C condition. *)
Definition has_flag (mask flag : Z) : bool := negb (Z.land mask flag =? 0).

(** The event the kernel queues when notifications were dropped. *)
Definition overflow_event : inotify_event :=
  mkEvent (-1) IN_Q_OVERFLOW 0 "".

(* ================================================================= *)
(** ** The operating system as seen by one call *)

Record os_env : Type := mkOs {
  (** [stat]: [None] on failure, else [S_ISDIR] and [st_size]. *)
  os_stat : string -> option (bool * Z);
  (** [opendir] and the [readdir] loop: [None] when the directory cannot
      be opened, else the names in the order [readdir] yields them. *)
  os_readdir : string -> option (list string);
  (** [inotify_add_watch]: the watch descriptor, [-1] on failure. *)
  os_inotify_add_watch : string -> Z;
  (** [strerror (errno)] after a failed call on the path. *)
  os_strerror : string -> string;
  (** [calculate_file_hash]: the hex SHA-256 of the file, [None] when
      [fopen] fails. *)
  os_file_hash : string -> option string;
  (** whether [realloc] of the watch table succeeds. *)
  os_realloc_ok : bool;
  (** [time (NULL)]. *)
  os_time : Z
}.

(* ================================================================= *)
(** ** The extension allow-list

    [should_monitor_file] of [main.c], [enhanced_monitor.c] and
    [monitor.c], and the second half of the one in [advanced_monitor.c];
    [file_extensions] holds the [extension_count] configured values. *)

Definition extension_filter (file_extensions : list string)
    (filename : string) : bool :=
  if (Z.of_nat (List.length file_extensions) =? 0) then true
  else
    match strrchr filename "." with
    | None => false
    | Some ext =>
        let ext := str_tail ext in
        existsb (fun e => strcmp_eq ext e) file_extensions
    end.

(* ================================================================= *)
(** ** main.c *)

Module MainC.

Definition MAX_WATCHES : Z := 1024.
Definition CONFIG_FILE : string := "monitor.conf".
Definition LOG_FILE    : string := "monitor.log".

(** What [load_config] leaves in the globals. *)
Record config : Type := mkConfig {
  recursive_mode  : bool;
  file_extensions : list string
}.

(** The globals the event path reads and writes.  [watches] is the pair
    of arrays [watch_descriptors]/[watch_paths] up to [watch_count];
    [log_file] is [None] for a null stream, else the lines appended to
    the log file; [console] is standard output.  A line is recorded by
    its message, without the [[timestamp]] prefix. *)
Record state : Type := mkState {
  watches  : list (Z * string);
  log_file : option (list string);
  console  : list string
}.

Definition log_event (message : string) (st : state) : state :=
  mkState (watches st)
          (match log_file st with
           | Some lines => Some (lines ++ [message])%list
           | None => None
           end)
          (console st ++ [message])%list.

Definition should_monitor_file (cfg : config) (filename : string) : bool :=
  extension_filter (file_extensions cfg) filename.

Definition add_single_watch (os : os_env) (path : string) (st : state)
    : Z * state :=
  if Z.of_nat (List.length (watches st)) >=? MAX_WATCHES then
    (-1, log_event "Maximum number of watches reached." st)
  else
    let wd := os_inotify_add_watch os path in
    if wd =? -1 then
      (-1, log_event (snprintf 512 ("Failed to add watch: " ++ path ++ " ("
                                      ++ os_strerror os path ++ ")")) st)
    else
      let st1 := mkState (watches st ++ [(wd, strncpy (MAX_PATH_LEN - 1) path)])%list
                         (log_file st) (console st) in
      (wd, log_event (snprintf 512 ("Watch added: " ++ path)) st1).

(** The recursion follows the directory tree of the oracle; [fuel] bounds
    its depth, and a call without fuel stands for the exhausted stack. *)
Fixpoint add_watch_recursive (fuel : nat) (os : os_env) (cfg : config)
    (path : string) (st : state) {struct fuel} : Z * state :=
  match fuel with
  | O => (-1, st)
  | S fuel' =>
      match os_stat os path with
      | None =>
          (-1, log_event (snprintf 512 ("Failed to check path status: " ++ path)) st)
      | Some (is_dir, _) =>
          if negb is_dir then
            (-1, log_event "Specified path is not a directory." st)
          else
            let (wd, st1) := add_single_watch os path st in
            if wd =? -1 then (-1, st1)
            else if recursive_mode cfg then
              match os_readdir os path with
              | None =>
                  (-1, log_event (snprintf 512 ("Failed to open directory: " ++ path)) st1)
              | Some entries =>
                  (0, fold_left
                        (fun s d_name =>
                           if strcmp_eq d_name "." || strcmp_eq d_name ".." then s
                           else
                             let full_path :=
                               snprintf MAX_PATH_LEN (path ++ "/" ++ d_name) in
                             match os_stat os full_path with
                             | Some (true, _) =>
                                 snd (add_watch_recursive fuel' os cfg full_path s)
                             | _ => s
                             end)
                        entries st1)
              end
            else (0, st1)
      end
  end.

(** The names [handle_event] drops before any filtering. *)
Definition self_excluded (name : string) : bool :=
  strcmp_eq name LOG_FILE
  || strcmp_eq name CONFIG_FILE
  || not_null (strstr name ".tmp")
  || not_null (strstr name ".swp").

Definition handle_event (fuel : nat) (os : os_env) (cfg : config)
    (event : inotify_event) (watch_path : string) (st : state) : state :=
  if ev_len event =? 0 then st
  else if self_excluded (ev_name event) then st
  else if negb (should_monitor_file cfg (ev_name event)) then st
  else
    let full_path := snprintf MAX_PATH_LEN (watch_path ++ "/" ++ ev_name event) in
    let msg (verb : string) := snprintf 1024 (verb ++ full_path) in
    let st :=
      if has_flag (ev_mask event) IN_CREATE then
        let st := log_event (msg "Created: ") st in
        if recursive_mode cfg && has_flag (ev_mask event) IN_ISDIR then
          snd (add_watch_recursive fuel os cfg full_path st)
        else st
      else st in
    let st := if has_flag (ev_mask event) IN_DELETE
              then log_event (msg "Deleted: ") st else st in
    let st := if has_flag (ev_mask event) IN_MODIFY
              then log_event (msg "Modified: ") st else st in
    let st := if has_flag (ev_mask event) IN_MOVED_FROM
              then log_event (msg "Moved from: ") st else st in
    let st := if has_flag (ev_mask event) IN_MOVED_TO
              then log_event (msg "Moved to: ") st else st in
    let st := if has_flag (ev_mask event) IN_ATTRIB
              then log_event (msg "Attribute changed: ") st else st in
    let st := if has_flag (ev_mask event) IN_OPEN
              then log_event (msg "Opened: ") st else st in
    let st := if has_flag (ev_mask event) IN_CLOSE_WRITE
              then log_event (msg "Closed: ") st else st in
    st.

(** The search of [main] for the path of a watch descriptor. *)
Definition find_watch_path (wd : Z) (ws : list (Z * string)) : option string :=
  option_map snd (find (fun w => fst w =? wd) ws).

(** The body of the event loop of [main] for one event of the buffer. *)
Definition dispatch (fuel : nat) (os : os_env) (cfg : config)
    (event : inotify_event) (st : state) : state :=
  match find_watch_path (ev_wd event) (watches st) with
  | Some watch_path => handle_event fuel os cfg event watch_path st
  | None => st
  end.

End MainC.

(* ================================================================= *)
(** ** advanced_monitor.c *)

Module AdvancedC.

Definition MAX_WATCHES : Z := 1024.
Definition CONFIG_FILE : string := "advanced_monitor.conf".
Definition LOG_FILE    : string := "advanced_monitor.log".
Definition STATS_FILE  : string := "monitor_stats.json".
Definition HASH_SIZE   : nat := 65.

(** [file_hash_info_t]. *)
Record file_hash_info_t : Type := mkHashInfo {
  filepath      : string;
  hash          : string;
  last_modified : Z;
  file_size     : Z
}.

(** [pattern_rule_t]; the compiled regular expression is the predicate
    [regexec] decides on a file name; [action] is 0 for exclude, 1 for
    include, 2 for alert. *)
Record pattern_rule_t : Type := mkRule {
  pattern        : string;
  compiled_regex : string -> bool;
  action         : Z
}.

(** What [load_config] and [load_patterns_from_config] leave behind. *)
Record config : Type := mkConfig {
  recursive_mode     : bool;
  file_extensions    : list string;
  patterns           : list pattern_rule_t;
  enable_checksum    : bool;
  max_file_size_mb   : Z
}.

(** The globals the event path reads and writes; [file_hashes] holds the
    [hash_count] entries in use, [events_processed] and [files_monitored]
    are the fields of [stats] that this path updates. *)
Record state : Type := mkState {
  watches          : list (Z * string);
  log_file         : option (list string);
  console          : list string;
  events_processed : Z;
  files_monitored  : Z;
  file_hashes      : list file_hash_info_t;
  hash_capacity    : Z
}.

Definition log_event (message : string) (st : state) : state :=
  mkState (watches st)
          (match log_file st with
           | Some lines => Some (lines ++ [message])%list
           | None => None
           end)
          (console st ++ [message])%list
          (wrap64 (events_processed st + 1))
          (files_monitored st) (file_hashes st) (hash_capacity st).

Definition set_file_hashes (hs : list file_hash_info_t) (cap : Z)
    (st : state) : state :=
  mkState (watches st) (log_file st) (console st) (events_processed st)
          (files_monitored st) hs cap.

(** The first index [i < hash_count] with [file_hashes[i].filepath] equal
    to the path, with the entry found there. *)
Fixpoint find_hash (path : string) (hs : list file_hash_info_t)
    : option (nat * file_hash_info_t) :=
  match hs with
  | [] => None
  | h :: hs' =>
      if strcmp_eq (filepath h) path then Some (O, h)
      else match find_hash path hs' with
           | Some (i, e) => Some (S i, e)
           | None => None
           end
  end.

Fixpoint update_nth {A : Type} (i : nat) (x : A) (l : list A) : list A :=
  match l, i with
  | [], _ => []
  | _ :: l', O => x :: l'
  | y :: l', S i' => y :: update_nth i' x l'
  end.

(** [has_file_changed]; the hash table is taken to be zero-filled where
    it was never written, and its [realloc] to succeed. *)
Definition has_file_changed (os : os_env) (cfg : config) (path : string)
    (st : state) : bool * state :=
  if negb (enable_checksum cfg) then (true, st)
  else
    match find_hash path (file_hashes st) with
    | Some (i, e) =>
        match os_file_hash os path with
        | None => (true, st)
        | Some new_hash =>
            let changed := negb (strcmp_eq (hash e) new_hash) in
            if changed then
              let e' := mkHashInfo (filepath e)
                          (strncpy (HASH_SIZE - 1) new_hash)
                          (os_time os)
                          (match os_stat os path with
                           | Some (_, sz) => sz
                           | None => file_size e
                           end) in
              (changed,
               set_file_hashes (update_nth i e' (file_hashes st))
                               (hash_capacity st) st)
            else (changed, st)
        end
    | None =>
        let cap :=
          if Z.of_nat (List.length (file_hashes st)) >=? hash_capacity st
          then (if hash_capacity st =? 0 then 1000 else hash_capacity st * 2)
          else hash_capacity st in
        match os_file_hash os path with
        | Some new_hash =>
            let e := mkHashInfo (strncpy (MAX_PATH_LEN - 1) path)
                       (strncpy (HASH_SIZE - 1) new_hash)
                       (os_time os)
                       (match os_stat os path with
                        | Some (_, sz) => sz
                        | None => 0
                        end) in
            (true, set_file_hashes (file_hashes st ++ [e])%list cap st)
        | None => (true, set_file_hashes (file_hashes st) cap st)
        end
    end.

(** The loop of [match_patterns] over [patterns[i]], [i < pattern_count];
    the result is the C truth value. *)
Fixpoint match_patterns_loop (rules : list pattern_rule_t)
    (filename : string) (st : state) : bool * state :=
  match rules with
  | [] => (true, st)
  | r :: rest =>
      if compiled_regex r filename then
        if action r =? 0 then (false, st)
        else if action r =? 1 then (true, st)
        else if action r =? 2 then
          (true,
           log_event (snprintf 512 ("🚨 ALERT: Pattern matched '" ++ pattern r
                                      ++ "' for file: " ++ filename)) st)
        else match_patterns_loop rest filename st
      else match_patterns_loop rest filename st
  end.

Definition match_patterns (cfg : config) (filename : string) (st : state)
    : bool * state :=
  if Z.of_nat (List.length (patterns cfg)) =? 0 then (true, st)
  else match_patterns_loop (patterns cfg) filename st.

Definition should_monitor_file (cfg : config) (filename : string)
    (st : state) : bool * state :=
  let (ok, st1) := match_patterns cfg filename st in
  if negb ok then (false, st1)
  else (extension_filter (file_extensions cfg) filename, st1).

Definition add_single_watch (os : os_env) (path : string) (st : state)
    : Z * state :=
  if Z.of_nat (List.length (watches st)) >=? MAX_WATCHES then
    (-1, log_event "[WARN] Maximum number of watches reached." st)
  else
    let wd := os_inotify_add_watch os path in
    if wd =? -1 then
      (-1, log_event (snprintf 512 ("[ERROR] Failed to add watch: " ++ path
                                      ++ " (" ++ os_strerror os path ++ ")")) st)
    else
      let st1 := mkState (watches st ++ [(wd, strncpy (MAX_PATH_LEN - 1) path)])%list
                         (log_file st) (console st) (events_processed st)
                         (files_monitored st) (file_hashes st)
                         (hash_capacity st) in
      let st2 := log_event (snprintf 512 ("[WATCH] Watch added: " ++ path)) st1 in
      (wd, mkState (watches st2) (log_file st2) (console st2)
                   (events_processed st2) (wrap64 (files_monitored st2 + 1))
                   (file_hashes st2) (hash_capacity st2)).

Fixpoint add_watch_recursive (fuel : nat) (os : os_env) (cfg : config)
    (path : string) (st : state) {struct fuel} : Z * state :=
  match fuel with
  | O => (-1, st)
  | S fuel' =>
      match os_stat os path with
      | None =>
          (-1, log_event (snprintf 512 ("[ERROR] Failed to check path status: "
                                          ++ path)) st)
      | Some (is_dir, _) =>
          if negb is_dir then
            (-1, log_event "[ERROR] Specified path is not a directory." st)
          else
            let (wd, st1) := add_single_watch os path st in
            if wd =? -1 then (-1, st1)
            else if recursive_mode cfg then
              match os_readdir os path with
              | None =>
                  (-1, log_event (snprintf 512 ("[ERROR] Failed to open directory: "
                                                  ++ path)) st1)
              | Some entries =>
                  (0, fold_left
                        (fun s d_name =>
                           if strcmp_eq d_name "." || strcmp_eq d_name ".." then s
                           else
                             let full_path :=
                               snprintf MAX_PATH_LEN (path ++ "/" ++ d_name) in
                             match os_stat os full_path with
                             | Some (true, _) =>
                                 snd (add_watch_recursive fuel' os cfg full_path s)
                             | _ => s
                             end)
                        entries st1)
              end
            else (0, st1)
      end
  end.

(** The names [handle_event] drops before any filtering. *)
Definition self_excluded (name : string) : bool :=
  strcmp_eq name LOG_FILE
  || strcmp_eq name CONFIG_FILE
  || strcmp_eq name STATS_FILE
  || not_null (strstr name ".tmp")
  || not_null (strstr name ".swp").

Definition handle_event (fuel : nat) (os : os_env) (cfg : config)
    (event : inotify_event) (watch_path : string) (st : state) : state :=
  if ev_len event =? 0 then st
  else if self_excluded (ev_name event) then st
  else
    let (ok, st) := should_monitor_file cfg (ev_name event) st in
    if negb ok then st
    else
      let full_path := snprintf MAX_PATH_LEN (watch_path ++ "/" ++ ev_name event) in
      let stat_result := os_stat os full_path in
      let file_size := match stat_result with
                       | Some (_, sz) => sz
                       | None => 0
                       end in
      let sized (verb : string) :=
        snprintf 1024 (verb ++ full_path ++ " (" ++ fmt_int file_size ++ " bytes)") in
      let plain (verb : string) := snprintf 1024 (verb ++ full_path) in
      let st :=
        match stat_result with
        | Some _ =>
            if file_size >? int_mul (int_mul (max_file_size_mb cfg) 1024) 1024 then
              log_event (snprintf 1024 ("Large file detected ("
                                          ++ fmt_int (Z.quot file_size (1024 * 1024))
                                          ++ " MB): " ++ full_path)) st
            else st
        | None => st
        end in
      let st :=
        if has_flag (ev_mask event) IN_CREATE then
          let st := log_event (sized "Created: ") st in
          if recursive_mode cfg && has_flag (ev_mask event) IN_ISDIR then
            snd (add_watch_recursive fuel os cfg full_path st)
          else st
        else st in
      let st := if has_flag (ev_mask event) IN_DELETE
                then log_event (plain "Deleted: ") st else st in
      let st :=
        if has_flag (ev_mask event) IN_MODIFY then
          let (changed, st) := has_file_changed os cfg full_path st in
          if changed then log_event (sized "Modified: ") st else st
        else st in
      let st := if has_flag (ev_mask event) IN_MOVED_FROM
                then log_event (plain "Moved from: ") st else st in
      let st := if has_flag (ev_mask event) IN_MOVED_TO
                then log_event (sized "Moved to: ") st else st in
      let st := if has_flag (ev_mask event) IN_ATTRIB
                then log_event (plain "Attribute changed: ") st else st in
      let st := if has_flag (ev_mask event) IN_OPEN
                then log_event (plain "Opened: ") st else st in
      let st := if has_flag (ev_mask event) IN_CLOSE_WRITE
                then log_event (sized "Closed: ") st else st in
      st.

Definition find_watch_path (wd : Z) (ws : list (Z * string)) : option string :=
  option_map snd (find (fun w => fst w =? wd) ws).

Definition dispatch (fuel : nat) (os : os_env) (cfg : config)
    (event : inotify_event) (st : state) : state :=
  match find_watch_path (ev_wd event) (watches st) with
  | Some watch_path => handle_event fuel os cfg event watch_path st
  | None => st
  end.

End AdvancedC.

(* ================================================================= *)
(** ** monitor.c (and enhanced_monitor.c, its enhanced mode) *)

Module UnifiedC.

Definition CONFIG_FILE : string := "monitor.conf".
Definition LOG_FILE    : string := "monitor.log".
Definition STATS_FILE  : string := "monitor_stats.json".
Definition INITIAL_WATCH_CAPACITY : Z := 1024.
Definition WATCH_GROWTH_FACTOR    : Z := 2.
Definition MAX_LOG_SIZE_MB : Z := 50.
Definition MAX_LOG_FILES   : nat := 10.
Definition HASH_SIZE       : nat := 65.

Inductive monitor_mode_t : Type := MODE_BASIC | MODE_ADVANCED | MODE_ENHANCED.

(** [watch_entry_t]. *)
Record watch_entry_t : Type := mkWatch {
  wd          : Z;
  path        : string;
  added_time  : Z;
  event_count : Z
}.

(** [file_hash_info_t]. *)
Record file_hash_info_t : Type := mkHashInfo {
  filepath      : string;
  hash          : string;
  last_modified : Z;
  file_size     : Z
}.

(** The fields of [monitor_stats_t] that the event path and the watch
    table update. *)
Record monitor_stats_t : Type := mkStats {
  total_events         : Z;
  watch_limit_hits     : Z;
  memory_reallocations : Z;
  most_active_path     : string;
  max_events_per_path  : Z
}.

(** The globals that are fixed once [main] has parsed its arguments and
    [load_config] has run.  [enable_checksum] and [enable_compression]
    are initialised to 1 and [monitor.c] never assigns them. *)
Record config : Type := mkConfig {
  mode               : monitor_mode_t;
  recursive_mode     : bool;
  file_extensions    : list string;
  enable_checksum    : bool;
  enable_compression : bool
}.

(** The [FILE *log_file] global: null, an open stream, or the dangling
    pointer that [fclose] leaves behind. *)
Inductive stream : Type := Null | Open | Stale.

(** The working directory, where the log and its generations live: a
    file is the list of log lines it holds (for a [.gz] file, the lines
    it decompresses to), each recorded by its message. *)
Definition dir : Type := string -> option (list string).

Definition dir_set (d : dir) (name : string) (c : option (list string)) : dir :=
  fun n => if String.eqb n name then c else d n.

Record state : Type := mkState {
  log_file      : stream;
  files         : dir;
  watches       : list (Z * string);
  wm_entries    : list watch_entry_t;
  wm_capacity   : Z;
  file_hashes   : list file_hash_info_t;
  hash_capacity : Z;
  stats         : monitor_stats_t;
  (** set once the program has written through a closed stream, which
      is undefined in C: from then on the state is the one of a run that
      survives the write, and nothing is known of any other run. *)
  undefined     : bool
}.

Definition with_log (s : stream) (d : dir) (st : state) : state :=
  mkState s d (watches st) (wm_entries st) (wm_capacity st)
          (file_hashes st) (hash_capacity st) (stats st) (undefined st).

Definition with_watches (ws : list (Z * string)) (st : state) : state :=
  mkState (log_file st) (files st) ws (wm_entries st) (wm_capacity st)
          (file_hashes st) (hash_capacity st) (stats st) (undefined st).

Definition with_wm (es : list watch_entry_t) (cap : Z) (st : state) : state :=
  mkState (log_file st) (files st) (watches st) es cap
          (file_hashes st) (hash_capacity st) (stats st) (undefined st).

Definition with_hashes (hs : list file_hash_info_t) (cap : Z) (st : state)
    : state :=
  mkState (log_file st) (files st) (watches st) (wm_entries st)
          (wm_capacity st) hs cap (stats st) (undefined st).

Definition with_stats (s : monitor_stats_t) (st : state) : state :=
  mkState (log_file st) (files st) (watches st) (wm_entries st)
          (wm_capacity st) (file_hashes st) (hash_capacity st) s (undefined st).

(** The program has written through a closed stream. *)
Definition mark_undefined (st : state) : state :=
  mkState (log_file st) (files st) (watches st) (wm_entries st)
          (wm_capacity st) (file_hashes st) (hash_capacity st) (stats st) true.

(** The lines of the current log file. *)
Definition log_lines (st : state) : list string :=
  match files st LOG_FILE with
  | Some lines => lines
  | None => []
  end.

(** Bytes of one line: [[YYYY-MM-DD HH:MM:SS] ], the message, a newline. *)
Definition line_bytes (message : string) : Z :=
  23 + Z.of_nat (String.length message).

(** [ftell] at the end of the log file. *)
Definition log_size (st : state) : Z :=
  fold_right (fun m acc => line_bytes m + acc) 0 (log_lines st).

(** [monitor.log.<i>]. *)
Definition generation (i : nat) : string :=
  snprintf MAX_PATH_LEN (LOG_FILE ++ "." ++ fmt_int (Z.of_nat i)).

(** [rename]: fails, changing nothing, when the source does not exist. *)
Definition rename (old_name new_name : string) (d : dir) : dir :=
  match d old_name with
  | Some c => dir_set (dir_set d new_name (Some c)) old_name None
  | None => d
  end.

Definition unlink (name : string) (d : dir) : dir := dir_set d name None.

(** The loop [for (i = MAX_LOG_FILES - 1; i > 0; i--)] of
    [rotate_log_file], entered with the given [i]. *)
Fixpoint shift_generations (i : nat) (d : dir) : dir :=
  match i with
  | O => d
  | S j =>
      let old_name := generation (i - 1) in
      let new_name := generation i in
      let d' :=
        match d old_name with
        | Some _ =>
            if Nat.eqb i (MAX_LOG_FILES - 1) then unlink old_name d
            else rename old_name new_name d
        | None => d
        end in
      shift_generations j d'
  end.

(** [compress_old_log], with [log_event] as a parameter; [gzopen] is
    taken to succeed. *)
Definition compress_old_log_with (log : string -> state -> state)
    (filename : string) (st : state) : state :=
  let gz_filename := snprintf MAX_PATH_LEN (filename ++ ".gz") in
  match files st filename with
  | None => st
  | Some c =>
      let d := unlink filename (dir_set (files st) gz_filename (Some c)) in
      log (snprintf 512 ("[INFO] Compressed log file: " ++ gz_filename))
          (with_log (log_file st) d st)
  end.

(** [rotate_log_file], with [log_event] as a parameter; [fopen] of the
    new log file is taken to succeed. *)
Definition rotate_log_file_with (log : string -> state -> state)
    (cfg : config) (st : state) : state :=
  match log_file st with
  | Null => st
  | _ =>
      let d := shift_generations (MAX_LOG_FILES - 1) (files st) in
      let new_name := snprintf MAX_PATH_LEN (LOG_FILE ++ ".0") in
      let d := rename LOG_FILE new_name d in
      let st := with_log Stale d st in
      let st := if enable_compression cfg
                then compress_old_log_with log new_name st else st in
      let d := match files st LOG_FILE with
               | Some _ => files st
               | None => dir_set (files st) LOG_FILE (Some [])
               end in
      log "[INFO] Log file rotated successfully" (with_log Open d st)
  end.

(** [log_event].  It calls [rotate_log_file], which calls it back:
    [depth] bounds the nesting of these calls.  A write through the
    stale pointer that [rotate_log_file] leaves while it runs is
    undefined in C: the state is marked [undefined], and goes on as in
    a run where the write is lost. *)
Fixpoint log_event_rec (depth : nat) (cfg : config) (message : string)
    (st : state) {struct depth} : state :=
  match depth with
  | O => st
  | S depth' =>
      match log_file st with
      | Null => st
      | Stale => mark_undefined st
      | Open =>
          let st1 := with_log Open
                       (dir_set (files st) LOG_FILE
                                (Some (log_lines st ++ [message])%list)) st in
          match mode cfg with
          | MODE_ADVANCED =>
              if log_size st1 >? MAX_LOG_SIZE_MB * 1024 * 1024 then
                rotate_log_file_with (log_event_rec depth' cfg) cfg st1
              else st1
          | _ => st1
          end
      end
  end.

(** Two nested calls are all that ever happen: the line written into the
    fresh log file never reaches the size limit (lemma
    [log_event_rec_stable]). *)
Definition log_event : config -> string -> state -> state := log_event_rec 2.

Definition rotate_log_file : config -> state -> state :=
  fun cfg => rotate_log_file_with (log_event cfg) cfg.

Definition should_monitor_file (cfg : config) (filename : string) : bool :=
  extension_filter (file_extensions cfg) filename.

(* ----------------------------------------------------------------- *)
(** *** Basic mode *)

Definition add_watch_basic (os : os_env) (cfg : config) (p : string)
    (st : state) : Z * state :=
  if Z.of_nat (List.length (watches st)) >=? 1024 then
    (-1, log_event cfg "[ERROR] Maximum watch limit reached (basic mode)" st)
  else
    let w := os_inotify_add_watch os p in
    if w =? -1 then
      (-1, log_event cfg (snprintf 512 ("[ERROR] Failed to add watch for " ++ p
                                          ++ ": " ++ os_strerror os p)) st)
    else
      let st1 := with_watches
                   (watches st ++ [(w, strncpy (MAX_PATH_LEN - 1) p)])%list st in
      (w, log_event cfg (snprintf 512 ("[WATCH] Added: " ++ p ++ " (wd: "
                                         ++ fmt_int w ++ ")")) st1).

(** The shape shared by [add_watch_recursive_basic] and
    [add_watch_recursive_enhanced], which differ in the function that
    adds one watch. *)
Fixpoint add_watch_recursive_with
    (add : os_env -> config -> string -> state -> Z * state)
    (fuel : nat) (os : os_env) (cfg : config) (p : string) (st : state)
    {struct fuel} : Z * state :=
  match fuel with
  | O => (-1, st)
  | S fuel' =>
      match os_stat os p with
      | None =>
          (-1, log_event cfg (snprintf 512 ("[ERROR] Cannot stat path: " ++ p)) st)
      | Some (is_dir, _) =>
          if negb is_dir then
            (-1, log_event cfg "[ERROR] Path is not a directory" st)
          else
            let (w, st1) := add os cfg p st in
            if w =? -1 then (-1, st1)
            else if negb (recursive_mode cfg) then (0, st1)
            else
              match os_readdir os p with
              | None =>
                  (-1, log_event cfg
                         (snprintf 512 ("[ERROR] Cannot open directory: " ++ p)) st1)
              | Some entries =>
                  (0, fold_left
                        (fun s d_name =>
                           if strcmp_eq d_name "." || strcmp_eq d_name ".." then s
                           else
                             let subpath :=
                               snprintf MAX_PATH_LEN (p ++ "/" ++ d_name) in
                             match os_stat os subpath with
                             | Some (true, _) =>
                                 snd (add_watch_recursive_with add fuel' os cfg
                                                               subpath s)
                             | _ => s
                             end)
                        entries st1)
              end
      end
  end.

Definition add_watch_recursive_basic :=
  add_watch_recursive_with add_watch_basic.

(** The eight tests of the event mask that the three handlers share,
    after [Created]; [modified] is the handler's treatment of
    [IN_MODIFY]. *)
Definition log_flags (cfg : config) (mask : Z) (full_path : string)
    (modified : state -> state) (st : state) : state :=
  let msg (verb : string) := snprintf (MAX_PATH_LEN + 100) (verb ++ full_path) in
  let st := if has_flag mask IN_DELETE
            then log_event cfg (msg "Deleted: ") st else st in
  let st := if has_flag mask IN_MODIFY then modified st else st in
  let st := if has_flag mask IN_MOVED_FROM
            then log_event cfg (msg "Moved from: ") st else st in
  let st := if has_flag mask IN_MOVED_TO
            then log_event cfg (msg "Moved to: ") st else st in
  let st := if has_flag mask IN_OPEN
            then log_event cfg (msg "Opened: ") st else st in
  let st := if has_flag mask IN_CLOSE
            then log_event cfg (msg "Closed: ") st else st in
  st.

Definition bump_total_events (st : state) : state :=
  let s := stats st in
  with_stats (mkStats (wrap64 (total_events s + 1)) (watch_limit_hits s)
                      (memory_reallocations s) (most_active_path s)
                      (max_events_per_path s)) st.

Definition handle_event_basic (fuel : nat) (os : os_env) (cfg : config)
    (event : inotify_event) (watch_path : string) (st : state) : state :=
  let st := bump_total_events st in
  if ev_len event >? 0 then
    let full_path := snprintf MAX_PATH_LEN (watch_path ++ "/" ++ ev_name event) in
    if negb (should_monitor_file cfg (ev_name event)) then st
    else
      let msg (verb : string) := snprintf (MAX_PATH_LEN + 100) (verb ++ full_path) in
      let st :=
        if has_flag (ev_mask event) IN_CREATE then
          let st := log_event cfg (msg "Created: ") st in
          if has_flag (ev_mask event) IN_ISDIR && recursive_mode cfg then
            snd (add_watch_recursive_basic fuel os cfg full_path st)
          else st
        else st in
      log_flags cfg (ev_mask event) full_path
                (log_event cfg (msg "Modified: ")) st
  else st.

(* ----------------------------------------------------------------- *)
(** *** Enhanced mode: the growing watch table *)

(** [init_watch_manager], the allocation taken to succeed. *)
Definition init_watch_manager (cfg : config) (st : state) : Z * state :=
  (0, log_event cfg "[INFO] Watch manager initialized"
        (with_wm [] INITIAL_WATCH_CAPACITY st)).

Definition add_watch_dynamic (os : os_env) (cfg : config) (p : string)
    (st : state) : Z * state :=
  let grow :=
    if Z.of_nat (List.length (wm_entries st)) >=? wm_capacity st then
      let new_capacity := wrap64 (wm_capacity st * WATCH_GROWTH_FACTOR) in
      if negb (os_realloc_ok os) then
        let st1 :=
          log_event cfg "[ERROR] Failed to expand watch manager capacity" st in
        let s := stats st1 in
        inl (with_stats
               (mkStats (total_events s) (wrap64 (watch_limit_hits s + 1))
                        (memory_reallocations s) (most_active_path s)
                        (max_events_per_path s)) st1)
      else
        let s := stats st in
        let st1 := with_stats
                     (mkStats (total_events s) (watch_limit_hits s)
                              (wrap64 (memory_reallocations s + 1))
                              (most_active_path s) (max_events_per_path s))
                     (with_wm (wm_entries st) new_capacity st) in
        inr (log_event cfg
               (snprintf 256 ("[INFO] Watch manager expanded to "
                                ++ fmt_int new_capacity ++ " entries")) st1)
    else inr st in
  match grow with
  | inl failed => (-1, failed)
  | inr st =>
      let w := os_inotify_add_watch os p in
      if w =? -1 then
        (-1, log_event cfg (snprintf 512 ("[ERROR] Failed to add watch for " ++ p
                                            ++ ": " ++ os_strerror os p)) st)
      else
        let entry := mkWatch w (strncpy (MAX_PATH_LEN - 1) p) (os_time os) 0 in
        let st1 := with_wm (wm_entries st ++ [entry])%list (wm_capacity st) st in
        (w, log_event cfg (snprintf 512 ("[WATCH] Added: " ++ p ++ " (wd: "
                                           ++ fmt_int w ++ ")")) st1)
  end.

(** [find_watch_by_wd]: the entry found and its index, [None] for the
    null pointer. *)
Fixpoint find_watch_by_wd (w : Z) (es : list watch_entry_t)
    : option (nat * watch_entry_t) :=
  match es with
  | [] => None
  | e :: es' =>
      if wd e =? w then Some (O, e)
      else match find_watch_by_wd w es' with
           | Some (i, e') => Some (S i, e')
           | None => None
           end
  end.

Fixpoint update_nth {A : Type} (i : nat) (x : A) (l : list A) : list A :=
  match l, i with
  | [], _ => []
  | _ :: l', O => x :: l'
  | y :: l', S i' => y :: update_nth i' x l'
  end.

Definition add_watch_recursive_enhanced :=
  add_watch_recursive_with add_watch_dynamic.

(** The bookkeeping at the head of [handle_event_enhanced], for the
    entry found at index [i]. *)
Definition count_event (i : nat) (e : watch_entry_t) (st : state) : state :=
  let e' := mkWatch (wd e) (path e) (added_time e) (wrap64 (event_count e + 1)) in
  let st := with_wm (update_nth i e' (wm_entries st)) (wm_capacity st) st in
  let st := bump_total_events st in
  let s := stats st in
  if event_count e' >? max_events_per_path s then
    with_stats (mkStats (total_events s) (watch_limit_hits s)
                        (memory_reallocations s)
                        (strncpy (MAX_PATH_LEN - 1) (path e'))
                        (event_count e')) st
  else st.

Definition handle_event_enhanced (fuel : nat) (os : os_env) (cfg : config)
    (event : inotify_event) (st : state) : state :=
  match find_watch_by_wd (ev_wd event) (wm_entries st) with
  | None => log_event cfg "[WARN] Event from unknown watch descriptor" st
  | Some (i, watch_entry) =>
      let st := count_event i watch_entry st in
      if ev_len event >? 0 then
        let full_path :=
          snprintf MAX_PATH_LEN (path watch_entry ++ "/" ++ ev_name event) in
        if negb (should_monitor_file cfg (ev_name event)) then st
        else
          let msg (verb : string) :=
            snprintf (MAX_PATH_LEN + 100) (verb ++ full_path) in
          let st :=
            if has_flag (ev_mask event) IN_CREATE then
              let st := log_event cfg (msg "Created: ") st in
              if has_flag (ev_mask event) IN_ISDIR && recursive_mode cfg then
                snd (add_watch_recursive_enhanced fuel os cfg full_path st)
              else st
            else st in
          log_flags cfg (ev_mask event) full_path
                    (log_event cfg (msg "Modified: ")) st
      else st
  end.

(* ----------------------------------------------------------------- *)
(** *** Advanced mode: the checksum cache *)

Fixpoint find_hash (p : string) (hs : list file_hash_info_t)
    : option (nat * file_hash_info_t) :=
  match hs with
  | [] => None
  | h :: hs' =>
      if strcmp_eq (filepath h) p then Some (O, h)
      else match find_hash p hs' with
           | Some (i, e) => Some (S i, e)
           | None => None
           end
  end.

(** [check_file_changed]; the hash table is taken to be zero-filled
    where it was never written, and its [realloc] to succeed. *)
Definition check_file_changed (os : os_env) (cfg : config) (p : string)
    (st : state) : bool * state :=
  if negb (enable_checksum cfg) then (true, st)
  else
    match os_file_hash os p with
    | None => (true, st)
    | Some new_hash =>
        match find_hash p (file_hashes st) with
        | Some (i, e) =>
            let changed := negb (strcmp_eq (hash e) new_hash) in
            if changed then
              let e' := mkHashInfo (filepath e)
                          (strncpy (HASH_SIZE - 1) new_hash)
                          (os_time os) (file_size e) in
              (changed,
               with_hashes (update_nth i e' (file_hashes st))
                           (hash_capacity st) st)
            else (changed, st)
        | None =>
            let cap :=
              if Z.of_nat (List.length (file_hashes st)) >=? hash_capacity st
              then (if hash_capacity st =? 0 then 100 else hash_capacity st * 2)
              else hash_capacity st in
            let e := mkHashInfo (strncpy (MAX_PATH_LEN - 1) p)
                       (strncpy (HASH_SIZE - 1) new_hash)
                       (os_time os)
                       (match os_stat os p with
                        | Some (_, sz) => sz
                        | None => 0
                        end) in
            (true, with_hashes (file_hashes st ++ [e])%list cap st)
        end
    end.

Definition handle_event_advanced (fuel : nat) (os : os_env) (cfg : config)
    (event : inotify_event) (watch_path : string) (st : state) : state :=
  let st := bump_total_events st in
  if ev_len event >? 0 then
    let full_path := snprintf MAX_PATH_LEN (watch_path ++ "/" ++ ev_name event) in
    if negb (should_monitor_file cfg (ev_name event)) then st
    else
      let msg (verb : string) := snprintf (MAX_PATH_LEN + 100) (verb ++ full_path) in
      let st :=
        if has_flag (ev_mask event) IN_CREATE then
          let st := log_event cfg (msg "Created: ") st in
          if has_flag (ev_mask event) IN_ISDIR && recursive_mode cfg then
            snd (add_watch_recursive_basic fuel os cfg full_path st)
          else st
        else st in
      log_flags cfg (ev_mask event) full_path
                (fun st =>
                   let (changed, st) := check_file_changed os cfg full_path st in
                   if changed
                   then log_event cfg (msg "Modified (checksum changed): ") st
                   else st)
                st
  else st.

(* ----------------------------------------------------------------- *)
(** *** The event loop *)

Definition find_watch_path (w : Z) (ws : list (Z * string)) : option string :=
  option_map snd (find (fun x => fst x =? w) ws).

(** The body of the event loop of [main] for one event of the buffer. *)
Definition dispatch (fuel : nat) (os : os_env) (cfg : config)
    (event : inotify_event) (st : state) : state :=
  match mode cfg with
  | MODE_ENHANCED => handle_event_enhanced fuel os cfg event st
  | MODE_ADVANCED =>
      match find_watch_path (ev_wd event) (watches st) with
      | Some p => handle_event_advanced fuel os cfg event p st
      | None => st
      end
  | MODE_BASIC =>
      match find_watch_path (ev_wd event) (watches st) with
      | Some p => handle_event_basic fuel os cfg event p st
      | None => st
      end
  end.

(** The globals as [main] leaves them when the log file has been opened. *)
Definition initial_state : state :=
  mkState Open (fun n => if String.eqb n LOG_FILE then Some [] else None)
          [] [] 0 [] 0 (mkStats 0 0 0 "none" 0) false.

End UnifiedC.

(* ================================================================= *)
(** ** Notions used to state the properties *)

(** [counter++] on an [unsigned long]. *)
Definition incr64 (z : Z) : Z := wrap64 (z + 1).

(** *** The change-detection cache *)

(** The digest stored for a path, if any. *)
Definition unified_cached (p : string) (st : UnifiedC.state) : option string :=
  option_map (fun ie => UnifiedC.hash (snd ie))
             (UnifiedC.find_hash p (UnifiedC.file_hashes st)).

Definition advanced_cached (p : string) (st : AdvancedC.state) : option string :=
  option_map (fun ie => AdvancedC.hash (snd ie))
             (AdvancedC.find_hash p (AdvancedC.file_hashes st)).

(** One call of a change-detection check per element of [oss], each
    seeing the file system of its own moment. *)
Fixpoint run_checks {S : Type} (check : os_env -> string -> S -> bool * S)
    (oss : list os_env) (p : string) (st : S) : list bool * S :=
  match oss with
  | [] => ([], st)
  | os :: oss' =>
      let (r, st1) := check os p st in
      let (rs, st2) := run_checks check oss' p st1 in
      (r :: rs, st2)
  end.

(** For the successive digests [ds] of a file, and the digest [prev]
    seen before them, whether each one is a change. *)
Fixpoint changes (prev : option string) (ds : list string) : list bool :=
  match ds with
  | [] => []
  | d :: ds' =>
      match prev with
      | None => true
      | Some d0 => negb (String.eqb d0 d)
      end :: changes (Some d) ds'
  end.

(** What one call of a change-detection check does for a file that can
    be read, whose digest [d] has the 64 characters of a SHA-256 in
    hexadecimal, and whose path fits the path buffer: with no digest
    stored for the path it answers true and stores [d]; with [d0] stored
    it answers whether [d0] and [d] differ, leaves the state as it is
    when they are equal and stores [d] when they differ. *)
Definition confirm_change_contract {S : Type}
    (check : os_env -> string -> S -> bool * S)
    (cached : string -> S -> option string) : Prop :=
  forall (os : os_env) (p d : string) (st : S),
    os_file_hash os p = Some d ->
    String.length d = 64%nat ->
    (String.length p < MAX_PATH_LEN)%nat ->
    match cached p st with
    | None =>
        fst (check os p st) = true
        /\ cached p (snd (check os p st)) = Some d
    | Some d0 =>
        fst (check os p st) = negb (String.eqb d0 d)
        /\ (d0 = d -> snd (check os p st) = st)
        /\ (d0 <> d -> cached p (snd (check os p st)) = Some d)
    end.

(** *** The watch registry *)

(** A run of registrations in the enhanced mode. *)
Fixpoint run_add_watch_dynamic (cfg : UnifiedC.config)
    (ops : list (os_env * string)) (st : UnifiedC.state) : UnifiedC.state :=
  match ops with
  | [] => st
  | (os, p) :: ops' =>
      run_add_watch_dynamic cfg ops' (snd (UnifiedC.add_watch_dynamic os cfg p st))
  end.

(** *** Logging *)

(** Two states of [monitor.c] that differ at most in the log stream and
    the files of the working directory. *)
Definition same_tables (st st' : UnifiedC.state) : Prop :=
  UnifiedC.watches st' = UnifiedC.watches st
  /\ UnifiedC.wm_entries st' = UnifiedC.wm_entries st
  /\ UnifiedC.wm_capacity st' = UnifiedC.wm_capacity st
  /\ UnifiedC.file_hashes st' = UnifiedC.file_hashes st
  /\ UnifiedC.hash_capacity st' = UnifiedC.hash_capacity st
  /\ UnifiedC.stats st' = UnifiedC.stats st.

(** [fprintf] and [fflush] of one line on the log stream of
    [monitor.c]: nothing for the null pointer, and undefined for a
    closed stream. *)
Definition append_line (message : string) (st : UnifiedC.state)
    : UnifiedC.state :=
  match UnifiedC.log_file st with
  | UnifiedC.Open =>
      UnifiedC.with_log UnifiedC.Open
        (UnifiedC.dir_set (UnifiedC.files st) UnifiedC.LOG_FILE
                          (Some (UnifiedC.log_lines st ++ [message])%list)) st
  | UnifiedC.Stale => UnifiedC.mark_undefined st
  | UnifiedC.Null => st
  end.

(** The flags [handle_event] of [main.c] tests, in its order, with the
    verb it logs for each. *)
Definition main_event_kinds : list (Z * string) :=
  [ (IN_CREATE, "Created: "); (IN_DELETE, "Deleted: ");
    (IN_MODIFY, "Modified: "); (IN_MOVED_FROM, "Moved from: ");
    (IN_MOVED_TO, "Moved to: "); (IN_ATTRIB, "Attribute changed: ");
    (IN_OPEN, "Opened: "); (IN_CLOSE_WRITE, "Closed: ") ].

(** *** The pattern layer in the words of the specification *)

(** Rules in registration order; the first matching exclude rejects, the
    first matching include accepts, a matching alert only gives notice
    and the remaining rules decide; the default is to accept. *)
Fixpoint spec_pattern_layer (rules : list AdvancedC.pattern_rule_t)
    (filename : string) : bool :=
  match rules with
  | [] => true
  | r :: rest =>
      if AdvancedC.compiled_regex r filename then
        if AdvancedC.action r =? 0 then false
        else if AdvancedC.action r =? 1 then true
        else spec_pattern_layer rest filename
      else spec_pattern_layer rest filename
  end.

(** The notice an alert rule of [advanced_monitor.c] writes. *)
Definition alert_notice (r : AdvancedC.pattern_rule_t) (filename : string)
    : string :=
  snprintf 512 ("🚨 ALERT: Pattern matched '" ++ AdvancedC.pattern r
                  ++ "' for file: " ++ filename).

(* ================================================================= *)
(** ** Concrete inputs *)

(** A system where nothing can be opened and one directory, [/srv], can
    be watched. *)
Definition ex_os : os_env :=
  mkOs (fun _ => None) (fun _ => None)
       (fun p => if String.eqb p "/srv" then 1 else -1)
       (fun _ => "No such file or directory")
       (fun _ => None) true 1700000000.

(** The same system with one more file, [p], of the digest [d]. *)
Definition ex_os_with_file (p d : string) : os_env :=
  mkOs (fun q => if String.eqb q p then Some (false, 12) else None)
       (fun _ => None)
       (fun q => if String.eqb q "/srv" then 1 else -1)
       (fun _ => "No such file or directory")
       (fun q => if String.eqb q p then Some d else None)
       true 1700000000.

Definition digest_a : string :=
  "aaaaaaaaaaaaaaaaaaaaaaaaaaaaaaaaaaaaaaaaaaaaaaaaaaaaaaaaaaaaaaaa".
Definition digest_b : string :=
  "bbbbbbbbbbbbbbbbbbbbbbbbbbbbbbbbbbbbbbbbbbbbbbbbbbbbbbbbbbbbbbbb".

(** Events on files of the watched directory [/srv]: a change of the
    attributes of [notes.txt]; a write of [monitor.c] to its own log,
    for a working directory inside the watched tree; the creation of
    [notes.log], whose extension is not [txt]. *)
Definition ex_attrib_event : inotify_event :=
  mkEvent 1 IN_ATTRIB 16 "notes.txt".
Definition ex_own_log_event : inotify_event :=
  mkEvent 1 IN_MODIFY 16 "monitor.log".
Definition ex_rejected_event : inotify_event :=
  mkEvent 1 IN_CREATE 16 "notes.log".

(** [main.c] watching [/srv], with [extension=txt]. *)
Definition ex_main_cfg : MainC.config := MainC.mkConfig true ["txt"].
Definition ex_main_state : MainC.state :=
  MainC.mkState [(1, "/srv")] (Some []) [].

(** A regular expression without metacharacters matches the names that
    contain it. *)
Definition literal_regex (pat : string) : string -> bool :=
  fun filename => not_null (strstr filename pat).

(** [advanced_monitor.c] watching [/srv], with [extension=txt],
    [pattern_alert=secret] and [pattern_exclude=bak], in this order. *)
Definition ex_alert_rule : AdvancedC.pattern_rule_t :=
  AdvancedC.mkRule "secret" (literal_regex "secret") 2.
Definition ex_exclude_rule : AdvancedC.pattern_rule_t :=
  AdvancedC.mkRule "bak" (literal_regex "bak") 0.
Definition ex_adv_cfg : AdvancedC.config :=
  AdvancedC.mkConfig true ["txt"] [ex_alert_rule; ex_exclude_rule] true 100.
Definition ex_adv_state : AdvancedC.state :=
  AdvancedC.mkState [(1, "/srv")] (Some []) [] 0 0 [] 0.

(** [monitor.c] in its three modes; the basic and the enhanced one with
    [extension=txt], the advanced one without extensions. *)
Definition ex_basic_cfg : UnifiedC.config :=
  UnifiedC.mkConfig UnifiedC.MODE_BASIC true ["txt"] true true.
Definition ex_advanced_cfg : UnifiedC.config :=
  UnifiedC.mkConfig UnifiedC.MODE_ADVANCED true [] true true.
Definition ex_enhanced_cfg : UnifiedC.config :=
  UnifiedC.mkConfig UnifiedC.MODE_ENHANCED true ["txt"] true true.

(** The advanced mode with [extension=txt]. *)
Definition ex_advanced_txt_cfg : UnifiedC.config :=
  UnifiedC.mkConfig UnifiedC.MODE_ADVANCED true ["txt"] true true.

(** [monitor.c] watching [/srv] in the basic and advanced modes. *)
Definition ex_unified_state : UnifiedC.state :=
  UnifiedC.with_watches [(1, "/srv")] UnifiedC.initial_state.

(** [monitor.c] watching [/srv] in the enhanced mode. *)
Definition ex_enhanced_state : UnifiedC.state :=
  UnifiedC.with_wm [UnifiedC.mkWatch 1 "/srv" 1700000000 0]
                   UnifiedC.INITIAL_WATCH_CAPACITY UnifiedC.initial_state.

(** The enhanced mode with all 1024 slots of its initial table in use. *)
Definition ex_enhanced_full_state : UnifiedC.state :=
  UnifiedC.with_wm (repeat (UnifiedC.mkWatch 1 "/srv" 1700000000 0) 1024)
                   UnifiedC.INITIAL_WATCH_CAPACITY UnifiedC.initial_state.

(** The basic mode with all 1024 slots of its watch arrays in use. *)
Definition ex_full_state : UnifiedC.state :=
  UnifiedC.with_watches (repeat (1, "/srv") 1024) UnifiedC.initial_state.

(** The advanced mode of [monitor.c] with a log file holding one line,
    rotated once, and rotated again after one more line. *)
Definition ex_log_state : UnifiedC.state :=
  UnifiedC.with_log UnifiedC.Open
    (fun n => if String.eqb n UnifiedC.LOG_FILE
              then Some ["first generation"] else None)
    UnifiedC.initial_state.

Definition ex_rotated_once : UnifiedC.state :=
  UnifiedC.rotate_log_file ex_advanced_cfg ex_log_state.

Definition ex_rotated_twice : UnifiedC.state :=
  UnifiedC.rotate_log_file ex_advanced_cfg
    (UnifiedC.log_event ex_advanced_cfg "second generation" ex_rotated_once).

(** [monitor.c] with compression off, which no run of it has, and
    rotations under it, a line logged before each: they show what the
    shifting loop does to plain generations. *)
Definition ex_plain_cfg : UnifiedC.config :=
  UnifiedC.mkConfig UnifiedC.MODE_ADVANCED true [] true false.

Fixpoint ex_plain_rotations (n : nat) : UnifiedC.state :=
  match n with
  | O => ex_log_state
  | S k =>
      UnifiedC.rotate_log_file ex_plain_cfg
        (UnifiedC.log_event ex_plain_cfg "next" (ex_plain_rotations k))
  end.

(* ================================================================= *)
(** ** Reading the configuration file *)

(** The bytes of a buffer up to its first NUL: what the C string
    functions see of it. *)
Fixpoint cstr (s : string) : string :=
  match s with
  | EmptyString => EmptyString
  | String c s' => if Ascii.eqb c "000" then EmptyString else String c (cstr s')
  end.

(** [fgets] reading at most [n] characters: it stops behind a newline;
    the result is the line read and the rest of the file. *)
Fixpoint fgets_chars (n : nat) (s : string) : string * string :=
  match n with
  | O => (EmptyString, s)
  | S n' =>
      match s with
      | EmptyString => (EmptyString, EmptyString)
      | String c s' =>
          if Ascii.eqb c "010" then (String c EmptyString, s')
          else let (l, r) := fgets_chars n' s' in (String c l, r)
      end
  end.

(** [fgets (line, size, f)] on the unread part of a file: [None] for
    the null pointer at the end of the file. *)
Definition fgets (size : nat) (unread : string) : option (string * string) :=
  match unread with
  | EmptyString => None
  | _ => Some (fgets_chars (size - 1) unread)
  end.

(** [line[strcspn (line, "\n")] = 0]: the line up to its first newline. *)
Fixpoint chomp (line : string) : string :=
  match line with
  | EmptyString => EmptyString
  | String c s' => if Ascii.eqb c "010" then EmptyString else String c (chomp s')
  end.

(** [line + n] for a line of at least [n] characters. *)
Fixpoint skip (n : nat) (line : string) : string :=
  match n, line with
  | O, _ => line
  | S n', String _ s' => skip n' s'
  | S _, EmptyString => EmptyString
  end.

(** [line[0] == c]. *)
Definition first_is (c : ascii) (line : string) : bool :=
  match line with
  | String a _ => Ascii.eqb a c
  | EmptyString => false
  end.

(** The text of a file made of the given lines, a newline behind each. *)
Fixpoint text_of_lines (lines : list string) : string :=
  match lines with
  | [] => EmptyString
  | l :: ls => l ++ String "010" (text_of_lines ls)
  end.

(** A line that [fgets] with a buffer of 256 bytes reads in one piece
    and the string functions see whole: no newline and no NUL inside,
    and at most 254 characters. *)
Definition plain_line (l : string) : Prop :=
  char_free "010" l /\ char_free "000" l /\ (String.length l <= 254)%nat.

(* ----------------------------------------------------------------- *)
(** *** main.c *)

Module MainStartup.

(** The body of the loop of [load_config] for one line read. *)
Definition config_line (raw : string) (cfg : MainC.config) : MainC.config :=
  let line := cstr raw in
  if first_is "#" line || first_is "010" line then cfg
  else
    let line := chomp line in
    if String.prefix "recursive=" line then
      MainC.mkConfig (strcmp_eq (skip 10 line) "true") (MainC.file_extensions cfg)
    else if String.prefix "extension=" line then
      if Z.of_nat (List.length (MainC.file_extensions cfg)) <? 100 then
        MainC.mkConfig (MainC.recursive_mode cfg)
                       (MainC.file_extensions cfg ++ [skip 10 line])%list
      else cfg
    else cfg.

(** [while (fgets (line, sizeof (line), config)) ...]; every turn reads
    at least one character, so that [fuel] from the length of the file
    on never runs out. *)
Fixpoint config_loop (fuel : nat) (unread : string) (cfg : MainC.config)
    : MainC.config :=
  match fuel with
  | O => cfg
  | S fuel' =>
      match fgets 256 unread with
      | None => cfg
      | Some (raw, rest) => config_loop fuel' rest (config_line raw cfg)
      end
  end.

(** [load_config]; the file is [None] when [fopen] fails. *)
Definition load_config (file : option string) (cfg : MainC.config)
    (st : MainC.state) : MainC.config * MainC.state :=
  match file with
  | None =>
      (cfg, MainC.log_event "Configuration file not found. Using default settings." st)
  | Some content =>
      (config_loop (String.length content) content cfg,
       MainC.log_event "Configuration file loaded." st)
  end.

(** The globals as their initialisers leave them. *)
Definition initial_config : MainC.config := MainC.mkConfig true [].

(** The loop of [main] over the events of one [read]. *)
Definition process_events (fuel : nat) (os : os_env) (cfg : MainC.config)
    (events : list inotify_event) (st : MainC.state) : MainC.state :=
  fold_left (fun s event => MainC.dispatch fuel os cfg event s) events st.

End MainStartup.

(* ----------------------------------------------------------------- *)
(** *** monitor.c *)

Module UnifiedStartup.

Definition with_recursive (r : bool) (cfg : UnifiedC.config) : UnifiedC.config :=
  UnifiedC.mkConfig (UnifiedC.mode cfg) r (UnifiedC.file_extensions cfg)
                    (UnifiedC.enable_checksum cfg)
                    (UnifiedC.enable_compression cfg).

Definition with_extensions (es : list string) (cfg : UnifiedC.config)
    : UnifiedC.config :=
  UnifiedC.mkConfig (UnifiedC.mode cfg) (UnifiedC.recursive_mode cfg) es
                    (UnifiedC.enable_checksum cfg)
                    (UnifiedC.enable_compression cfg).

(** The body of the loop of [load_config] for one line read; the table
    of extensions is doubled when it is full, its [realloc] taken to
    succeed. *)
Definition config_line (raw : string) (cfg : UnifiedC.config) : UnifiedC.config :=
  let line := chomp (cstr raw) in
  if String.prefix "recursive=" line then
    with_recursive (strcmp_eq (skip 10 line) "true"
                    || strcmp_eq (skip 10 line) "yes") cfg
  else if String.prefix "extension=" line then
    with_extensions (UnifiedC.file_extensions cfg ++ [skip 10 line])%list cfg
  else cfg.

Fixpoint config_loop (fuel : nat) (unread : string) (cfg : UnifiedC.config)
    : UnifiedC.config :=
  match fuel with
  | O => cfg
  | S fuel' =>
      match fgets 256 unread with
      | None => cfg
      | Some (raw, rest) => config_loop fuel' rest (config_line raw cfg)
      end
  end.

(** [load_config]; it returns 0 on every path. *)
Definition load_config (file : option string) (cfg : UnifiedC.config)
    (st : UnifiedC.state) : Z * (UnifiedC.config * UnifiedC.state) :=
  match file with
  | None =>
      (0, (cfg,
           UnifiedC.log_event cfg
             "[CONFIG] Configuration file not found. Using defaults." st))
  | Some content =>
      let cfg' := config_loop (String.length content) content
                              (with_extensions [] cfg) in
      (0, (cfg',
           UnifiedC.log_event cfg'
             (snprintf 256
                ("[CONFIG] Loaded: recursive="
                   ++ (if UnifiedC.recursive_mode cfg' then "yes" else "no")
                   ++ ", extensions="
                   ++ fmt_int (Z.of_nat (List.length (UnifiedC.file_extensions cfg')))))
             st))
  end.

End UnifiedStartup.

(* ----------------------------------------------------------------- *)
(** *** advanced_monitor.c *)

Module AdvancedStartup.

Definition MAX_PATTERNS : Z := 100.

Definition with_patterns (rules : list AdvancedC.pattern_rule_t)
    (cfg : AdvancedC.config) : AdvancedC.config :=
  AdvancedC.mkConfig (AdvancedC.recursive_mode cfg)
                     (AdvancedC.file_extensions cfg) rules
                     (AdvancedC.enable_checksum cfg)
                     (AdvancedC.max_file_size_mb cfg).

(** One branch of the loop of [load_patterns_from_config]: the text of
    the rule is copied into the slot behind the rules in use, and the
    slot is taken into use only when [regcomp], which answers with the
    compiled expression or [None] for an error, accepts it. *)
Definition add_pattern (regcomp : string -> option (string -> bool))
    (text : string) (action : Z) (rules : list AdvancedC.pattern_rule_t)
    : list AdvancedC.pattern_rule_t :=
  match regcomp text with
  | Some compiled => (rules ++ [AdvancedC.mkRule (strncpy 255 text) compiled action])%list
  | None => rules
  end.

Definition pattern_line (regcomp : string -> option (string -> bool))
    (raw : string) (rules : list AdvancedC.pattern_rule_t)
    : list AdvancedC.pattern_rule_t :=
  let line := cstr raw in
  if String.prefix "pattern_exclude=" line then
    add_pattern regcomp (skip 16 (chomp line)) 0 rules
  else if String.prefix "pattern_include=" line then
    add_pattern regcomp (skip 16 (chomp line)) 1 rules
  else if String.prefix "pattern_alert=" line then
    add_pattern regcomp (skip 14 (chomp line)) 2 rules
  else rules.

(** [while (fgets (line, sizeof (line), config)
            && pattern_count < MAX_PATTERNS) ...], with a buffer of 512
    bytes. *)
Fixpoint patterns_loop (regcomp : string -> option (string -> bool))
    (fuel : nat) (unread : string) (rules : list AdvancedC.pattern_rule_t)
    : list AdvancedC.pattern_rule_t :=
  match fuel with
  | O => rules
  | S fuel' =>
      match fgets 512 unread with
      | None => rules
      | Some (raw, rest) =>
          if Z.of_nat (List.length rules) <? MAX_PATTERNS
          then patterns_loop regcomp fuel' rest (pattern_line regcomp raw rules)
          else rules
      end
  end.

(** [load_patterns_from_config]; the file is [None] when [fopen]
    fails. *)
Definition load_patterns_from_config
    (regcomp : string -> option (string -> bool)) (file : option string)
    (rules : list AdvancedC.pattern_rule_t) : list AdvancedC.pattern_rule_t :=
  match file with
  | None => rules
  | Some content => patterns_loop regcomp (String.length content) content rules
  end.

(** The body of the loop of [load_config] for one line read; [atoi] is
    the function of the C library.  [enable_compression], which the
    event path does not read, is left out of the configuration. *)
Definition config_line (atoi : string -> Z) (raw : string)
    (cfg : AdvancedC.config) : AdvancedC.config :=
  let line := cstr raw in
  if first_is "#" line || first_is "010" line then cfg
  else
    let line := chomp line in
    if String.prefix "recursive=" line then
      AdvancedC.mkConfig (strcmp_eq (skip 10 line) "true")
                         (AdvancedC.file_extensions cfg) (AdvancedC.patterns cfg)
                         (AdvancedC.enable_checksum cfg)
                         (AdvancedC.max_file_size_mb cfg)
    else if String.prefix "extension=" line then
      if Z.of_nat (List.length (AdvancedC.file_extensions cfg)) <? 100 then
        AdvancedC.mkConfig (AdvancedC.recursive_mode cfg)
                           (AdvancedC.file_extensions cfg ++ [skip 10 line])%list
                           (AdvancedC.patterns cfg)
                           (AdvancedC.enable_checksum cfg)
                           (AdvancedC.max_file_size_mb cfg)
      else cfg
    else if String.prefix "enable_checksum=" line then
      AdvancedC.mkConfig (AdvancedC.recursive_mode cfg)
                         (AdvancedC.file_extensions cfg) (AdvancedC.patterns cfg)
                         (strcmp_eq (skip 16 line) "true")
                         (AdvancedC.max_file_size_mb cfg)
    else if String.prefix "enable_compression=" line then cfg
    else if String.prefix "max_file_size_mb=" line then
      AdvancedC.mkConfig (AdvancedC.recursive_mode cfg)
                         (AdvancedC.file_extensions cfg) (AdvancedC.patterns cfg)
                         (AdvancedC.enable_checksum cfg)
                         (atoi (skip 17 line))
    else cfg.

Fixpoint config_loop (atoi : string -> Z) (fuel : nat) (unread : string)
    (cfg : AdvancedC.config) : AdvancedC.config :=
  match fuel with
  | O => cfg
  | S fuel' =>
      match fgets 256 unread with
      | None => cfg
      | Some (raw, rest) => config_loop atoi fuel' rest (config_line atoi raw cfg)
      end
  end.

(** [load_config]: [file] is what the configuration file holds when
    [load_config] opens it, [again] what it holds when
    [load_patterns_from_config] opens it anew. *)
Definition load_config (atoi : string -> Z)
    (regcomp : string -> option (string -> bool))
    (file again : option string) (cfg : AdvancedC.config)
    (st : AdvancedC.state) : AdvancedC.config * AdvancedC.state :=
  match file with
  | None =>
      (cfg, AdvancedC.log_event
              "[CONFIG] Configuration file not found. Using default settings." st)
  | Some content =>
      let cfg1 := config_loop atoi (String.length content) content cfg in
      (with_patterns
         (load_patterns_from_config regcomp again (AdvancedC.patterns cfg1)) cfg1,
       AdvancedC.log_event "📋 Configuration file loaded." st)
  end.

(** The globals as their initialisers leave them. *)
Definition initial_config : AdvancedC.config :=
  AdvancedC.mkConfig true [] [] true 100.

End AdvancedStartup.

(** A line that [fgets] with a buffer of 512 bytes reads in one piece. *)
Definition plain_pattern_line (l : string) : Prop :=
  char_free "010" l /\ char_free "000" l /\ (String.length l <= 510)%nat.

(** The configuration line of a rule with the given action and text. *)
Definition pattern_directive (rule : Z * string) : string :=
  (if fst rule =? 0 then "pattern_exclude="
   else if fst rule =? 1 then "pattern_include="
   else "pattern_alert=") ++ snd rule.

(** The rule a configuration line brings into use, if its expression
    compiles. *)
Definition compiled_rule (regcomp : string -> option (string -> bool))
    (rule : Z * string) : list AdvancedC.pattern_rule_t :=
  match regcomp (snd rule) with
  | Some compiled => [AdvancedC.mkRule (strncpy 255 (snd rule)) compiled (fst rule)]
  | None => []
  end.

(* ----------------------------------------------------------------- *)
(** *** monitor.c: the command line *)

Module UnifiedMain.

(** How the head of [main] ends: with [exit (code)], or with the mode
    and the directory to watch. *)
Inductive parsed : Type :=
  | Exit (code : Z)
  | Go (mode : UnifiedC.monitor_mode_t) (watch_path : string).

(** The loop of [main] over [argv[1]] to [argv[argc - 1]]; [None] is
    the null pointer in [watch_path]. *)
Fixpoint parse_arguments (args : list string) (mode : UnifiedC.monitor_mode_t)
    (watch_path : option string)
    : Z + UnifiedC.monitor_mode_t * option string :=
  match args with
  | [] => inr (mode, watch_path)
  | arg :: rest =>
      if strcmp_eq arg "-h" || strcmp_eq arg "--help" then inl 0
      else if strcmp_eq arg "--version" then inl 0
      else if String.prefix "--mode=" arg then
        let mode_str := skip 7 arg in
        if strcmp_eq mode_str "basic" then
          parse_arguments rest UnifiedC.MODE_BASIC watch_path
        else if strcmp_eq mode_str "advanced" then
          parse_arguments rest UnifiedC.MODE_ADVANCED watch_path
        else if strcmp_eq mode_str "enhanced" then
          parse_arguments rest UnifiedC.MODE_ENHANCED watch_path
        else inl 1
      else if negb (first_is "-" arg) then
        parse_arguments rest mode (Some arg)
      else parse_arguments rest mode watch_path
  end.

(** The head of [main], up to the test of [watch_path]. *)
Definition arguments (args : list string) : parsed :=
  match parse_arguments args UnifiedC.MODE_BASIC None with
  | inl code => Exit code
  | inr (_, None) => Exit 1
  | inr (mode, Some watch_path) => Go mode watch_path
  end.

End UnifiedMain.

(** The mode an argument of the form [--mode=basic], [--mode=advanced]
    or [--mode=enhanced] names. *)
Definition mode_of_argument (arg : string) : option UnifiedC.monitor_mode_t :=
  if String.eqb arg "--mode=basic" then Some UnifiedC.MODE_BASIC
  else if String.eqb arg "--mode=advanced" then Some UnifiedC.MODE_ADVANCED
  else if String.eqb arg "--mode=enhanced" then Some UnifiedC.MODE_ENHANCED
  else None.

(** An argument that neither asks for the usage or the version nor is
    a [--mode=] with an unknown name. *)
Definition plain_argument (arg : string) : Prop :=
  arg <> "-h" /\ arg <> "--help" /\ arg <> "--version"
  /\ (String.prefix "--mode=" arg = true -> mode_of_argument arg <> None).

(** The last mode named on a command line, and the last argument that
    does not start with a dash. *)
Definition last_mode (args : list string) : UnifiedC.monitor_mode_t :=
  fold_left (fun m arg => match mode_of_argument arg with
                          | Some m' => m'
                          | None => m
                          end) args UnifiedC.MODE_BASIC.

Definition last_path (args : list string) : option string :=
  fold_left (fun p arg => if first_is "-" arg then p else Some arg) args None.

(* ================================================================= *)
(** ** advanced_monitor.c: the log file and its generations *)

(** [log_event], [compress_old_log] and [rotate_log_file] of
    [advanced_monitor.c] on the log stream and the working directory.
    As for [monitor.c], a write through the stale pointer that
    [rotate_log_file] leaves while it runs is undefined in C: the state
    is marked [undefined], and goes on as in a run where the write is
    lost.  [gzopen] and the [fopen] of the new log file are taken to
    succeed. *)
Module AdvancedLog.

Definition LOG_FILE : string := AdvancedC.LOG_FILE.
Definition MAX_LOG_FILES : nat := 10.

Record state : Type := mkState {
  log_file         : UnifiedC.stream;
  files            : UnifiedC.dir;
  console          : list string;
  events_processed : Z;
  (** set once the program has written through a closed stream. *)
  undefined        : bool
}.

Definition with_log (s : UnifiedC.stream) (d : UnifiedC.dir) (st : state)
    : state :=
  mkState s d (console st) (events_processed st) (undefined st).

(** The lines of the current log file. *)
Definition log_lines (st : state) : list string :=
  match files st LOG_FILE with
  | Some lines => lines
  | None => []
  end.

Definition log_event (message : string) (st : state) : state :=
  mkState (log_file st)
          (match log_file st with
           | UnifiedC.Open =>
               UnifiedC.dir_set (files st) LOG_FILE
                                (Some (log_lines st ++ [message])%list)
           | _ => files st
           end)
          (console st ++ [message])%list
          (wrap64 (events_processed st + 1))
          (match log_file st with
           | UnifiedC.Stale => true
           | _ => undefined st
           end).

(** [advanced_monitor.log.<i>]. *)
Definition generation (i : nat) : string :=
  snprintf MAX_PATH_LEN (LOG_FILE ++ "." ++ fmt_int (Z.of_nat i)).

(** The loop [for (i = MAX_LOG_FILES - 1; i > 0; i--)] of
    [rotate_log_file], entered with the given [i]. *)
Fixpoint shift_generations (i : nat) (d : UnifiedC.dir) : UnifiedC.dir :=
  match i with
  | O => d
  | S j =>
      let old_name := generation (i - 1) in
      let new_name := generation i in
      let d' :=
        match d old_name with
        | Some _ =>
            if Nat.eqb i (MAX_LOG_FILES - 1) then UnifiedC.unlink old_name d
            else UnifiedC.rename old_name new_name d
        | None => d
        end in
      shift_generations j d'
  end.

Definition compress_old_log (filename : string) (st : state) : state :=
  let gz_filename := snprintf MAX_PATH_LEN (filename ++ ".gz") in
  match files st filename with
  | None => st
  | Some c =>
      let d := UnifiedC.unlink filename
                 (UnifiedC.dir_set (files st) gz_filename (Some c)) in
      log_event (snprintf 512 ("Compressed log file: " ++ gz_filename))
                (with_log (log_file st) d st)
  end.

(** [rotate_log_file]; [enable_compression] is the global that
    [load_config] sets. *)
Definition rotate_log_file (enable_compression : bool) (st : state) : state :=
  match log_file st with
  | UnifiedC.Null => st
  | _ =>
      let d := shift_generations (MAX_LOG_FILES - 1) (files st) in
      let new_name := snprintf MAX_PATH_LEN (LOG_FILE ++ ".0") in
      let d := UnifiedC.rename LOG_FILE new_name d in
      let st := with_log UnifiedC.Stale d st in
      let st := if enable_compression then compress_old_log new_name st else st in
      let d := match files st LOG_FILE with
               | Some _ => files st
               | None => UnifiedC.dir_set (files st) LOG_FILE (Some [])
               end in
      log_event "🔄 Log file rotated successfully" (with_log UnifiedC.Open d st)
  end.

End AdvancedLog.

(* ================================================================= *)
(** ** More concrete inputs *)

(** A configuration file with two extensions, and one whose first line
    is a comment of 255 characters followed, on the same line, by a
    directive. *)
Definition ex_config_text : string :=
  text_of_lines ["extension=txt"; "extension=log"].

(** One with an extension that holds a dot. *)
Definition ex_dotted_config_text : string :=
  text_of_lines ["extension=txt"; "extension=tar.gz"].

Definition ex_long_comment : string :=
  String "#" (String.concat "" (repeat "-" 254)).

Definition ex_long_comment_text : string :=
  ex_long_comment ++ text_of_lines ["extension=exe"].

(** Proof search for [plain_line] and [char_free] on literal strings. *)
Ltac plain_lines :=
  repeat (constructor || split || (intro; discriminate) || (simpl; lia)).


(** A system with the directory [/srv], holding the directory [sub] and
    the file [notes.txt]; both directories can be watched. *)
Definition ex_tree_os : os_env :=
  mkOs (fun p => if String.eqb p "/srv" then Some (true, 4096)
                 else if String.eqb p "/srv/sub" then Some (true, 4096)
                 else if String.eqb p "/srv/notes.txt" then Some (false, 12)
                 else None)
       (fun p => if String.eqb p "/srv" then Some ["."; ".."; "sub"; "notes.txt"]
                 else if String.eqb p "/srv/sub" then Some ["."; ".."]
                 else None)
       (fun p => if String.eqb p "/srv" then 1
                 else if String.eqb p "/srv/sub" then 2 else -1)
       (fun _ => "No such file or directory")
       (fun _ => None) true 1700000000.

(** The creation of the directory [sub] in [/srv], and [main.c] without
    configured extensions. *)
Definition ex_mkdir_event : inotify_event :=
  mkEvent 1 (Z.lor IN_CREATE IN_ISDIR) 16 "sub".

Definition ex_open_cfg : MainC.config := MainC.mkConfig true [].

(** [advanced_monitor.c] after it has seen [/srv/notes.txt] with the
    digest [digest_a]. *)
Definition ex_seen_state : AdvancedC.state :=
  AdvancedC.mkState [(1, "/srv")] (Some []) [] 0 0
    [AdvancedC.mkHashInfo "/srv/notes.txt" digest_a 1700000000 12] 1000.

(** A [regcomp] that accepts the expressions without metacharacters,
    and takes an opening bracket for an error. *)
Definition ex_regcomp (text : string) : option (string -> bool) :=
  if not_null (strstr text "[") then None else Some (literal_regex text).

(** [advanced_monitor.c] with a log of one line and two generations. *)
Definition ex_advanced_log_state : AdvancedLog.state :=
  AdvancedLog.mkState UnifiedC.Open
    (fun n => if String.eqb n "advanced_monitor.log" then Some ["today"]
              else if String.eqb n "advanced_monitor.log.0" then Some ["yesterday"]
              else if String.eqb n "advanced_monitor.log.1" then Some ["last week"]
              else None)
    [] 0 false.


(* ================================================================= *)
(** ** How a later state continues an earlier one *)

(** [main.c]: [st'] continues [st] when watches were only added behind
    the ones of [st], none of them with the descriptor [-1] and without
    leaving the table of 1024 entries, and the same lines were appended
    to the console and, if it is open, to the log file. *)
Definition main_continues (st st' : MainC.state) : Prop :=
  exists (ws : list (Z * string)) (ls : list string),
    MainC.watches st' = (MainC.watches st ++ ws)%list
    /\ Forall (fun w => fst w <> -1) ws
    /\ MainC.console st' = (MainC.console st ++ ls)%list
    /\ MainC.log_file st'
       = option_map (fun l => (l ++ ls)%list) (MainC.log_file st)
    /\ (Z.of_nat (List.length (MainC.watches st)) <= MainC.MAX_WATCHES ->
        Z.of_nat (List.length (MainC.watches st')) <= MainC.MAX_WATCHES).

(** The test and the line of [handle_event] of [main.c] for one kind of
    event. *)
Definition main_log_kind (mask : Z) (msg : string -> string)
    (st : MainC.state) (k : Z * string) : MainC.state :=
  if has_flag mask (fst k) then MainC.log_event (msg (snd k)) st else st.

(** The values of an [unsigned long]. *)
Definition unsigned_long (z : Z) : Prop := 0 <= z < 2 ^ 64.

(** [advanced_monitor.c]: [st'] continues [st] when watches were only
    added behind the ones of [st], none of them with the descriptor
    [-1] and without leaving the table of 1024 entries, the same lines
    were appended to the console and, if it is open, to the log file,
    and the two counters, [unsigned long] in the C program, went up by
    the number of these lines and of these watches. *)
Definition advanced_continues (st st' : AdvancedC.state) : Prop :=
  exists (ws : list (Z * string)) (ls : list string),
    AdvancedC.watches st' = (AdvancedC.watches st ++ ws)%list
    /\ Forall (fun w => fst w <> -1) ws
    /\ AdvancedC.console st' = (AdvancedC.console st ++ ls)%list
    /\ AdvancedC.log_file st'
       = option_map (fun l => (l ++ ls)%list) (AdvancedC.log_file st)
    /\ (unsigned_long (AdvancedC.events_processed st) ->
        AdvancedC.events_processed st'
        = wrap64 (AdvancedC.events_processed st + Z.of_nat (List.length ls)))
    /\ (unsigned_long (AdvancedC.files_monitored st) ->
        AdvancedC.files_monitored st'
        = wrap64 (AdvancedC.files_monitored st + Z.of_nat (List.length ws)))
    /\ (Z.of_nat (List.length (AdvancedC.watches st)) <= AdvancedC.MAX_WATCHES ->
        Z.of_nat (List.length (AdvancedC.watches st')) <= AdvancedC.MAX_WATCHES).

(** The steps of [handle_event] of [advanced_monitor.c] behind its
    filters, in the order of the code: the notice for a large file,
    then the tests of the event mask. *)
Definition advanced_steps (fuel : nat) (os : os_env) (cfg : AdvancedC.config)
    (event : inotify_event) (watch_path : string)
    : list (AdvancedC.state -> AdvancedC.state) :=
  let full_path := snprintf MAX_PATH_LEN (watch_path ++ "/" ++ ev_name event) in
  let stat_result := os_stat os full_path in
  let file_size := match stat_result with
                   | Some (_, sz) => sz
                   | None => 0
                   end in
  let sized (verb : string) :=
    snprintf 1024 (verb ++ full_path ++ " (" ++ fmt_int file_size ++ " bytes)") in
  let plain (verb : string) := snprintf 1024 (verb ++ full_path) in
  let on (flag : Z) (f : AdvancedC.state -> AdvancedC.state) :=
    fun st => if has_flag (ev_mask event) flag then f st else st in
  [ (fun st =>
       match stat_result with
       | Some _ =>
           if file_size
              >? int_mul (int_mul (AdvancedC.max_file_size_mb cfg) 1024) 1024 then
             AdvancedC.log_event
               (snprintf 1024 ("Large file detected ("
                                 ++ fmt_int (Z.quot file_size (1024 * 1024))
                                 ++ " MB): " ++ full_path)) st
           else st
       | None => st
       end);
    on IN_CREATE
       (fun st =>
          let st := AdvancedC.log_event (sized "Created: ") st in
          if AdvancedC.recursive_mode cfg && has_flag (ev_mask event) IN_ISDIR
          then snd (AdvancedC.add_watch_recursive fuel os cfg full_path st)
          else st);
    on IN_DELETE (AdvancedC.log_event (plain "Deleted: "));
    on IN_MODIFY
       (fun st =>
          let (changed, st) := AdvancedC.has_file_changed os cfg full_path st in
          if changed then AdvancedC.log_event (sized "Modified: ") st else st);
    on IN_MOVED_FROM (AdvancedC.log_event (plain "Moved from: "));
    on IN_MOVED_TO (AdvancedC.log_event (sized "Moved to: "));
    on IN_ATTRIB (AdvancedC.log_event (plain "Attribute changed: "));
    on IN_OPEN (AdvancedC.log_event (plain "Opened: "));
    on IN_CLOSE_WRITE (AdvancedC.log_event (sized "Closed: ")) ].

(** The loop of [main] of [advanced_monitor.c] over the events of one
    [read]. *)
Definition advanced_process_events (fuel : nat) (os : os_env)
    (cfg : AdvancedC.config) (events : list inotify_event)
    (st : AdvancedC.state) : AdvancedC.state :=
  fold_left (fun s event => AdvancedC.dispatch fuel os cfg event s) events st.

(** The checksum cache of [advanced_monitor.c]: the entries in use and
    the size of the table. *)
Definition advanced_cache (st : AdvancedC.state)
    : list AdvancedC.file_hash_info_t * Z :=
  (AdvancedC.file_hashes st, AdvancedC.hash_capacity st).

(** [monitor.c]: whether the event loop finds the watch an event names,
    in the table of the mode it runs in. *)
Definition unified_known (cfg : UnifiedC.config) (event : inotify_event)
    (st : UnifiedC.state) : bool :=
  match UnifiedC.mode cfg with
  | UnifiedC.MODE_ENHANCED =>
      not_null (UnifiedC.find_watch_by_wd (ev_wd event) (UnifiedC.wm_entries st))
  | _ =>
      not_null (UnifiedC.find_watch_path (ev_wd event) (UnifiedC.watches st))
  end.

(** [monitor.c], enhanced mode: no watch has counted more events than
    the maximum recorded in the statistics. *)
Definition most_active_bounds (st : UnifiedC.state) : Prop :=
  0 <= UnifiedC.max_events_per_path (UnifiedC.stats st)
  /\ Forall (fun e => UnifiedC.event_count e
                      <= UnifiedC.max_events_per_path (UnifiedC.stats st))
            (UnifiedC.wm_entries st).

(** The flags the basic and the enhanced handler of [monitor.c] test,
    in their order, with the verb logged for each. *)
Definition unified_event_kinds : list (Z * string) :=
  [ (IN_CREATE, "Created: "); (IN_DELETE, "Deleted: ");
    (IN_MODIFY, "Modified: "); (IN_MOVED_FROM, "Moved from: ");
    (IN_MOVED_TO, "Moved to: "); (IN_OPEN, "Opened: ");
    (IN_CLOSE, "Closed: ") ].

(* ================================================================= *)
(** * Properties *)

(** ** String functions *)

Section StringFacts.

Lemma substring_whole (n : nat) (s : string) :
  (String.length s <= n)%nat -> String.substring 0 n s = s.
Proof.
  revert s; induction n as [|n IH]; intros [|a s] H; simpl in *;
    try reflexivity; try lia.
  rewrite IH by lia; reflexivity.
Qed.

Lemma strncpy_fits (n : nat) (s : string) :
  (String.length s <= n)%nat -> strncpy n s = s.
Proof. intro H; unfold strncpy; now apply substring_whole. Qed.

Lemma prefix_iff (n h : string) :
  String.prefix n h = true <-> exists post, h = n ++ post.
Proof.
  revert h; induction n as [|a n IH]; intros h.
  - split; [intros _; now exists h | intros _; now destruct h].
  - destruct h as [|b h]; simpl.
    + split; [discriminate | intros [post H]; discriminate].
    + destruct (ascii_dec a b) as [->|Hab].
      * rewrite IH. split; intros [post H]; exists post.
        -- now rewrite H.
        -- now injection H.
      * split; [discriminate|]. intros [post H]. injection H as H1 H2.
        now destruct Hab.
Qed.

Lemma strstr_eq (h n : string) :
  strstr h n
  = if String.prefix n h then Some h
    else match h with
         | EmptyString => None
         | String _ h' => strstr h' n
         end.
Proof. destruct h; reflexivity. Qed.

(** [strstr] finds a needle exactly when the haystack contains it. *)
Lemma strstr_iff (h n : string) :
  not_null (strstr h n) = true <-> exists pre post, h = pre ++ n ++ post.
Proof.
  split.
  - induction h as [|a h IH]; rewrite strstr_eq.
    + destruct (String.prefix n "") eqn:E; [|discriminate].
      intros _. apply prefix_iff in E as [post E]. now exists "", post.
    + destruct (String.prefix n (String a h)) eqn:E.
      * intros _. apply prefix_iff in E as [post E]. now exists "", post.
      * intros H. destruct (IH H) as (pre & post & ->).
        now exists (String a pre), post.
  - intros (pre & post & ->). induction pre as [|a pre IH].
    + rewrite strstr_eq.
      assert (E : String.prefix n ("" ++ n ++ post) = true)
        by (apply prefix_iff; now exists post).
      now rewrite E.
    + rewrite strstr_eq.
      destruct (String.prefix n (String a pre ++ n ++ post)); [reflexivity|].
      exact IH.
Qed.

Lemma strrchr_none (s : string) (c : ascii) :
  strrchr s c = None <-> char_free c s.
Proof.
  induction s as [|a s IH]; simpl.
  - tauto.
  - destruct (strrchr s c) as [r|].
    + split; [discriminate|]. intros [_ H]. apply IH in H. discriminate.
    + destruct (Ascii.eqb_spec a c) as [->|Hac].
      * split; [discriminate | intros [H _]; now destruct H].
      * split; [intros _; split; [exact Hac | now apply IH] | reflexivity].
Qed.

(** [strrchr] returns the part of the string from its last [c] on. *)
Lemma strrchr_some (s : string) (c : ascii) (r : string) :
  strrchr s c = Some r <->
  exists pre ext, s = pre ++ String c ext /\ char_free c ext /\ r = String c ext.
Proof.
  split.
  - revert r; induction s as [|a s IH]; simpl; intros r; [discriminate|].
    destruct (strrchr s c) as [r0|] eqn:E.
    + intros [= <-]. destruct (IH r0 eq_refl) as (pre & ext & -> & Hf & ->).
      now exists (String a pre), ext.
    + destruct (Ascii.eqb_spec a c) as [->|Hac]; [|discriminate].
      intros [= <-]. exists "", s. repeat split. now apply strrchr_none.
  - intros (pre & ext & -> & Hf & ->).
    induction pre as [|a pre IH]; simpl.
    + apply strrchr_none in Hf. rewrite Hf. now rewrite Ascii.eqb_refl.
    + now rewrite IH.
Qed.

End StringFacts.

(* ================================================================= *)
(** ** The extension allow-list *)

Lemma extension_filter_empty (filename : string) :
  extension_filter [] filename = true.
Proof. reflexivity. Qed.

Lemma extension_filter_nonempty (exts : list string) (filename : string) :
  exts <> [] ->
  extension_filter exts filename = true <->
  exists stem ext,
    filename = stem ++ "." ++ ext /\ char_free "." ext /\ In ext exts.
Proof.
  intros Hne. unfold extension_filter.
  destruct exts as [|e0 exts']; [now destruct Hne|].
  change (Z.of_nat (List.length (e0 :: exts')) =? 0) with false.
  cbv iota. set (exts := e0 :: exts') in *.
  destruct (strrchr filename ".") as [r|] eqn:E.
  - apply strrchr_some in E as (pre & ext & -> & Hf & ->). simpl str_tail.
    rewrite existsb_exists. split.
    + intros (e & Hin & He). apply String.eqb_eq in He as <-.
      now exists pre, ext.
    + intros (stem & ext' & Heq & Hf' & Hin).
      assert (Hr : strrchr (pre ++ String "." ext) "." = Some (String "." ext'))
        by (rewrite Heq; apply strrchr_some; now exists stem, ext').
      assert (Hl : strrchr (pre ++ String "." ext) "." = Some (String "." ext))
        by (apply strrchr_some; now exists pre, ext).
      rewrite Hl in Hr. injection Hr as ->.
      exists ext'. split; [exact Hin | apply String.eqb_refl].
  - split; [discriminate|].
    intros (stem & ext & -> & Hf & _).
    assert (Hr : strrchr (stem ++ "." ++ ext) "." = Some (String "." ext))
      by (apply strrchr_some; now exists stem, ext).
    rewrite Hr in E. discriminate.
Qed.

Lemma extension_filter_no_dot (exts : list string) (filename : string) :
  exts <> [] -> char_free "." filename ->
  extension_filter exts filename = false.
Proof.
  intros Hne Hf. unfold extension_filter.
  destruct exts as [|e0 exts']; [now destruct Hne|].
  change (Z.of_nat (List.length (e0 :: exts')) =? 0) with false.
  apply strrchr_none in Hf. now rewrite Hf.
Qed.

(** C7.  In [monitor.c] and in [main.c], [should_monitor_file] accepts
    every file name when no extension is configured; when some are, it
    accepts a name exactly when the text after its last ['.'] is equal,
    character for character, to a configured extension, and so rejects
    a name without any ['.']. *)
Theorem C7_extension_allow_list :
  forall (exts : list string) (mcfg : MainC.config) (ucfg : UnifiedC.config)
         (filename : string),
    MainC.file_extensions mcfg = exts ->
    UnifiedC.file_extensions ucfg = exts ->
    MainC.should_monitor_file mcfg filename
    = UnifiedC.should_monitor_file ucfg filename
    /\ (exts = [] -> UnifiedC.should_monitor_file ucfg filename = true)
    /\ (exts <> [] ->
        (UnifiedC.should_monitor_file ucfg filename = true <->
         exists stem ext,
           filename = stem ++ "." ++ ext /\ char_free "." ext /\ In ext exts)
        /\ (char_free "." filename ->
            UnifiedC.should_monitor_file ucfg filename = false)).
Proof.
  intros exts mcfg ucfg filename Hm Hu.
  unfold MainC.should_monitor_file, UnifiedC.should_monitor_file.
  rewrite Hm, Hu.
  split; [reflexivity|]. split.
  - intros ->. apply extension_filter_empty.
  - intros Hne. split.
    + now apply extension_filter_nonempty.
    + now apply extension_filter_no_dot.
Qed.

(** C7 with [txt] configured: [README] has no extension and is
    rejected, [notes.txt] passes, and [notes.TXT] does not. *)
Lemma C7_witness :
  UnifiedC.should_monitor_file ex_basic_cfg "README" = false
  /\ MainC.should_monitor_file ex_main_cfg "notes.txt" = true
  /\ UnifiedC.should_monitor_file ex_basic_cfg "notes.TXT" = false.
Proof.
  destruct (C7_extension_allow_list ["txt"] ex_main_cfg ex_basic_cfg "README"
              eq_refl eq_refl) as (_ & _ & H).
  destruct (H ltac:(discriminate)) as [_ Hno].
  destruct (C7_extension_allow_list ["txt"] ex_main_cfg ex_basic_cfg "notes.txt"
              eq_refl eq_refl) as (Heq & _ & H').
  destruct (H' ltac:(discriminate)) as [Hiff _].
  split; [|split].
  - apply Hno. simpl. repeat split; discriminate.
  - rewrite Heq. apply Hiff. exists "notes", "txt".
    split; [reflexivity|]. split; [|now left].
    simpl. repeat split; discriminate.
  - reflexivity.
Defined.

(* ================================================================= *)
(** ** Logging in monitor.c *)

Section Logging.

Import UnifiedC.

Lemma same_tables_refl st : same_tables st st.
Proof. repeat split. Qed.

Lemma same_tables_trans st1 st2 st3 :
  same_tables st1 st2 -> same_tables st2 st3 -> same_tables st1 st3.
Proof.
  unfold same_tables.
  intros (a1 & a2 & a3 & a4 & a5 & a6) (b1 & b2 & b3 & b4 & b5 & b6).
  repeat split; congruence.
Qed.

Lemma same_tables_with_log s d st : same_tables st (with_log s d st).
Proof. repeat split. Qed.

Lemma same_tables_mark_undefined st : same_tables st (mark_undefined st).
Proof. repeat split. Qed.

Lemma compress_old_log_frame log filename st :
  (forall m s, same_tables s (log m s)) ->
  same_tables st (compress_old_log_with log filename st).
Proof.
  intros Hlog. unfold compress_old_log_with.
  destruct (files st filename); [|apply same_tables_refl].
  eapply same_tables_trans; [|apply Hlog]. apply same_tables_with_log.
Qed.

Lemma rotate_log_file_frame log cfg st :
  (forall m s, same_tables s (log m s)) ->
  same_tables st (rotate_log_file_with log cfg st).
Proof.
  intros Hlog. unfold rotate_log_file_with.
  assert (H : forall d,
             same_tables st
               (if enable_compression cfg
                then compress_old_log_with log
                       (snprintf MAX_PATH_LEN (LOG_FILE ++ ".0"))
                       (with_log Stale d st)
                else with_log Stale d st)).
  { intros d. destruct (enable_compression cfg).
    - eapply same_tables_trans; [|now apply compress_old_log_frame].
      apply same_tables_with_log.
    - apply same_tables_with_log. }
  destruct (log_file st); [apply same_tables_refl| |];
    (eapply same_tables_trans; [|apply Hlog]);
    (eapply same_tables_trans; [apply H|]); apply same_tables_with_log.
Qed.

(** Logging touches the log stream and the working directory only. *)
Lemma log_event_rec_frame depth cfg message st :
  same_tables st (log_event_rec depth cfg message st).
Proof.
  revert message st. induction depth as [|depth IH]; intros message st.
  - apply same_tables_refl.
  - cbn [log_event_rec].
    destruct (log_file st);
      [apply same_tables_refl | | apply same_tables_mark_undefined].
    destruct (mode cfg); try apply same_tables_with_log.
    match goal with |- context [if ?c then _ else _] => destruct c end.
    + eapply same_tables_trans; [apply same_tables_with_log|].
      apply rotate_log_file_frame. intros m s. apply IH.
    + apply same_tables_with_log.
Qed.

Lemma log_event_frame cfg message st :
  same_tables st (log_event cfg message st).
Proof. apply log_event_rec_frame. Qed.

(** Outside the advanced mode a call of [log_event] is one appended
    line, or nothing when no stream was opened. *)
Lemma log_event_plain cfg message st :
  mode cfg <> MODE_ADVANCED ->
  log_event cfg message st = append_line message st.
Proof.
  intros Hm. unfold log_event, append_line. cbn [log_event_rec].
  destruct (log_file st); try reflexivity.
  destruct (mode cfg); try reflexivity. now destruct Hm.
Qed.

End Logging.

(** *** The nesting of [log_event] and [rotate_log_file] *)

Section LogDepth.
Import UnifiedC.

Lemma gen0_not_log : String.eqb LOG_FILE (snprintf MAX_PATH_LEN (LOG_FILE ++ ".0")) = false.
Proof. vm_compute. reflexivity. Qed.

Lemma gz0_not_log :
  String.eqb LOG_FILE
    (snprintf MAX_PATH_LEN (snprintf MAX_PATH_LEN (LOG_FILE ++ ".0") ++ ".gz")) = false.
Proof. vm_compute. reflexivity. Qed.

Lemma rename_log_gone new_name d :
  String.eqb LOG_FILE new_name = false ->
  rename LOG_FILE new_name d LOG_FILE = None.
Proof.
  intros H. unfold rename. destruct (d LOG_FILE) eqn:E; [|exact E].
  unfold dir_set. now rewrite String.eqb_refl.
Qed.

Lemma log_event_rec_S depth cfg m st :
  log_event_rec (S depth) cfg m st
  = match log_file st with
    | Null => st
    | Stale => mark_undefined st
    | Open =>
        let st1 := with_log Open
                     (dir_set (files st) LOG_FILE
                              (Some (log_lines st ++ [m])%list)) st in
        match mode cfg with
        | MODE_ADVANCED =>
            if log_size st1 >? MAX_LOG_SIZE_MB * 1024 * 1024 then
              rotate_log_file_with (log_event_rec depth cfg) cfg st1
            else st1
        | _ => st1
        end
    end.
Proof. reflexivity. Qed.

(** A line written into an empty log file never reaches the size limit
    and so is one appended line, whatever the depth allowed. *)
Lemma log_event_rec_fresh k cfg m st :
  log_file st = Open -> log_lines st = [] ->
  line_bytes m <= MAX_LOG_SIZE_MB * 1024 * 1024 ->
  log_event_rec (S k) cfg m st = append_line m st.
Proof.
  intros Ho Hl Hm. rewrite log_event_rec_S. unfold append_line. rewrite Ho.
  cbv zeta.
  destruct (mode cfg); try reflexivity.
  match goal with |- context [log_size ?s] => assert (Hs : log_size s = line_bytes m) end.
  { unfold log_size, log_lines at 1. cbn [files with_log]. unfold dir_set at 1.
    rewrite String.eqb_refl, Hl. cbn. lia. }
  rewrite Hs.
  destruct (line_bytes m >? MAX_LOG_SIZE_MB * 1024 * 1024) eqn:E; [|reflexivity].
  apply Z.gtb_lt in E. lia.
Qed.

Lemma log_event_rec_stale depth cfg m st :
  log_file st = Stale ->
  log_event_rec (S depth) cfg m st = mark_undefined st.
Proof.
  intros H. rewrite log_event_rec_S. now rewrite H.
Qed.

Lemma compress_stale_log j cfg filename st :
  log_file st = Stale ->
  compress_old_log_with (log_event_rec (S j) cfg) filename st
  = compress_old_log_with (fun _ s => mark_undefined s) filename st.
Proof.
  intros H. unfold compress_old_log_with.
  destruct (files st filename); [|reflexivity].
  now apply log_event_rec_stale.
Qed.

Lemma rotate_body_result k cfg d st :
  d LOG_FILE = None ->
  let new_name := snprintf MAX_PATH_LEN (LOG_FILE ++ ".0") in
  let st2 := fun log =>
    if enable_compression cfg
    then compress_old_log_with log new_name (with_log Stale d st)
    else with_log Stale d st in
  let reopen := fun s =>
    with_log Open (match files s LOG_FILE with
                   | Some _ => files s
                   | None => dir_set (files s) LOG_FILE (Some [])
                   end) s in
  log_event_rec (S k) cfg "[INFO] Log file rotated successfully"
                (reopen (st2 (log_event_rec (S k) cfg)))
  = append_line "[INFO] Log file rotated successfully"
                (reopen (st2 (fun _ s => mark_undefined s)))
  /\ log_lines (reopen (st2 (fun _ s => mark_undefined s))) = []
  /\ files (st2 (fun _ s => mark_undefined s)) LOG_FILE = None.
Proof.
  intros Hd new_name st2 reopen.
  assert (Hc : st2 (log_event_rec (S k) cfg) = st2 (fun _ s => mark_undefined s)).
  { unfold st2. destruct (enable_compression cfg); [|reflexivity].
    now apply compress_stale_log. }
  rewrite Hc.
  assert (H2 : files (st2 (fun _ s => mark_undefined s)) LOG_FILE = None).
  { unfold st2. destruct (enable_compression cfg); [|exact Hd].
    unfold compress_old_log_with. cbn [files with_log].
    destruct (d new_name); [|exact Hd].
    cbn [files with_log mark_undefined]. unfold unlink, dir_set, new_name.
    now rewrite gen0_not_log, gz0_not_log. }
  unfold reopen. rewrite H2.
  assert (Hb : line_bytes "[INFO] Log file rotated successfully"
               <= MAX_LOG_SIZE_MB * 1024 * 1024)
    by (vm_compute; discriminate).
  set (s := with_log Open _ _).
  assert (Ho : log_file s = Open) by reflexivity.
  assert (Hl : log_lines s = []).
  { unfold log_lines, s. cbn [files with_log]. unfold dir_set.
    now rewrite String.eqb_refl. }
  split; [|split; [exact Hl | reflexivity]].
  apply (log_event_rec_fresh k cfg _ s Ho Hl Hb).
Qed.

Lemma rotate_depth_irrelevant k cfg st :
  rotate_log_file_with (log_event_rec (S k) cfg) cfg st
  = rotate_log_file_with (log_event_rec 1 cfg) cfg st.
Proof.
  unfold rotate_log_file_with.
  set (d := rename LOG_FILE _ _).
  assert (Hd : d LOG_FILE = None) by apply rename_log_gone, gen0_not_log.
  destruct (rotate_body_result k cfg d st Hd) as (Ek & _ & _).
  destruct (rotate_body_result 0 cfg d st Hd) as (E0 & _ & _).
  destruct (log_file st); [reflexivity| |]; rewrite Ek, E0; reflexivity.
Qed.

(** A rotation leaves an open log file that holds the one line saying
    so: far below the size limit, so that no second rotation follows. *)
Lemma rotate_log_file_fresh_log cfg st :
  log_file st <> Null ->
  log_file (rotate_log_file cfg st) = Open
  /\ log_lines (rotate_log_file cfg st)
     = ["[INFO] Log file rotated successfully"].
Proof.
  intros Hn. unfold rotate_log_file, log_event, rotate_log_file_with.
  set (d := rename LOG_FILE _ _).
  assert (Hd : d LOG_FILE = None) by apply rename_log_gone, gen0_not_log.
  destruct (rotate_body_result 1 cfg d st Hd) as (E & Hl & _).
  destruct (log_file st); [now destruct Hn| |]; rewrite E;
    unfold append_line; cbn [log_file with_log];
    (split; [reflexivity|]);
    unfold log_lines at 1; cbn [files with_log]; unfold dir_set at 1;
    now rewrite String.eqb_refl, Hl.
Qed.

(** Every depth from two on gives the result of [log_event]. *)
Lemma log_event_rec_stable k cfg m st :
  log_event_rec (S (S k)) cfg m st = log_event cfg m st.
Proof.
  unfold log_event.
  rewrite (log_event_rec_S (S k)), (log_event_rec_S 1).
  destruct (log_file st); [reflexivity | | reflexivity].
  destruct (mode cfg); [reflexivity | | reflexivity].
  cbv zeta.
  destruct (log_size _ >? _); [|reflexivity].
  apply rotate_depth_irrelevant.
Qed.
(** A rotation, step by step: the generations are shifted, the log is
    renamed to the generation 0 and compressed if compression is on,
    and a new log is opened with the line that reports the rotation. *)
Lemma rotate_log_file_steps cfg st :
  log_file st <> Null ->
  let d1 := rename LOG_FILE (snprintf MAX_PATH_LEN (LOG_FILE ++ ".0"))
                   (shift_generations (MAX_LOG_FILES - 1) (files st)) in
  let st2 :=
    if enable_compression cfg
    then compress_old_log_with (fun _ s => mark_undefined s)
           (snprintf MAX_PATH_LEN (LOG_FILE ++ ".0")) (with_log Stale d1 st)
    else with_log Stale d1 st in
  rotate_log_file cfg st
  = append_line "[INFO] Log file rotated successfully"
      (with_log Open (dir_set (files st2) LOG_FILE (Some [])) st2)
  /\ files st2 LOG_FILE = None.
Proof.
  intros Hn d1 st2.
  assert (Hd : d1 LOG_FILE = None) by apply rename_log_gone, gen0_not_log.
  destruct (rotate_body_result 1 cfg d1 st Hd) as (E & _ & H2).
  fold st2 in E, H2. rewrite H2 in E. split; [|exact H2].
  unfold rotate_log_file, log_event, rotate_log_file_with. fold d1.
  destruct (log_file st); [now destruct Hn | exact E | exact E].
Qed.


End LogDepth.

(** *** The shifting loop of [rotate_log_file] *)

Section Shifting.

Import UnifiedC.

Lemma generation_inj i j :
  (i <= 9)%nat -> (j <= 9)%nat -> generation i = generation j -> i = j.
Proof.
  intros Hi Hj H.
  do 10 (destruct i as [|i];
         [ do 10 (destruct j as [|j];
                  [ try reflexivity; vm_compute in H; discriminate | ]);
           exfalso; lia | ]).
  exfalso; lia.
Qed.

Lemma generation_not_log i : (i <= 9)%nat -> generation i <> LOG_FILE.
Proof.
  intros Hi H.
  do 10 (destruct i as [|i]; [vm_compute in H; discriminate|]).
  lia.
Qed.

Lemma shift_generations_S j d :
  shift_generations (S j) d
  = shift_generations j
      (match d (generation j) with
       | Some _ =>
           if Nat.eqb (S j) (MAX_LOG_FILES - 1) then unlink (generation j) d
           else rename (generation j) (generation (S j)) d
       | None => d
       end).
Proof.
  cbn [shift_generations]. replace (S j - 1)%nat with j by lia. reflexivity.
Qed.

Lemma dir_set_same d n c : dir_set d n c n = c.
Proof. unfold dir_set. now rewrite String.eqb_refl. Qed.

Lemma dir_set_other d n c m : m <> n -> dir_set d n c m = d m.
Proof.
  intros H. unfold dir_set. apply String.eqb_neq in H. now rewrite H.
Qed.

(** Entered below the last slot, with the slot [i] free, the loop moves
    each generation [k < i] to [k + 1], frees the slot 0 and touches no
    other file. *)
Lemma shift_generations_moves i :
  (i <= 8)%nat ->
  forall d,
    d (generation i) = None ->
    (forall k, (k < i)%nat ->
               shift_generations i d (generation (S k)) = d (generation k))
    /\ ((0 < i)%nat -> shift_generations i d (generation 0) = None)
    /\ (forall n, (forall k, (k <= i)%nat -> n <> generation k) ->
                  shift_generations i d n = d n).
Proof.
  induction i as [|j IH]; intros Hi d Hfree.
  - split; [intros k Hk; lia|]. split; [lia|]. reflexivity.
  - rewrite shift_generations_S.
    assert (E : Nat.eqb (S j) (MAX_LOG_FILES - 1) = false)
      by (apply Nat.eqb_neq; unfold MAX_LOG_FILES; lia).
    rewrite E.
    set (d' := match d (generation j) with
               | Some _ => rename (generation j) (generation (S j)) d
               | None => d
               end).
    assert (Hne : generation (S j) <> generation j)
      by (intros H; apply generation_inj in H; lia).
    assert (A : d' (generation (S j)) = d (generation j)).
    { unfold d', rename. destruct (d (generation j)) eqn:Ej; [|exact Hfree].
      rewrite dir_set_other by exact Hne. apply dir_set_same. }
    assert (B : d' (generation j) = None).
    { unfold d', rename. destruct (d (generation j)) eqn:Ej; [|exact Ej].
      apply dir_set_same. }
    assert (C : forall n, n <> generation j -> n <> generation (S j) ->
                          d' n = d n).
    { intros n H1 H2. unfold d', rename.
      destruct (d (generation j)); [|reflexivity].
      now rewrite !dir_set_other. }
    destruct (IH ltac:(lia) d' B) as (I1 & I2 & I3).
    split; [|split].
    + intros k Hk. destruct (Nat.eq_dec k j) as [->|Hkj].
      * rewrite I3; [exact A|].
        intros k' Hk' H. apply generation_inj in H; lia.
      * rewrite I1 by lia. apply C; intros H; apply generation_inj in H; lia.
    + intros _. destruct j as [|j'].
      * exact B.
      * apply I2. lia.
    + intros n Hn. rewrite I3.
      * apply C; apply Hn; lia.
      * intros k Hk. apply Hn. lia.
Qed.

(** The whole loop: the generation in the slot 8 is unlinked, every
    other one moves up by one, and nothing else changes. *)
Lemma shift_generations_all d :
  let r := shift_generations (MAX_LOG_FILES - 1) d in
  (forall k, (k < 8)%nat -> r (generation (S k)) = d (generation k))
  /\ r (generation 0) = None
  /\ (forall n, (forall k, (k <= 8)%nat -> n <> generation k) -> r n = d n).
Proof.
  change (MAX_LOG_FILES - 1)%nat with 9%nat. cbv zeta.
  rewrite shift_generations_S.
  change (Nat.eqb 9 (MAX_LOG_FILES - 1)) with true. cbv iota.
  set (d9 := match d (generation 8) with
             | Some _ => unlink (generation 8) d
             | None => d
             end).
  assert (B : d9 (generation 8) = None).
  { unfold d9, unlink. destruct (d (generation 8)) eqn:E; [|exact E].
    apply dir_set_same. }
  assert (C : forall n, n <> generation 8 -> d9 n = d n).
  { intros n H. unfold d9, unlink. destruct (d (generation 8)); [|reflexivity].
    now apply dir_set_other. }
  destruct (shift_generations_moves 8 ltac:(lia) d9 B) as (I1 & I2 & I3).
  split; [|split].
  - intros k Hk. rewrite I1 by exact Hk. apply C.
    intros H. apply generation_inj in H; lia.
  - apply I2. lia.
  - intros n Hn. rewrite I3 by exact Hn. apply C. apply Hn. lia.
Qed.

(** Without compression a rotation is the one the specification
    describes, with nine retained generations: the log becomes the
    generation 0, each generation [k < 8] becomes [k + 1], the one in
    the slot 8 is gone, no generation 9 is made, and the new log holds
    the line that reports the rotation. *)
Lemma rotate_log_file_plain cfg st :
  enable_compression cfg = false ->
  log_file st <> Null ->
  let d := files st in
  let d' := files (rotate_log_file cfg st) in
  d' (generation 0) = d LOG_FILE
  /\ (forall k, (k < 8)%nat -> d' (generation (S k)) = d (generation k))
  /\ d' (generation 9) = d (generation 9)
  /\ d' LOG_FILE = Some ["[INFO] Log file rotated successfully"].
Proof.
  intros Hc Hn d d'. subst d d'.
  assert (Hlast : files (rotate_log_file cfg st) LOG_FILE
                  = Some ["[INFO] Log file rotated successfully"]).
  { destruct (rotate_log_file_fresh_log cfg st Hn) as [_ Hlines].
    unfold log_lines in Hlines.
    destruct (files (rotate_log_file cfg st) LOG_FILE) as [l|] eqn:El.
    - now rewrite Hlines.
    - discriminate. }
  revert Hlast.
  destruct (shift_generations_all (files st)) as (S1 & S2 & S3).
  unfold rotate_log_file, log_event, rotate_log_file_with.
  set (ds := shift_generations (MAX_LOG_FILES - 1) (files st)) in *.
  set (d1 := rename LOG_FILE _ ds).
  assert (Hd : d1 LOG_FILE = None) by apply rename_log_gone, gen0_not_log.
  destruct (rotate_body_result 1 cfg d1 st Hd) as [E Hl].
  rewrite Hc in E. cbv beta iota in E.
  assert (G0 : snprintf MAX_PATH_LEN (LOG_FILE ++ ".0") = generation 0)
    by (vm_compute; reflexivity).
  assert (Hlog : ds LOG_FILE = files st LOG_FILE).
  { apply S3. intros k Hk H. symmetry in H.
    apply generation_not_log in H; [exact H | lia]. }
  assert (Hfiles :
            forall n, n <> LOG_FILE ->
                      files (rotate_log_file_with (log_event_rec 2 cfg) cfg st) n
                      = d1 n).
  { intros n Hne. unfold rotate_log_file_with.
    fold ds. fold d1.
    destruct (log_file st); [now destruct Hn| |]; rewrite Hc; cbv iota;
      rewrite E; unfold append_line; cbn [log_file with_log files];
      rewrite Hd; now rewrite !dir_set_other. }
  assert (Hd1 : forall n, n <> LOG_FILE -> n <> generation 0 -> d1 n = ds n).
  { intros n H1 H2. unfold d1, rename. rewrite G0.
    destruct (ds LOG_FILE); [|reflexivity]. now rewrite !dir_set_other. }
  assert (Hg : forall k, (k <= 9)%nat -> generation k <> LOG_FILE)
    by (intros k Hk; now apply generation_not_log).
  change (rotate_log_file_with (log_event_rec 2 cfg) cfg st)
    with (rotate_log_file cfg st) in Hfiles.
  fold (rotate_log_file cfg st).
  intros Hlast.
  split; [|split; [|split]].
  - rewrite Hfiles by (apply Hg; lia). unfold d1, rename. rewrite G0, Hlog.
    destruct (files st LOG_FILE) eqn:El.
    + rewrite dir_set_other by (apply Hg; lia). apply dir_set_same.
    + rewrite <- Hlog in El. rewrite S2. reflexivity.
  - intros k Hk. rewrite Hfiles by (apply Hg; lia).
    rewrite Hd1; [now apply S1 | apply Hg; lia |].
    intros H. apply generation_inj in H; lia.
  - rewrite Hfiles by (apply Hg; lia).
    rewrite Hd1; [| apply Hg; lia | intros H; apply generation_inj in H; lia].
    apply S3. intros k Hk H. apply generation_inj in H; lia.
  - exact Hlast.
Qed.

(** With compression on, a rotation that finds the log file in the
    directory calls [log_event] on the stream it has closed; no other
    rotation writes through a closed stream. *)
Lemma rotate_log_file_undefined cfg st :
  log_file st <> Null ->
  undefined (rotate_log_file cfg st)
  = undefined st || (enable_compression cfg && not_null (files st LOG_FILE)).
Proof.
  intros Hn.
  destruct (shift_generations_all (files st)) as (S1 & S2 & S3).
  destruct (rotate_log_file_steps cfg st Hn) as [E _].
  cbv zeta in E, S1, S2, S3. rewrite E. clear E.
  assert (G0 : snprintf MAX_PATH_LEN (LOG_FILE ++ ".0") = generation 0)
    by (vm_compute; reflexivity).
  rewrite G0.
  set (ds := shift_generations (MAX_LOG_FILES - 1) (files st)) in *.
  set (d1 := rename LOG_FILE (generation 0) ds).
  assert (Hlog : ds LOG_FILE = files st LOG_FILE).
  { apply S3. intros k Hk H. symmetry in H.
    apply generation_not_log in H; [exact H | lia]. }
  assert (Hd1 : d1 (generation 0) = files st LOG_FILE).
  { unfold d1, rename. rewrite Hlog.
    destruct (files st LOG_FILE) eqn:El; [|exact S2].
    rewrite dir_set_other by (apply generation_not_log; lia).
    apply dir_set_same. }
  unfold append_line. cbn [log_file with_log undefined].
  destruct (enable_compression cfg); cbn [andb];
    [|cbn [with_log undefined]; now rewrite orb_false_r].
  unfold compress_old_log_with. cbn [files with_log log_file]. rewrite Hd1.
  destruct (files st LOG_FILE); cbn [not_null].
  - cbn [mark_undefined undefined]. now rewrite orb_true_r.
  - cbn [with_log undefined]. now rewrite orb_false_r.
Qed.

End Shifting.

(* ================================================================= *)
(** ** Self-exclusion in main.c and advanced_monitor.c *)

Lemma main_self_excluded_marker (name stem rest marker : string) :
  marker = ".tmp" \/ marker = ".swp" ->
  name = stem ++ marker ++ rest ->
  MainC.self_excluded name = true.
Proof.
  intros Hm Hn. unfold MainC.self_excluded.
  destruct Hm as [-> | ->].
  - assert (H : not_null (strstr name ".tmp") = true)
      by (apply strstr_iff; now exists stem, rest).
    rewrite H. now rewrite !orb_true_r.
  - assert (H : not_null (strstr name ".swp") = true)
      by (apply strstr_iff; now exists stem, rest).
    rewrite H. now rewrite !orb_true_r.
Qed.

Lemma advanced_self_excluded_marker (name stem rest marker : string) :
  marker = ".tmp" \/ marker = ".swp" ->
  name = stem ++ marker ++ rest ->
  AdvancedC.self_excluded name = true.
Proof.
  intros Hm Hn. unfold AdvancedC.self_excluded.
  destruct Hm as [-> | ->].
  - assert (H : not_null (strstr name ".tmp") = true)
      by (apply strstr_iff; now exists stem, rest).
    rewrite H. now rewrite !orb_true_r.
  - assert (H : not_null (strstr name ".swp") = true)
      by (apply strstr_iff; now exists stem, rest).
    rewrite H. now rewrite !orb_true_r.
Qed.

Lemma main_handle_event_excluded fuel os cfg ev watch_path st :
  MainC.self_excluded (ev_name ev) = true ->
  MainC.handle_event fuel os cfg ev watch_path st = st.
Proof.
  intros H. unfold MainC.handle_event. rewrite H.
  now destruct (ev_len ev =? 0).
Qed.

Lemma advanced_handle_event_excluded fuel os cfg ev watch_path st :
  AdvancedC.self_excluded (ev_name ev) = true ->
  AdvancedC.handle_event fuel os cfg ev watch_path st = st.
Proof.
  intros H. unfold AdvancedC.handle_event. rewrite H.
  now destruct (ev_len ev =? 0).
Qed.

(** In [advanced_monitor.c] an event named after the monitor's own log,
    configuration or statistics file changes nothing, whatever the
    extensions and pattern rules are. *)
Lemma advanced_own_files_dropped fuel os cfg ev watch_path st :
  ev_name ev = AdvancedC.LOG_FILE \/ ev_name ev = AdvancedC.CONFIG_FILE
  \/ ev_name ev = AdvancedC.STATS_FILE ->
  AdvancedC.handle_event fuel os cfg ev watch_path st = st.
Proof.
  intros H. apply advanced_handle_event_excluded.
  destruct H as [-> | [-> | ->]]; reflexivity.
Qed.

(** In [main.c] an event named after the monitor's own log or
    configuration file changes nothing. *)
Lemma main_own_files_dropped fuel os cfg ev watch_path st :
  ev_name ev = MainC.LOG_FILE \/ ev_name ev = MainC.CONFIG_FILE ->
  MainC.handle_event fuel os cfg ev watch_path st = st.
Proof.
  intros H. apply main_handle_event_excluded.
  destruct H as [-> | ->]; reflexivity.
Qed.

(** C10.  In [main.c] and [advanced_monitor.c], an event whose name
    contains [.tmp] or [.swp] anywhere, not only at its end, leaves the
    whole state as it was (no log line, no console line, no cache entry,
    no counter), for every configuration of extensions and pattern
    rules: the name is dropped before any of them is looked at. *)
Theorem C10_marker_anywhere_is_dropped :
  forall (fuel : nat) (os : os_env) (ev : inotify_event)
         (watch_path stem rest marker : string),
    marker = ".tmp" \/ marker = ".swp" ->
    ev_name ev = stem ++ marker ++ rest ->
    (forall cfg st, MainC.handle_event fuel os cfg ev watch_path st = st)
    /\ (forall cfg st, AdvancedC.handle_event fuel os cfg ev watch_path st = st).
Proof.
  intros fuel os ev watch_path stem rest marker Hm Hn. split; intros cfg st.
  - apply main_handle_event_excluded.
    now apply (main_self_excluded_marker _ stem rest marker).
  - apply advanced_handle_event_excluded.
    now apply (advanced_self_excluded_marker _ stem rest marker).
Qed.

(** [a.tmp.txt] is created while [txt] is on the allow-list, and
    [x.swpfile] likewise: nothing is logged. *)
Lemma C10_witness :
  MainC.handle_event 1 ex_os ex_main_cfg (mkEvent 1 IN_CREATE 16 "a.tmp.txt")
                     "/srv" ex_main_state = ex_main_state
  /\ AdvancedC.handle_event 1 ex_os ex_adv_cfg (mkEvent 1 IN_CREATE 16 "x.swpfile")
                            "/srv" ex_adv_state = ex_adv_state
  /\ MainC.should_monitor_file ex_main_cfg "a.tmp.txt" = true.
Proof.
  split; [|split].
  - apply (C10_marker_anywhere_is_dropped 1 ex_os
             (mkEvent 1 IN_CREATE 16 "a.tmp.txt") "/srv" "a" ".txt" ".tmp").
    + left; reflexivity.
    + reflexivity.
  - apply (C10_marker_anywhere_is_dropped 1 ex_os
             (mkEvent 1 IN_CREATE 16 "x.swpfile") "/srv" "x" "file" ".swp").
    + right; reflexivity.
    + reflexivity.
  - reflexivity.
Defined.

(* ================================================================= *)
(** ** The pattern rules of advanced_monitor.c *)

Lemma match_patterns_loop_skip rules r post filename st :
  (forall q, In q rules -> AdvancedC.compiled_regex q filename = false) ->
  AdvancedC.match_patterns_loop (rules ++ r :: post) filename st
  = AdvancedC.match_patterns_loop (r :: post) filename st.
Proof.
  induction rules as [|q rules IH]; intros H; [reflexivity|].
  simpl app. cbn [AdvancedC.match_patterns_loop].
  rewrite (H q (or_introl eq_refl)).
  apply IH. intros q' Hq'. apply H. now right.
Qed.

Lemma match_patterns_loop_none rules filename st :
  (forall q, In q rules -> AdvancedC.compiled_regex q filename = false) ->
  AdvancedC.match_patterns_loop rules filename st = (true, st).
Proof.
  induction rules as [|q rules IH]; intros H; [reflexivity|].
  cbn [AdvancedC.match_patterns_loop].
  rewrite (H q (or_introl eq_refl)).
  apply IH. intros q' Hq'. apply H. now right.
Qed.

Lemma match_patterns_is_loop cfg filename st :
  AdvancedC.match_patterns cfg filename st
  = AdvancedC.match_patterns_loop (AdvancedC.patterns cfg) filename st.
Proof.
  unfold AdvancedC.match_patterns.
  destruct (AdvancedC.patterns cfg); reflexivity.
Qed.

(** C2, as the code has it.  [match_patterns] accepts every name when
    there is no rule and when no rule matches.  Otherwise the first rule
    that matches decides at once, and nothing after it is looked at: an
    exclude rule rejects, an include rule accepts, and an alert rule
    writes its notice and accepts. *)
Theorem C2_first_matching_rule_decides :
  forall (cfg : AdvancedC.config) (filename : string) (st : AdvancedC.state),
    (AdvancedC.patterns cfg = [] ->
     AdvancedC.match_patterns cfg filename st = (true, st))
    /\ ((forall q, In q (AdvancedC.patterns cfg) ->
                   AdvancedC.compiled_regex q filename = false) ->
        AdvancedC.match_patterns cfg filename st = (true, st))
    /\ (forall pre r post,
          AdvancedC.patterns cfg = (pre ++ r :: post)%list ->
          (forall q, In q pre -> AdvancedC.compiled_regex q filename = false) ->
          AdvancedC.compiled_regex r filename = true ->
          (AdvancedC.action r = 0 ->
           AdvancedC.match_patterns cfg filename st = (false, st))
          /\ (AdvancedC.action r = 1 ->
              AdvancedC.match_patterns cfg filename st = (true, st))
          /\ (AdvancedC.action r = 2 ->
              AdvancedC.match_patterns cfg filename st
              = (true, AdvancedC.log_event (alert_notice r filename) st))).
Proof.
  intros cfg filename st. split; [|split].
  - intros H. unfold AdvancedC.match_patterns. now rewrite H.
  - intros H. rewrite match_patterns_is_loop.
    now apply match_patterns_loop_none.
  - intros pre r post Hp Hpre Hr.
    rewrite match_patterns_is_loop, Hp, match_patterns_loop_skip by exact Hpre.
    cbn [AdvancedC.match_patterns_loop]. rewrite Hr.
    split; [|split]; intros Ha; rewrite Ha; reflexivity.
Qed.

(** With the rules [alert secret; exclude bak], the name [secret.bak]
    is accepted by the code, with one notice, where the first exclude
    match would have rejected it had the alert fallen through. *)
Lemma C2_counterexample :
  AdvancedC.match_patterns ex_adv_cfg "secret.bak" ex_adv_state
  = (true, AdvancedC.log_event (alert_notice ex_alert_rule "secret.bak")
                               ex_adv_state)
  /\ spec_pattern_layer (AdvancedC.patterns ex_adv_cfg) "secret.bak" = false
  /\ fst (AdvancedC.match_patterns ex_adv_cfg "secret.bak" ex_adv_state)
     <> spec_pattern_layer (AdvancedC.patterns ex_adv_cfg) "secret.bak".
Proof.
  split; [|split].
  - vm_compute. reflexivity.
  - vm_compute. reflexivity.
  - vm_compute. discriminate.
Qed.

Lemma C2_witness :
  AdvancedC.match_patterns ex_adv_cfg "secret.bak" ex_adv_state
  = (true, AdvancedC.log_event (alert_notice ex_alert_rule "secret.bak")
                               ex_adv_state)
  /\ AdvancedC.match_patterns ex_adv_cfg "old.bak" ex_adv_state
     = (false, ex_adv_state).
Proof.
  split.
  - destruct (C2_first_matching_rule_decides ex_adv_cfg "secret.bak" ex_adv_state)
      as (_ & _ & H).
    apply (H [] ex_alert_rule [ex_exclude_rule]).
    + reflexivity.
    + intros q [].
    + reflexivity.
    + reflexivity.
  - destruct (C2_first_matching_rule_decides ex_adv_cfg "old.bak" ex_adv_state)
      as (_ & _ & H).
    apply (H [ex_alert_rule] ex_exclude_rule []).
    + reflexivity.
    + intros q [<- | []]. reflexivity.
    + reflexivity.
    + reflexivity.
Defined.

(* ================================================================= *)
(** ** The event handlers of monitor.c *)

Section UnifiedHandlers.

Import UnifiedC.

Lemma handle_event_basic_rejected fuel os cfg ev watch_path st :
  ev_len ev > 0 ->
  should_monitor_file cfg (ev_name ev) = false ->
  handle_event_basic fuel os cfg ev watch_path st = bump_total_events st.
Proof.
  intros Hlen Hrej. unfold handle_event_basic.
  assert (E : (ev_len ev >? 0) = true) by (apply Z.gtb_lt; lia).
  cbv zeta. rewrite E, Hrej. reflexivity.
Qed.

Lemma handle_event_enhanced_rejected fuel os cfg ev st i e :
  ev_len ev > 0 ->
  should_monitor_file cfg (ev_name ev) = false ->
  find_watch_by_wd (ev_wd ev) (wm_entries st) = Some (i, e) ->
  handle_event_enhanced fuel os cfg ev st = count_event i e st.
Proof.
  intros Hlen Hrej Hfind. unfold handle_event_enhanced.
  assert (E : (ev_len ev >? 0) = true) by (apply Z.gtb_lt; lia).
  rewrite Hfind. cbv zeta. rewrite E, Hrej. reflexivity.
Qed.

Lemma handle_event_advanced_rejected fuel os cfg ev watch_path st :
  ev_len ev > 0 ->
  should_monitor_file cfg (ev_name ev) = false ->
  handle_event_advanced fuel os cfg ev watch_path st = bump_total_events st.
Proof.
  intros Hlen Hrej. unfold handle_event_advanced.
  assert (E : (ev_len ev >? 0) = true) by (apply Z.gtb_lt; lia).
  cbv zeta. rewrite E, Hrej. reflexivity.
Qed.

Lemma count_event_cache i e st :
  file_hashes (count_event i e st) = file_hashes st
  /\ hash_capacity (count_event i e st) = hash_capacity st.
Proof.
  unfold count_event. cbv zeta.
  match goal with |- context [if ?c then _ else _] => destruct c end;
    split; reflexivity.
Qed.

Lemma count_event_spec i e st :
  let st' := count_event i e st in
  log_file st' = log_file st /\ files st' = files st
  /\ watches st' = watches st /\ file_hashes st' = file_hashes st
  /\ total_events (stats st') = wrap64 (total_events (stats st) + 1)
  /\ wm_entries st'
     = update_nth i (mkWatch (wd e) (path e) (added_time e)
                             (wrap64 (event_count e + 1)))
                  (wm_entries st)
  /\ max_events_per_path (stats st')
     = Z.max (max_events_per_path (stats st)) (wrap64 (event_count e + 1)).
Proof.
  unfold count_event. cbv zeta.
  cbn [event_count stats with_wm bump_total_events with_stats
       max_events_per_path].
  destruct (wrap64 (event_count e + 1) >? max_events_per_path (stats st)) eqn:E.
  - apply Z.gtb_lt in E. repeat split. cbn. lia.
  - assert (wrap64 (event_count e + 1) <= max_events_per_path (stats st)).
    { destruct (Z.gtb_spec (wrap64 (event_count e + 1))
                           (max_events_per_path (stats st))); [discriminate|lia]. }
    repeat split. cbn. lia.
Qed.

End UnifiedHandlers.

(** C3, as the code has it.  In [monitor.c] an event whose name the
    filter rejects writes no log line, touches neither the log stream
    nor any file of the working directory, and leaves the checksum cache
    and the basic watch arrays alone, in each of the three handlers; but
    it is counted first: the basic and the advanced handler have already
    incremented [total_events], and the enhanced handler has also
    incremented the event count of the watch and brought the
    most-active-path maximum up to it.  So it is for the event loop in
    every mode, when the watch of the event is found in the table of
    the mode; an event of a watch that is not found is not counted and
    leaves the cache alone as well: it changes nothing in the basic and
    the advanced mode, and is answered with a warning in the enhanced
    one. *)
Theorem C3_rejected_event_is_counted_but_not_logged :
  forall (fuel : nat) (os : os_env) (cfg : UnifiedC.config)
         (ev : inotify_event) (st : UnifiedC.state),
    ev_len ev > 0 ->
    UnifiedC.should_monitor_file cfg (ev_name ev) = false ->
    (forall watch_path,
       let st' := UnifiedC.handle_event_basic fuel os cfg ev watch_path st in
       st' = UnifiedC.bump_total_events st
       /\ UnifiedC.log_file st' = UnifiedC.log_file st
       /\ UnifiedC.files st' = UnifiedC.files st
       /\ UnifiedC.file_hashes st' = UnifiedC.file_hashes st
       /\ UnifiedC.watches st' = UnifiedC.watches st
       /\ UnifiedC.total_events (UnifiedC.stats st')
          = wrap64 (UnifiedC.total_events (UnifiedC.stats st) + 1))
    /\ (forall i e,
          UnifiedC.find_watch_by_wd (ev_wd ev) (UnifiedC.wm_entries st)
          = Some (i, e) ->
          let st' := UnifiedC.handle_event_enhanced fuel os cfg ev st in
          UnifiedC.log_file st' = UnifiedC.log_file st
          /\ UnifiedC.files st' = UnifiedC.files st
          /\ UnifiedC.file_hashes st' = UnifiedC.file_hashes st
          /\ UnifiedC.total_events (UnifiedC.stats st')
             = wrap64 (UnifiedC.total_events (UnifiedC.stats st) + 1)
          /\ UnifiedC.wm_entries st'
             = UnifiedC.update_nth i
                 (UnifiedC.mkWatch (UnifiedC.wd e) (UnifiedC.path e)
                                   (UnifiedC.added_time e)
                                   (wrap64 (UnifiedC.event_count e + 1)))
                 (UnifiedC.wm_entries st)
          /\ UnifiedC.max_events_per_path (UnifiedC.stats st')
             = Z.max (UnifiedC.max_events_per_path (UnifiedC.stats st))
                     (wrap64 (UnifiedC.event_count e + 1)))
    /\ (forall watch_path,
          let st' := UnifiedC.handle_event_advanced fuel os cfg ev watch_path st in
          st' = UnifiedC.bump_total_events st
          /\ UnifiedC.log_file st' = UnifiedC.log_file st
          /\ UnifiedC.files st' = UnifiedC.files st
          /\ UnifiedC.file_hashes st' = UnifiedC.file_hashes st
          /\ UnifiedC.hash_capacity st' = UnifiedC.hash_capacity st
          /\ UnifiedC.watches st' = UnifiedC.watches st
          /\ UnifiedC.total_events (UnifiedC.stats st')
             = wrap64 (UnifiedC.total_events (UnifiedC.stats st) + 1))
    /\ (let st' := UnifiedC.dispatch fuel os cfg ev st in
        UnifiedC.file_hashes st' = UnifiedC.file_hashes st
        /\ UnifiedC.hash_capacity st' = UnifiedC.hash_capacity st
        /\ (unified_known cfg ev st = true ->
            UnifiedC.log_file st' = UnifiedC.log_file st
            /\ UnifiedC.files st' = UnifiedC.files st
            /\ UnifiedC.total_events (UnifiedC.stats st')
               = wrap64 (UnifiedC.total_events (UnifiedC.stats st) + 1))
        /\ (unified_known cfg ev st = false ->
            UnifiedC.total_events (UnifiedC.stats st')
            = UnifiedC.total_events (UnifiedC.stats st)
            /\ (UnifiedC.mode cfg <> UnifiedC.MODE_ENHANCED -> st' = st)
            /\ (UnifiedC.mode cfg = UnifiedC.MODE_ENHANCED ->
                st' = UnifiedC.log_event cfg
                        "[WARN] Event from unknown watch descriptor" st))).
Proof.
  intros fuel os cfg ev st Hlen Hrej. split; [|split; [|split]].
  - intros watch_path st'. subst st'.
    rewrite handle_event_basic_rejected by assumption.
    repeat split.
  - intros i e Hfind st'. subst st'.
    rewrite (handle_event_enhanced_rejected fuel os cfg ev st i e) by assumption.
    destruct (count_event_spec i e st) as (H1 & H2 & _ & H4 & H5 & H6 & H7).
    repeat split; assumption.
  - intros watch_path st'. subst st'.
    rewrite handle_event_advanced_rejected by assumption.
    repeat split.
  - cbv zeta. unfold UnifiedC.dispatch, unified_known.
    destruct (UnifiedC.mode cfg) eqn:Hmode.
    + destruct (UnifiedC.find_watch_path (ev_wd ev) (UnifiedC.watches st));
        cbn [not_null].
      * rewrite handle_event_basic_rejected by assumption.
        repeat split; discriminate.
      * repeat split; discriminate.
    + destruct (UnifiedC.find_watch_path (ev_wd ev) (UnifiedC.watches st));
        cbn [not_null].
      * rewrite handle_event_advanced_rejected by assumption.
        repeat split; discriminate.
      * repeat split; discriminate.
    + destruct (UnifiedC.find_watch_by_wd (ev_wd ev) (UnifiedC.wm_entries st))
        as [[i e]|] eqn:Hfind; cbn [not_null].
      * rewrite (handle_event_enhanced_rejected fuel os cfg ev st i e)
          by assumption.
        destruct (count_event_spec i e st) as (H1 & H2 & _ & _ & H5 & _).
        destruct (count_event_cache i e st) as (C1 & C2).
        repeat split; try assumption; discriminate.
      * unfold UnifiedC.handle_event_enhanced. rewrite Hfind.
        destruct (log_event_frame cfg
                    "[WARN] Event from unknown watch descriptor" st)
          as (_ & _ & _ & F4 & F5 & F6).
        repeat split; try assumption; try discriminate.
        -- now rewrite F6.
        -- intros Hne. now destruct Hne.
Qed.

(** [notes.log] is rejected by the allow-list [txt], and the basic
    handler still moves [total_events] from 0 to 1. *)
Lemma C3_counterexample :
  UnifiedC.should_monitor_file ex_basic_cfg (ev_name ex_rejected_event) = false
  /\ UnifiedC.total_events (UnifiedC.stats ex_unified_state) = 0
  /\ UnifiedC.total_events
       (UnifiedC.stats
          (UnifiedC.handle_event_basic 1 ex_os ex_basic_cfg ex_rejected_event
                                       "/srv" ex_unified_state)) = 1
  /\ UnifiedC.event_count
       (nth 0 (UnifiedC.wm_entries
                 (UnifiedC.handle_event_enhanced 1 ex_os ex_enhanced_cfg
                    ex_rejected_event ex_enhanced_state))
            (UnifiedC.mkWatch 0 "" 0 0)) = 1.
Proof. repeat split; vm_compute; reflexivity. Qed.

Lemma C3_witness :
  UnifiedC.handle_event_basic 1 ex_os ex_basic_cfg ex_rejected_event "/srv"
                              ex_unified_state
  = UnifiedC.bump_total_events ex_unified_state
  /\ UnifiedC.files
       (UnifiedC.handle_event_enhanced 1 ex_os ex_enhanced_cfg
                                       ex_rejected_event ex_enhanced_state)
     = UnifiedC.files ex_enhanced_state
  /\ UnifiedC.handle_event_advanced 1 ex_os ex_advanced_txt_cfg
                                    ex_rejected_event "/srv" ex_unified_state
     = UnifiedC.bump_total_events ex_unified_state
  /\ UnifiedC.file_hashes
       (UnifiedC.dispatch 1 ex_os ex_advanced_txt_cfg ex_rejected_event
                          ex_unified_state)
     = UnifiedC.file_hashes ex_unified_state
  /\ UnifiedC.total_events
       (UnifiedC.stats
          (UnifiedC.dispatch 1 ex_os ex_advanced_txt_cfg ex_rejected_event
                             ex_unified_state))
     = wrap64 (UnifiedC.total_events (UnifiedC.stats ex_unified_state) + 1).
Proof.
  split; [|split; [|split; [|split]]].
  - apply (C3_rejected_event_is_counted_but_not_logged 1 ex_os ex_basic_cfg
             ex_rejected_event ex_unified_state eq_refl eq_refl).
  - apply (proj1 (proj2 (C3_rejected_event_is_counted_but_not_logged 1 ex_os
                           ex_enhanced_cfg ex_rejected_event ex_enhanced_state
                           eq_refl eq_refl))
                 0%nat (UnifiedC.mkWatch 1 "/srv" 1700000000 0) eq_refl).
  - apply (proj1 (proj2 (proj2
             (C3_rejected_event_is_counted_but_not_logged 1 ex_os
                ex_advanced_txt_cfg ex_rejected_event ex_unified_state
                eq_refl eq_refl)))
             "/srv").
  - apply (proj2 (proj2 (proj2
             (C3_rejected_event_is_counted_but_not_logged 1 ex_os
                ex_advanced_txt_cfg ex_rejected_event ex_unified_state
                eq_refl eq_refl)))).
  - apply (proj2 (proj2 (proj2
             (C3_rejected_event_is_counted_but_not_logged 1 ex_os
                ex_advanced_txt_cfg ex_rejected_event ex_unified_state
                eq_refl eq_refl)))).
    reflexivity.
Defined.

(* ================================================================= *)
(** ** The queue-overflow marker *)

Lemma main_handle_event_no_name fuel os cfg ev watch_path st :
  ev_len ev = 0 -> MainC.handle_event fuel os cfg ev watch_path st = st.
Proof. intros H. unfold MainC.handle_event. now rewrite H. Qed.

Lemma unified_basic_no_name fuel os cfg ev watch_path st :
  ev_len ev = 0 ->
  UnifiedC.handle_event_basic fuel os cfg ev watch_path st
  = UnifiedC.bump_total_events st.
Proof. intros H. unfold UnifiedC.handle_event_basic. now rewrite H. Qed.

(** C4, as the code has it.  No program of the repository looks for
    [IN_Q_OVERFLOW].  The marker carries the descriptor -1 and no name:
    [main.c] leaves its whole state as it was, log file and console
    included; the basic mode of [monitor.c] writes nothing either and at
    most counts the event; the enhanced mode of [monitor.c], whose table
    holds no descriptor -1, writes the warning it writes for any event
    of an unknown watch, which does not tell an overflow apart. *)
Theorem C4_overflow_marker_is_not_reported :
  forall (fuel : nat) (os : os_env),
    (forall cfg st, MainC.dispatch fuel os cfg overflow_event st = st)
    /\ (forall cfg st,
          UnifiedC.mode cfg = UnifiedC.MODE_BASIC ->
          let st' := UnifiedC.dispatch fuel os cfg overflow_event st in
          UnifiedC.files st' = UnifiedC.files st
          /\ UnifiedC.log_file st' = UnifiedC.log_file st)
    /\ (forall cfg st,
          UnifiedC.mode cfg = UnifiedC.MODE_ENHANCED ->
          UnifiedC.find_watch_by_wd (-1) (UnifiedC.wm_entries st) = None ->
          UnifiedC.dispatch fuel os cfg overflow_event st
          = append_line "[WARN] Event from unknown watch descriptor" st).
Proof.
  intros fuel os. split; [|split].
  - intros cfg st. unfold MainC.dispatch.
    destruct (MainC.find_watch_path _ _); [|reflexivity].
    now apply main_handle_event_no_name.
  - intros cfg st Hm st'. subst st'. unfold UnifiedC.dispatch. rewrite Hm.
    destruct (UnifiedC.find_watch_path _ _); [|now split].
    rewrite unified_basic_no_name by reflexivity. now split.
  - intros cfg st Hm Hnone. unfold UnifiedC.dispatch. rewrite Hm.
    unfold UnifiedC.handle_event_enhanced.
    change (ev_wd overflow_event) with (-1). rewrite Hnone.
    apply log_event_plain. rewrite Hm. discriminate.
Qed.

(** The marker arrives while [/srv] is watched: [main.c] and the basic
    mode of [monitor.c] write nothing, and the enhanced mode writes only
    the unknown-watch warning. *)
Lemma C4_counterexample :
  MainC.dispatch 1 ex_os ex_main_cfg overflow_event ex_main_state
  = ex_main_state
  /\ UnifiedC.log_lines
       (UnifiedC.dispatch 1 ex_os ex_basic_cfg overflow_event ex_unified_state)
     = []
  /\ UnifiedC.log_lines
       (UnifiedC.dispatch 1 ex_os ex_enhanced_cfg overflow_event
                          ex_enhanced_state)
     = ["[WARN] Event from unknown watch descriptor"].
Proof. repeat split; vm_compute; reflexivity. Qed.

Lemma C4_witness :
  UnifiedC.files
    (UnifiedC.dispatch 1 ex_os ex_basic_cfg overflow_event ex_unified_state)
  = UnifiedC.files ex_unified_state
  /\ UnifiedC.dispatch 1 ex_os ex_enhanced_cfg overflow_event ex_enhanced_state
     = append_line "[WARN] Event from unknown watch descriptor"
                   ex_enhanced_state.
Proof.
  destruct (C4_overflow_marker_is_not_reported 1 ex_os) as (_ & Hb & He).
  split.
  - apply (Hb ex_basic_cfg ex_unified_state eq_refl).
  - apply (He ex_enhanced_cfg ex_enhanced_state eq_refl eq_refl).
Defined.

(* ================================================================= *)
(** ** Event kinds *)

Lemma has_flag_lor_disjoint (mask extra flag : Z) :
  Z.land extra flag = 0 ->
  has_flag (Z.lor mask extra) flag = has_flag mask flag.
Proof.
  intros H. unfold has_flag.
  now rewrite Z.land_lor_distr_l, H, Z.lor_0_r.
Qed.

(** No handler of [monitor.c] tests [IN_ATTRIB]: setting the flag in
    the mask of an event changes nothing of what the basic handler
    does. *)
Lemma unified_basic_ignores_attrib fuel os cfg w mask len name watch_path st :
  UnifiedC.handle_event_basic fuel os cfg
    (mkEvent w (Z.lor mask IN_ATTRIB) len name) watch_path st
  = UnifiedC.handle_event_basic fuel os cfg
      (mkEvent w mask len name) watch_path st.
Proof.
  unfold UnifiedC.handle_event_basic, UnifiedC.log_flags.
  cbn [ev_mask ev_len ev_name].
  rewrite !(has_flag_lor_disjoint mask IN_ATTRIB) by reflexivity.
  reflexivity.
Qed.

Lemma main_log_steps (mask : Z) (msg : string -> string)
    (kinds : list (Z * string)) :
  forall st lines,
    MainC.log_file st = Some lines ->
    MainC.log_file
      (fold_left (fun s k => if has_flag mask (fst k)
                             then MainC.log_event (msg (snd k)) s else s)
                 kinds st)
    = Some (lines ++ map (fun k => msg (snd k))
                         (filter (fun k => has_flag mask (fst k)) kinds))%list.
Proof.
  induction kinds as [|k kinds IH]; intros st lines Hlog; cbn [fold_left filter].
  - now rewrite app_nil_r.
  - destruct (has_flag mask (fst k)).
    + rewrite (IH _ (lines ++ [msg (snd k)])%list).
      * cbn [map]. now rewrite <- app_assoc.
      * cbn [MainC.log_event MainC.log_file]. now rewrite Hlog.
    + now apply IH.
Qed.

(** In [main.c] an event that survives the filters is logged with one
    line for each of its flags among the eight kinds, in the order of
    the tests (for a new directory in recursive mode the lines of the
    watch installer come in between, which is left out here). *)
Lemma main_handle_event_one_line_per_flag fuel os cfg ev watch_path st lines :
  ev_len ev <> 0 ->
  MainC.self_excluded (ev_name ev) = false ->
  MainC.should_monitor_file cfg (ev_name ev) = true ->
  MainC.recursive_mode cfg && has_flag (ev_mask ev) IN_ISDIR = false ->
  MainC.log_file st = Some lines ->
  MainC.log_file (MainC.handle_event fuel os cfg ev watch_path st)
  = Some (lines
          ++ map (fun k => snprintf 1024
                             (snd k ++ snprintf MAX_PATH_LEN
                                         (watch_path ++ "/" ++ ev_name ev)))
                 (filter (fun k => has_flag (ev_mask ev) (fst k))
                         main_event_kinds))%list.
Proof.
  intros Hlen Hself Hmon Hdir Hlog.
  rewrite <- (main_log_steps (ev_mask ev)
                (fun verb => snprintf 1024
                               (verb ++ snprintf MAX_PATH_LEN
                                          (watch_path ++ "/" ++ ev_name ev)))
                main_event_kinds st lines Hlog).
  unfold MainC.handle_event.
  apply Z.eqb_neq in Hlen. rewrite Hlen, Hself, Hmon, Hdir.
  reflexivity.
Qed.

(** C9 at the failing input.  The attributes of [/srv/notes.txt] change
    while [txt] is on the allow-list.  The event passes the filter and
    has the [IN_ATTRIB] flag set, which [add_watch_basic] asked the
    kernel for; the basic handler of [monitor.c] writes no line for it,
    where [handle_event] of [main.c] writes [Attribute changed]. *)
Theorem C9_attribute_change_unreported_in_monitor_c :
  UnifiedC.should_monitor_file ex_basic_cfg (ev_name ex_attrib_event) = true
  /\ has_flag (ev_mask ex_attrib_event) IN_ATTRIB = true
  /\ UnifiedC.log_lines
       (UnifiedC.handle_event_basic 1 ex_os ex_basic_cfg ex_attrib_event
                                    "/srv" ex_unified_state)
     = UnifiedC.log_lines ex_unified_state
  /\ MainC.log_file
       (MainC.handle_event 1 ex_os ex_main_cfg ex_attrib_event "/srv"
                           ex_main_state)
     = Some ["Attribute changed: /srv/notes.txt"].
Proof. repeat split; vm_compute; reflexivity. Qed.

(* ================================================================= *)
(** ** The monitor's own files in monitor.c *)

(** C6 at the failing input.  [monitor.c] runs in the advanced mode
    with no extension configured and writes to its log in the watched
    directory [/srv].  The handler does not know its own log file: it
    takes the digest of the log, finds the write to be a change and
    reports it, which is another write to the log.  A name with the
    marker [.tmp] is reported as well.  The handler of
    [advanced_monitor.c] drops the event about its own log. *)
Theorem C6_own_log_file_reported_in_monitor_c :
  ev_name ex_own_log_event = UnifiedC.LOG_FILE
  /\ UnifiedC.log_lines
       (UnifiedC.handle_event_advanced 1
          (ex_os_with_file "/srv/monitor.log" digest_a) ex_advanced_cfg
          ex_own_log_event "/srv" ex_unified_state)
     = ["Modified (checksum changed): /srv/monitor.log"]
  /\ UnifiedC.log_lines
       (UnifiedC.handle_event_advanced 1 ex_os ex_advanced_cfg
          (mkEvent 1 IN_CREATE 16 "draft.tmp") "/srv" ex_unified_state)
     = ["Created: /srv/draft.tmp"]
  /\ AdvancedC.handle_event 1
       (ex_os_with_file "/srv/advanced_monitor.log" digest_a) ex_adv_cfg
       (mkEvent 1 IN_MODIFY 32 AdvancedC.LOG_FILE) "/srv" ex_adv_state
     = ex_adv_state.
Proof. repeat split; vm_compute; reflexivity. Qed.

(* ================================================================= *)
(** ** Log rotation in monitor.c *)

(** Without compression the shifting loop does shift: the first
    generation moves from [.0] to [.1] and on to [.8] with the ninth
    rotation, the tenth discards it, and [.9] never exists. *)
Lemma plain_rotation_shifts :
  UnifiedC.files (ex_plain_rotations 1) "monitor.log.0"
  = Some ["first generation"; "next"]
  /\ UnifiedC.files (ex_plain_rotations 2) "monitor.log.1"
     = Some ["first generation"; "next"]
  /\ UnifiedC.files (ex_plain_rotations 9) "monitor.log.8"
     = Some ["first generation"; "next"]
  /\ UnifiedC.files (ex_plain_rotations 10) "monitor.log.9" = None
  /\ (forall name,
        UnifiedC.files (ex_plain_rotations 10) name
        <> Some ["first generation"; "next"]).
Proof.
  repeat split; try (vm_compute; reflexivity).
  intros name. vm_compute.
  repeat match goal with
         | |- (if ?c then _ else _) = _ -> False => destruct c
         end; discriminate.
Qed.

(** C8 at the failing input.  [monitor.c] always compresses.  The first
    rotation leaves the first generation in [monitor.log.0.gz] and
    removes [monitor.log.0]; the shifting loop of the second rotation
    looks for [monitor.log.0], finds nothing to shift, and the second
    generation is compressed over the first: after two rotations no file
    of the directory holds the first generation, and no generation
    [.1] exists. *)
Theorem C8_compressed_generation_overwritten :
  UnifiedC.enable_compression ex_advanced_cfg = true
  /\ UnifiedC.files ex_rotated_once "monitor.log.0.gz"
     = Some ["first generation"]
  /\ UnifiedC.files ex_rotated_once "monitor.log.0" = None
  /\ UnifiedC.files ex_rotated_twice "monitor.log.0.gz"
     = Some ["[INFO] Log file rotated successfully"; "second generation"]
  /\ UnifiedC.files ex_rotated_twice "monitor.log.1" = None
  /\ UnifiedC.files ex_rotated_twice "monitor.log.1.gz" = None
  /\ (forall name,
        UnifiedC.files ex_rotated_twice name <> Some ["first generation"]).
Proof.
  repeat split; try (vm_compute; reflexivity).
  intros name. vm_compute.
  repeat match goal with
         | |- (if ?c then _ else _) = _ -> False => destruct c
         end; discriminate.
Qed.

(* ================================================================= *)
(** ** The watch registry of monitor.c *)

Section Registry.

Import UnifiedC.

Lemma add_watch_dynamic_step os cfg p st :
  let st' := snd (add_watch_dynamic os cfg p st) in
  let full := Z.of_nat (List.length (wm_entries st)) >=? wm_capacity st in
  (full = false ->
   wm_capacity st' = wm_capacity st
   /\ memory_reallocations (stats st') = memory_reallocations (stats st))
  /\ (full = true -> os_realloc_ok os = true ->
      wm_capacity st' = wrap64 (wm_capacity st * WATCH_GROWTH_FACTOR)
      /\ memory_reallocations (stats st')
         = wrap64 (memory_reallocations (stats st) + 1))
  /\ (full = true -> os_realloc_ok os = false ->
      fst (add_watch_dynamic os cfg p st) = -1
      /\ wm_capacity st' = wm_capacity st
      /\ wm_entries st' = wm_entries st
      /\ memory_reallocations (stats st') = memory_reallocations (stats st)
      /\ watch_limit_hits (stats st')
         = wrap64 (watch_limit_hits (stats st) + 1)).
Proof.
  intros st' full. subst st' full. unfold add_watch_dynamic.
  destruct (Z.of_nat (List.length (wm_entries st)) >=? wm_capacity st) eqn:Hfull.
  - destruct (os_realloc_ok os) eqn:Hre; cbn [negb].
    + split; [discriminate|]. split; [|discriminate]. intros _ _.
      set (st1 := with_stats _ _).
      set (st2 := log_event cfg _ st1).
      assert (F : same_tables st1 st2) by apply log_event_frame.
      destruct F as (_ & F2 & F3 & _ & _ & F6).
      destruct (os_inotify_add_watch os p =? -1).
      * destruct (log_event_frame cfg
                    (snprintf 512 ("[ERROR] Failed to add watch for " ++ p
                                     ++ ": " ++ os_strerror os p)) st2)
          as (_ & _ & G3 & _ & _ & G6).
        cbn [snd]. rewrite G3, G6, F3, F6. now split.
      * match goal with |- context [log_event cfg ?m ?s] =>
          destruct (log_event_frame cfg m s) as (_ & _ & G3 & _ & _ & G6)
        end.
        cbn [snd]. rewrite G3, G6. cbn [wm_capacity stats with_wm].
        rewrite F3, F6. now split.
    + split; [discriminate|]. split; [discriminate|]. intros _ _.
      cbn [fst snd].
      destruct (log_event_frame cfg
                  "[ERROR] Failed to expand watch manager capacity" st)
        as (_ & F2 & F3 & _ & _ & F6).
      cbn [wm_capacity wm_entries stats with_stats memory_reallocations
           watch_limit_hits].
      rewrite F2, F3, F6. repeat split.
  - split; [|split; discriminate]. intros _.
    destruct (os_inotify_add_watch os p =? -1).
    + match goal with |- context [log_event cfg ?m ?s] =>
        destruct (log_event_frame cfg m s) as (_ & _ & G3 & _ & _ & G6)
      end.
      cbn [snd]. rewrite G3, G6. now split.
    + match goal with |- context [log_event cfg ?m ?s] =>
        destruct (log_event_frame cfg m s) as (_ & _ & G3 & _ & _ & G6)
      end.
      cbn [snd]. rewrite G3, G6. now split.
Qed.

(** One registration either keeps the capacity or doubles it, and the
    reallocation counter moves by one exactly when it doubles. *)
Lemma add_watch_dynamic_growth os cfg p st :
  0 <= wm_capacity st -> wm_capacity st * 2 < 2 ^ 64 ->
  let st' := snd (add_watch_dynamic os cfg p st) in
  (wm_capacity st' = wm_capacity st
   /\ memory_reallocations (stats st') = memory_reallocations (stats st))
  \/ (Z.of_nat (List.length (wm_entries st)) >= wm_capacity st
      /\ os_realloc_ok os = true
      /\ wm_capacity st' = wm_capacity st * 2
      /\ memory_reallocations (stats st')
         = wrap64 (memory_reallocations (stats st) + 1)).
Proof.
  intros H0 H1 st'. subst st'.
  destruct (add_watch_dynamic_step os cfg p st) as (Hno & Hgrow & Hfail).
  destruct (Z.of_nat (List.length (wm_entries st)) >=? wm_capacity st) eqn:Hfull.
  - destruct (os_realloc_ok os) eqn:Hre.
    + right. destruct (Hgrow eq_refl eq_refl) as [Hc Hr].
      split; [apply Z.geb_le in Hfull; lia|]. split; [reflexivity|].
      split; [|exact Hr]. rewrite Hc. unfold wrap64, WATCH_GROWTH_FACTOR.
      apply Z.mod_small. lia.
    + left. destruct (Hfail eq_refl eq_refl) as (_ & Hc & _ & Hr & _).
      now split.
  - left. now apply Hno.
Qed.

(** Over a run of registrations the capacity is the initial one doubled
    once per growth, and the reallocation counter has been incremented
    once per growth. *)
Lemma run_add_watch_dynamic_growth cfg ops :
  forall st,
    0 <= wm_capacity st ->
    wm_capacity st * 2 ^ Z.of_nat (List.length ops) < 2 ^ 64 ->
    exists k : nat,
      (k <= List.length ops)%nat
      /\ wm_capacity (run_add_watch_dynamic cfg ops st)
         = wm_capacity st * 2 ^ Z.of_nat k
      /\ memory_reallocations (stats (run_add_watch_dynamic cfg ops st))
         = Nat.iter k incr64 (memory_reallocations (stats st)).
Proof.
  induction ops as [|[os p] ops IH]; intros st H0 H1.
  - exists 0%nat. cbn. repeat split; lia.
  - cbn [run_add_watch_dynamic].
    cbn [List.length] in H1. rewrite Nat2Z.inj_succ, Z.pow_succ_r in H1 by lia.
    assert (Hp : 1 <= 2 ^ Z.of_nat (List.length ops))
      by (apply (Z.pow_le_mono_r 2 0); lia).
    destruct (add_watch_dynamic_growth os cfg p st H0 ltac:(nia))
      as [[Hc Hr] | (_ & _ & Hc & Hr)].
    + destruct (IH (snd (add_watch_dynamic os cfg p st))) as (k & Hk & Hck & Hrk).
      * rewrite Hc. exact H0.
      * rewrite Hc. nia.
      * exists k. cbn [List.length]. split; [lia|].
        rewrite Hck, Hrk, Hc, Hr. now split.
    + destruct (IH (snd (add_watch_dynamic os cfg p st))) as (k & Hk & Hck & Hrk).
      * rewrite Hc. lia.
      * rewrite Hc. nia.
      * exists (S k). cbn [List.length]. split; [lia|].
        rewrite Hck, Hrk, Hc, Hr. split.
        -- rewrite Nat2Z.inj_succ, Z.pow_succ_r by lia. ring.
        -- rewrite Nat.iter_succ_r. reflexivity.
Qed.

(** A registration adds at most one entry to the table. *)
Lemma add_watch_dynamic_length os cfg p st :
  (List.length (wm_entries (snd (add_watch_dynamic os cfg p st)))
   <= S (List.length (wm_entries st)))%nat.
Proof.
  assert (L : forall m s, wm_entries (log_event cfg m s) = wm_entries s).
  { intros m s. now destruct (log_event_frame cfg m s) as (_ & H & _). }
  unfold add_watch_dynamic. cbv zeta.
  destruct (Z.of_nat (List.length (wm_entries st)) >=? wm_capacity st).
  - destruct (negb (os_realloc_ok os)).
    + cbn [snd wm_entries with_stats]. rewrite L. lia.
    + destruct (os_inotify_add_watch os p =? -1); cbn [snd];
        rewrite !L; cbn [wm_entries with_wm with_stats]; rewrite ?L;
        cbn [wm_entries with_wm with_stats]; rewrite ?length_app; simpl; lia.
  - destruct (os_inotify_add_watch os p =? -1); cbn [snd];
      rewrite !L; cbn [wm_entries with_wm]; rewrite ?length_app; simpl; lia.
Qed.

(** The same over any run that memory can hold: a table is doubled only
    when it is full, so that the doubled capacity is at most twice the
    number of entries. *)
Lemma run_add_watch_dynamic_fits cfg ops :
  forall st,
    0 <= wm_capacity st ->
    2 * (Z.of_nat (List.length (wm_entries st)) + Z.of_nat (List.length ops))
      < 2 ^ 64 ->
    exists k : nat,
      (k <= List.length ops)%nat
      /\ wm_capacity (run_add_watch_dynamic cfg ops st)
         = wm_capacity st * 2 ^ Z.of_nat k
      /\ memory_reallocations (stats (run_add_watch_dynamic cfg ops st))
         = Nat.iter k incr64 (memory_reallocations (stats st)).
Proof.
  induction ops as [|[os p] ops IH]; intros st H0 H1.
  - exists 0%nat. cbn. repeat split; lia.
  - cbn [run_add_watch_dynamic]. cbn [List.length] in H1.
    pose proof (add_watch_dynamic_length os cfg p st) as Hlen.
    destruct (add_watch_dynamic_step os cfg p st) as (Hno & Hgrow & Hfail).
    cbv zeta in Hno, Hgrow, Hfail.
    assert (Hcase :
              (wm_capacity (snd (add_watch_dynamic os cfg p st)) = wm_capacity st
               /\ memory_reallocations
                    (stats (snd (add_watch_dynamic os cfg p st)))
                  = memory_reallocations (stats st))
              \/ (wm_capacity (snd (add_watch_dynamic os cfg p st))
                  = wm_capacity st * 2
                  /\ memory_reallocations
                       (stats (snd (add_watch_dynamic os cfg p st)))
                     = incr64 (memory_reallocations (stats st)))).
    { destruct (Z.of_nat (List.length (wm_entries st)) >=? wm_capacity st)
        eqn:Hfull; [|left; now apply Hno].
      destruct (os_realloc_ok os) eqn:Hre.
      - right. destruct (Hgrow eq_refl eq_refl) as [Hc Hr].
        split; [|exact Hr]. rewrite Hc. unfold wrap64, WATCH_GROWTH_FACTOR.
        apply Z.geb_le in Hfull. apply Z.mod_small. lia.
      - left. destruct (Hfail eq_refl eq_refl) as (_ & Hc & _ & Hr & _).
        now split. }
    destruct (IH (snd (add_watch_dynamic os cfg p st))) as (k & Hk & Hck & Hrk).
    + destruct Hcase as [[Hc _] | [Hc _]]; rewrite Hc; lia.
    + lia.
    + destruct Hcase as [[Hc Hr] | [Hc Hr]].
      * exists k. split; [cbn [List.length]; lia|].
        rewrite Hck, Hrk, Hc, Hr. now split.
      * exists (S k). split; [cbn [List.length]; lia|].
        rewrite Hck, Hrk, Hc, Hr. split.
        -- rewrite Nat2Z.inj_succ, Z.pow_succ_r by lia. ring.
        -- rewrite Nat.iter_succ_r. reflexivity.
Qed.

Lemma add_watch_basic_full os cfg p st :
  Z.of_nat (List.length (watches st)) >= 1024 ->
  add_watch_basic os cfg p st
  = (-1, log_event cfg "[ERROR] Maximum watch limit reached (basic mode)" st)
  /\ watches (snd (add_watch_basic os cfg p st)) = watches st.
Proof.
  intros H. unfold add_watch_basic.
  assert (E : (Z.of_nat (List.length (watches st)) >=? 1024) = true)
    by (apply Z.geb_le; lia).
  rewrite E. split; [reflexivity|]. cbn [snd].
  now destruct (log_event_frame cfg
                  "[ERROR] Maximum watch limit reached (basic mode)" st).
Qed.

End Registry.

(** C5, as the code has it.  In the enhanced mode of [monitor.c] (and in
    [enhanced_monitor.c]) a registration never lowers the capacity of
    the watch table: it keeps it, or, when the table is full and
    [realloc] succeeds, doubles it and increments the reallocation
    counter once; over any run of registrations whose entries memory
    can hold (twice their number fits [size_t]) the capacity never
    shrinks and is the initial one times a power of two whose exponent
    is the number of increments of the counter.  When [realloc] fails
    the registration fails and capacity, table and counter stay as they
    were.  In the basic and advanced modes the table is a pair of arrays
    of 1024 entries that never grows: a registration that finds them
    full fails and adds nothing. *)
Theorem C5_capacity_doubles_in_enhanced_mode_only :
  forall (cfg : UnifiedC.config) (st : UnifiedC.state),
    (forall os p,
       0 <= UnifiedC.wm_capacity st ->
       UnifiedC.wm_capacity st * 2 < 2 ^ 64 ->
       let st' := snd (UnifiedC.add_watch_dynamic os cfg p st) in
       (UnifiedC.wm_capacity st' = UnifiedC.wm_capacity st
        /\ UnifiedC.memory_reallocations (UnifiedC.stats st')
           = UnifiedC.memory_reallocations (UnifiedC.stats st))
       \/ (Z.of_nat (List.length (UnifiedC.wm_entries st))
             >= UnifiedC.wm_capacity st
           /\ os_realloc_ok os = true
           /\ UnifiedC.wm_capacity st' = UnifiedC.wm_capacity st * 2
           /\ UnifiedC.memory_reallocations (UnifiedC.stats st')
              = incr64 (UnifiedC.memory_reallocations (UnifiedC.stats st))))
    /\ (forall os p,
          Z.of_nat (List.length (UnifiedC.wm_entries st))
            >= UnifiedC.wm_capacity st ->
          (os_realloc_ok os = true ->
           UnifiedC.wm_capacity (snd (UnifiedC.add_watch_dynamic os cfg p st))
           = wrap64 (UnifiedC.wm_capacity st * 2))
          /\ (os_realloc_ok os = false ->
              fst (UnifiedC.add_watch_dynamic os cfg p st) = -1
              /\ UnifiedC.wm_entries (snd (UnifiedC.add_watch_dynamic os cfg p st))
                 = UnifiedC.wm_entries st
              /\ UnifiedC.wm_capacity (snd (UnifiedC.add_watch_dynamic os cfg p st))
                 = UnifiedC.wm_capacity st))
    /\ (forall ops,
          0 <= UnifiedC.wm_capacity st ->
          UnifiedC.wm_capacity st * 2 ^ Z.of_nat (List.length ops) < 2 ^ 64
          \/ 2 * (Z.of_nat (List.length (UnifiedC.wm_entries st))
                  + Z.of_nat (List.length ops)) < 2 ^ 64 ->
          exists k : nat,
            (k <= List.length ops)%nat
            /\ UnifiedC.wm_capacity (run_add_watch_dynamic cfg ops st)
               = UnifiedC.wm_capacity st * 2 ^ Z.of_nat k
            /\ UnifiedC.memory_reallocations
                 (UnifiedC.stats (run_add_watch_dynamic cfg ops st))
               = Nat.iter k incr64
                   (UnifiedC.memory_reallocations (UnifiedC.stats st))
            /\ UnifiedC.wm_capacity st
               <= UnifiedC.wm_capacity (run_add_watch_dynamic cfg ops st))
    /\ (forall os p,
          Z.of_nat (List.length (UnifiedC.watches st)) >= 1024 ->
          fst (UnifiedC.add_watch_basic os cfg p st) = -1
          /\ UnifiedC.watches (snd (UnifiedC.add_watch_basic os cfg p st))
             = UnifiedC.watches st).
Proof.
  intros cfg st. split; [|split; [|split]].
  - intros os p H0 H1. apply add_watch_dynamic_growth; assumption.
  - intros os p Hfull.
    destruct (add_watch_dynamic_step os cfg p st) as (_ & Hgrow & Hfail).
    assert (E : (Z.of_nat (List.length (UnifiedC.wm_entries st))
                 >=? UnifiedC.wm_capacity st) = true)
      by (apply Z.geb_le; lia).
    split.
    + intros Hre. now destruct (Hgrow E Hre).
    + intros Hre. destruct (Hfail E Hre) as (H1 & H2 & H3 & _). now repeat split.
  - intros ops H0 H1.
    assert (H : exists k : nat,
               (k <= List.length ops)%nat
               /\ UnifiedC.wm_capacity (run_add_watch_dynamic cfg ops st)
                  = UnifiedC.wm_capacity st * 2 ^ Z.of_nat k
               /\ UnifiedC.memory_reallocations
                    (UnifiedC.stats (run_add_watch_dynamic cfg ops st))
                  = Nat.iter k incr64
                      (UnifiedC.memory_reallocations (UnifiedC.stats st))).
    { destruct H1 as [H1|H1];
        [now apply run_add_watch_dynamic_growth
        | now apply run_add_watch_dynamic_fits]. }
    destruct H as (k & Hk & Hc & Hr). exists k.
    split; [exact Hk|]. split; [exact Hc|]. split; [exact Hr|].
    rewrite Hc.
    assert (1 <= 2 ^ Z.of_nat k) by (apply (Z.pow_le_mono_r 2 0); lia).
    nia.
  - intros os p Hfull.
    destruct (add_watch_basic_full os cfg p st Hfull) as [H1 H2].
    split; [now rewrite H1 | exact H2].
Qed.

(** The basic mode with its 1024 slots in use: the kernel would accept
    one more watch, and the registration fails all the same. *)
Lemma C5_counterexample :
  os_inotify_add_watch ex_os "/srv" = 1
  /\ List.length (UnifiedC.watches ex_full_state) = 1024%nat
  /\ fst (UnifiedC.add_watch_basic ex_os ex_basic_cfg "/srv" ex_full_state) = -1
  /\ List.length
       (UnifiedC.watches
          (snd (UnifiedC.add_watch_basic ex_os ex_basic_cfg "/srv" ex_full_state)))
     = 1024%nat.
Proof. repeat split; vm_compute; reflexivity. Qed.

(** The enhanced mode with its 1024 slots in use: one more registration
    doubles the table and counts one reallocation, and a run of 1026
    registrations from the start, which fills the initial table, has
    its capacity and its counter as stated. *)
Lemma C5_witness :
  UnifiedC.wm_capacity
    (snd (UnifiedC.add_watch_dynamic ex_os ex_enhanced_cfg "/srv"
            ex_enhanced_full_state))
  = 2048
  /\ UnifiedC.memory_reallocations
       (UnifiedC.stats
          (snd (UnifiedC.add_watch_dynamic ex_os ex_enhanced_cfg "/srv"
                  ex_enhanced_full_state)))
     = 1
  /\ (exists k : nat,
        (k <= 1026)%nat
        /\ UnifiedC.wm_capacity
             (run_add_watch_dynamic ex_enhanced_cfg
                (repeat (ex_os, "/srv") 1026) ex_enhanced_state)
           = 1024 * 2 ^ Z.of_nat k
        /\ UnifiedC.memory_reallocations
             (UnifiedC.stats
                (run_add_watch_dynamic ex_enhanced_cfg
                   (repeat (ex_os, "/srv") 1026) ex_enhanced_state))
           = Nat.iter k incr64 0
        /\ 1024
           <= UnifiedC.wm_capacity
                (run_add_watch_dynamic ex_enhanced_cfg
                   (repeat (ex_os, "/srv") 1026) ex_enhanced_state))
  /\ fst (UnifiedC.add_watch_basic ex_os ex_basic_cfg "/srv" ex_full_state) = -1.
Proof.
  destruct (C5_capacity_doubles_in_enhanced_mode_only ex_enhanced_cfg
              ex_enhanced_full_state) as (Hstep & Hfull & _ & _).
  destruct (C5_capacity_doubles_in_enhanced_mode_only ex_enhanced_cfg
              ex_enhanced_state) as (_ & _ & Hrun & _).
  destruct (C5_capacity_doubles_in_enhanced_mode_only ex_basic_cfg ex_full_state)
    as (_ & _ & _ & Hbasic).
  assert (Hcap : UnifiedC.wm_capacity
                   (snd (UnifiedC.add_watch_dynamic ex_os ex_enhanced_cfg "/srv"
                           ex_enhanced_full_state)) = 2048).
  { destruct (Hfull ex_os "/srv") as [H _]; [vm_compute; discriminate|].
    rewrite (H eq_refl). reflexivity. }
  split; [exact Hcap|]. split; [|split].
  - destruct (Hstep ex_os "/srv") as [[Hc _] | (_ & _ & _ & Hr)].
    + vm_compute. discriminate.
    + vm_compute. reflexivity.
    + rewrite Hcap in Hc. discriminate.
    + rewrite Hr. reflexivity.
  - apply (Hrun (repeat (ex_os, "/srv") 1026)).
    + vm_compute. discriminate.
    + right. rewrite repeat_length. vm_compute. reflexivity.
  - apply (Hbasic ex_os "/srv"). vm_compute. discriminate.
Defined.

(* ================================================================= *)
(** ** The change-detection cache *)

Lemma path_fits (p : string) :
  (String.length p < MAX_PATH_LEN)%nat -> strncpy (MAX_PATH_LEN - 1) p = p.
Proof. intros H. apply strncpy_fits. lia. Qed.

Lemma digest_fits (d : string) :
  String.length d = 64%nat -> strncpy 64 d = d.
Proof. intros H. apply strncpy_fits. lia. Qed.

Section UnifiedCache.

Import UnifiedC.

Lemma unified_find_hash_app p hs e :
  find_hash p hs = None -> filepath e = p ->
  find_hash p (hs ++ [e]) = Some (List.length hs, e).
Proof.
  intros Hn He. induction hs as [|h hs IH]; cbn [find_hash app List.length].
  - unfold strcmp_eq. now rewrite He, String.eqb_refl.
  - cbn [find_hash] in Hn. destruct (strcmp_eq (filepath h) p); [discriminate|].
    destruct (find_hash p hs) as [[i x]|]; [discriminate|].
    now rewrite IH.
Qed.

Lemma unified_find_hash_update p hs i e e' :
  find_hash p hs = Some (i, e) -> filepath e' = filepath e ->
  find_hash p (update_nth i e' hs) = Some (i, e').
Proof.
  revert i. induction hs as [|h hs IH]; intros i Hf He; [discriminate|].
  cbn [find_hash] in Hf.
  destruct (strcmp_eq (filepath h) p) eqn:E.
  - injection Hf as <- <-. cbn [update_nth find_hash]. now rewrite He, E.
  - destruct (find_hash p hs) as [[j x]|] eqn:F; [|discriminate].
    injection Hf as <- <-. cbn [update_nth find_hash]. rewrite E.
    now rewrite (IH j eq_refl He).
Qed.

Lemma check_file_changed_contract cfg :
  enable_checksum cfg = true ->
  confirm_change_contract (fun os p st => check_file_changed os cfg p st)
                          unified_cached.
Proof.
  intros Hck os p d st Hd Hlen Hp.
  unfold unified_cached, check_file_changed. rewrite Hck, Hd. cbn [negb].
  destruct (find_hash p (file_hashes st)) as [[i e]|] eqn:F; cbn [option_map snd].
  - unfold strcmp_eq. destruct (String.eqb_spec (hash e) d) as [Heq|Hne];
      cbn [negb fst snd].
    + split; [reflexivity|]. split; [reflexivity|]. intros H. now destruct H.
    + split; [reflexivity|]. split; [intros H; now destruct Hne|]. intros _.
      cbn [file_hashes with_hashes].
      erewrite unified_find_hash_update; [|exact F|reflexivity].
      cbn [option_map snd hash]. change (HASH_SIZE - 1)%nat with 64%nat.
      now rewrite digest_fits.
  - cbn [fst snd file_hashes with_hashes]. split; [reflexivity|].
    erewrite unified_find_hash_app; [|exact F|].
    + cbn [option_map snd hash]. change (HASH_SIZE - 1)%nat with 64%nat.
      now rewrite digest_fits.
    + cbn [filepath]. now apply path_fits.
Qed.

End UnifiedCache.

Section AdvancedCache.

Import AdvancedC.

Lemma advanced_find_hash_app p hs e :
  find_hash p hs = None -> filepath e = p ->
  find_hash p (hs ++ [e]) = Some (List.length hs, e).
Proof.
  intros Hn He. induction hs as [|h hs IH]; cbn [find_hash app List.length].
  - unfold strcmp_eq. now rewrite He, String.eqb_refl.
  - cbn [find_hash] in Hn. destruct (strcmp_eq (filepath h) p); [discriminate|].
    destruct (find_hash p hs) as [[i x]|]; [discriminate|].
    now rewrite IH.
Qed.

Lemma advanced_find_hash_update p hs i e e' :
  find_hash p hs = Some (i, e) -> filepath e' = filepath e ->
  find_hash p (update_nth i e' hs) = Some (i, e').
Proof.
  revert i. induction hs as [|h hs IH]; intros i Hf He; [discriminate|].
  cbn [find_hash] in Hf.
  destruct (strcmp_eq (filepath h) p) eqn:E.
  - injection Hf as <- <-. cbn [update_nth find_hash]. now rewrite He, E.
  - destruct (find_hash p hs) as [[j x]|] eqn:F; [|discriminate].
    injection Hf as <- <-. cbn [update_nth find_hash]. rewrite E.
    now rewrite (IH j eq_refl He).
Qed.

Lemma has_file_changed_contract cfg :
  enable_checksum cfg = true ->
  confirm_change_contract (fun os p st => has_file_changed os cfg p st)
                          advanced_cached.
Proof.
  intros Hck os p d st Hd Hlen Hp.
  unfold advanced_cached, has_file_changed. rewrite Hck, Hd. cbn [negb].
  destruct (find_hash p (file_hashes st)) as [[i e]|] eqn:F; cbn [option_map snd].
  - unfold strcmp_eq. destruct (String.eqb_spec (hash e) d) as [Heq|Hne];
      cbn [negb fst snd].
    + split; [reflexivity|]. split; [reflexivity|]. intros H. now destruct H.
    + split; [reflexivity|]. split; [intros H; now destruct Hne|]. intros _.
      cbn [file_hashes set_file_hashes].
      erewrite advanced_find_hash_update; [|exact F|reflexivity].
      cbn [option_map snd hash]. change (HASH_SIZE - 1)%nat with 64%nat.
      now rewrite digest_fits.
  - cbn [fst snd file_hashes set_file_hashes]. split; [reflexivity|].
    erewrite advanced_find_hash_app; [|exact F|].
    + cbn [option_map snd hash]. change (HASH_SIZE - 1)%nat with 64%nat.
      now rewrite digest_fits.
    + cbn [filepath]. now apply path_fits.
Qed.

End AdvancedCache.

(** The two cases the contract leaves out: with checksums disabled, and
    for a file that cannot be opened, [check_file_changed] answers true
    and stores nothing. *)
Lemma check_file_changed_fail_open os cfg p st :
  UnifiedC.enable_checksum cfg = false \/ os_file_hash os p = None ->
  UnifiedC.check_file_changed os cfg p st = (true, st).
Proof.
  unfold UnifiedC.check_file_changed. intros [H | H].
  - now rewrite H.
  - rewrite H. now destruct (UnifiedC.enable_checksum cfg).
Qed.

(** Along a run of calls on one path, a call answers true exactly when
    the digest it computes differs from the one of the call before, and
    the first call on a path not yet cached answers true. *)
Lemma run_checks_changes {S : Type}
    (check : os_env -> string -> S -> bool * S)
    (cached : string -> S -> option string) :
  confirm_change_contract check cached ->
  forall (p : string) (oss : list os_env) (ds : list string) (st : S),
    (String.length p < MAX_PATH_LEN)%nat ->
    Forall2 (fun os d => os_file_hash os p = Some d
                         /\ String.length d = 64%nat) oss ds ->
    fst (run_checks check oss p st) = changes (cached p st) ds.
Proof.
  intros Hc p oss ds st Hp HF. revert st.
  induction HF as [|os d oss ds [Hd Hl] HF IH]; intros st; [reflexivity|].
  cbn [run_checks changes].
  specialize (Hc os p d st Hd Hl Hp).
  destruct (check os p st) as [r st1] eqn:E. cbn [fst snd] in Hc.
  specialize (IH st1).
  destruct (run_checks check oss p st1) as [rs st2]. cbn [fst] in *.
  assert (Hcached : cached p st1 = Some d /\
                    r = match cached p st with
                        | None => true
                        | Some d0 => negb (String.eqb d0 d)
                        end).
  { destruct (cached p st) as [d0|] eqn:C.
    - destruct Hc as (Hr & Hsame & Hdiff). split; [|exact Hr].
      destruct (String.eqb_spec d0 d) as [Heq|Hne].
      + rewrite (Hsame Heq), C. now rewrite Heq.
      + now apply Hdiff.
    - destruct Hc as [Hr Hst]. now split. }
  destruct Hcached as [Hc1 Hr]. rewrite IH, Hc1, Hr. reflexivity.
Qed.

(** C1.  With checksums enabled, for a file that can be read and a path
    that fits the path buffer, [check_file_changed] of [monitor.c] and
    [has_file_changed] of [advanced_monitor.c] both do this: the first
    call for a path stores the digest and answers true; a later call
    answers true exactly when the new digest differs from the stored
    one, and then stores the new one; when they are equal it answers
    false and leaves the whole state as it was.  Hence along any run of
    calls the answer is true exactly at the first call and at the calls
    that see a digest other than the one before. *)
Theorem C1_change_detection_cache :
  forall (ucfg : UnifiedC.config) (acfg : AdvancedC.config),
    UnifiedC.enable_checksum ucfg = true ->
    AdvancedC.enable_checksum acfg = true ->
    let check_u := fun os p st => UnifiedC.check_file_changed os ucfg p st in
    let check_a := fun os p st => AdvancedC.has_file_changed os acfg p st in
    confirm_change_contract check_u unified_cached
    /\ confirm_change_contract check_a advanced_cached
    /\ (forall p oss ds,
          (String.length p < MAX_PATH_LEN)%nat ->
          Forall2 (fun os d => os_file_hash os p = Some d
                               /\ String.length d = 64%nat) oss ds ->
          (forall st, fst (run_checks check_u oss p st)
                      = changes (unified_cached p st) ds)
          /\ (forall st, fst (run_checks check_a oss p st)
                         = changes (advanced_cached p st) ds)).
Proof.
  intros ucfg acfg Hu Ha check_u check_a.
  assert (Cu := check_file_changed_contract ucfg Hu).
  assert (Ca := has_file_changed_contract acfg Ha).
  split; [exact Cu|]. split; [exact Ca|].
  intros p oss ds Hp HF. split; intros st.
  - now apply (run_checks_changes check_u unified_cached Cu).
  - now apply (run_checks_changes check_a advanced_cached Ca).
Qed.

(** [/srv/notes.txt] is seen with the digests a, a, b, b, a: the
    answers are true, false, true, false, true. *)
Lemma C1_witness :
  let oss := map (ex_os_with_file "/srv/notes.txt")
                 [digest_a; digest_a; digest_b; digest_b; digest_a] in
  fst (run_checks (fun os p st => UnifiedC.check_file_changed os ex_advanced_cfg p st)
                  oss "/srv/notes.txt" ex_unified_state)
  = [true; false; true; false; true]
  /\ fst (run_checks (fun os p st => AdvancedC.has_file_changed os ex_adv_cfg p st)
                     oss "/srv/notes.txt" ex_adv_state)
     = [true; false; true; false; true].
Proof.
  intros oss.
  destruct (C1_change_detection_cache ex_advanced_cfg ex_adv_cfg eq_refl eq_refl)
    as (_ & _ & Hrun).
  destruct (Hrun "/srv/notes.txt" oss
                 [digest_a; digest_a; digest_b; digest_b; digest_a])
    as [Hu Ha].
  - apply Nat.ltb_lt. vm_compute. reflexivity.
  - repeat constructor.
  - split; [apply Hu | apply Ha].
Defined.

(* ================================================================= *)
(** ** Reading the configuration file *)

Section ConfigFile.

Lemma fgets_chars_line (n : nat) (l rest : string) :
  char_free "010" l -> (String.length l < n)%nat ->
  fgets_chars n (l ++ String "010" rest) = (l ++ String "010" "", rest).
Proof.
  revert n. induction l as [|c l IH]; intros n Hf Hn.
  - destruct n as [|n]; [simpl in Hn; lia|]. reflexivity.
  - destruct n as [|n]; [simpl in Hn; lia|].
    destruct Hf as [Hc Hf]. cbn [append fgets_chars].
    apply Ascii.eqb_neq in Hc. rewrite Hc.
    rewrite IH by (simpl in Hn; first [exact Hf | lia]). reflexivity.
Qed.

Lemma fgets_chars_full (n : nat) (a rest : string) :
  char_free "010" a -> String.length a = n ->
  fgets_chars n (a ++ rest) = (a, rest).
Proof.
  revert n. induction a as [|c a IH]; intros n Hf Hn.
  - subst n. reflexivity.
  - destruct n as [|n]; [discriminate|].
    destruct Hf as [Hc Hf]. cbn [append fgets_chars].
    apply Ascii.eqb_neq in Hc. rewrite Hc.
    rewrite IH by (simpl in Hn; first [exact Hf | lia]). reflexivity.
Qed.

Lemma fgets_chars_shorter (n : nat) (s : string) :
  (0 < n)%nat -> s <> "" ->
  (String.length (snd (fgets_chars n s)) < String.length s)%nat.
Proof.
  revert s. induction n as [|n IH]; intros s Hn Hs; [lia|].
  destruct s as [|c s]; [now destruct Hs|]. cbn [fgets_chars].
  destruct (Ascii.eqb c "010"); [simpl; lia|].
  destruct n as [|n'].
  - simpl. lia.
  - destruct s as [|c' s'].
    + simpl. lia.
    + specialize (IH (String c' s') ltac:(lia) ltac:(discriminate)).
      destruct (fgets_chars (S n') (String c' s')) as [l r].
      simpl in *. lia.
Qed.

Lemma cstr_line (l : string) :
  char_free "000" l -> cstr (l ++ String "010" "") = l ++ String "010" "".
Proof.
  induction l as [|c l IH]; intros Hf; [reflexivity|].
  destruct Hf as [Hc Hf]. cbn [append cstr].
  apply Ascii.eqb_neq in Hc. rewrite Hc. now rewrite IH.
Qed.

Lemma chomp_line (l x : string) :
  char_free "010" l -> chomp (l ++ String "010" x) = l.
Proof.
  induction l as [|c l IH]; intros Hf; [reflexivity|].
  destruct Hf as [Hc Hf]. cbn [append chomp].
  apply Ascii.eqb_neq in Hc. rewrite Hc. now rewrite IH.
Qed.

Lemma fgets_plain_line (l rest : string) :
  plain_line l ->
  fgets 256 (l ++ String "010" rest) = Some (l ++ String "010" "", rest).
Proof.
  intros (Hn & _ & Hlen). unfold fgets.
  destruct (l ++ String "010" rest) eqn:E.
  - destruct l; discriminate.
  - rewrite <- E. f_equal. apply fgets_chars_line; [exact Hn|]. simpl. lia.
Qed.

Lemma skip_append (a b : string) : skip (String.length a) (a ++ b) = b.
Proof. induction a as [|c a IH]; [now destruct b | exact IH]. Qed.

Lemma prefix_append (a b : string) : String.prefix a (a ++ b) = true.
Proof. apply prefix_iff. now exists b. Qed.

Lemma text_of_lines_app (ls ls' : list string) :
  text_of_lines (ls ++ ls') = text_of_lines ls ++ text_of_lines ls'.
Proof.
  induction ls as [|l ls IH]; [reflexivity|].
  cbn [app text_of_lines]. rewrite IH.
  induction l as [|c l IHl]; [reflexivity|]. cbn [append]. now rewrite IHl.
Qed.

Lemma lines_le_text (ls : list string) :
  (List.length ls <= String.length (text_of_lines ls))%nat.
Proof.
  induction ls as [|l ls IH]; [simpl; lia|].
  cbn [text_of_lines List.length].
  assert (H : forall a b, String.length (a ++ String "010" b)
                          = S (String.length a + String.length b)).
  { intros a b. induction a as [|c a IHa]; simpl; [reflexivity|].
    now rewrite IHa. }
  rewrite H. lia.
Qed.

End ConfigFile.

Section MainConfig.

Import MainStartup.

(** The loop over a file of plain lines is the fold of the loop body
    over the lines. *)
Lemma main_config_loop_lines (ls : list string) :
  Forall plain_line ls ->
  forall fuel cfg,
    (List.length ls <= fuel)%nat ->
    config_loop fuel (text_of_lines ls) cfg
    = fold_left (fun c l => config_line (l ++ String "010" "") c) ls cfg.
Proof.
  induction 1 as [|l ls Hl Hls IH]; intros fuel cfg Hfuel.
  - destruct fuel; reflexivity.
  - destruct fuel as [|fuel]; [simpl in Hfuel; lia|].
    cbn [text_of_lines config_loop fold_left].
    rewrite (fgets_plain_line l _ Hl).
    apply IH. simpl in Hfuel. lia.
Qed.

Lemma main_config_loop_fuel (f1 : nat) :
  forall f2 unread cfg,
    (String.length unread <= f1)%nat -> (String.length unread <= f2)%nat ->
    config_loop f1 unread cfg = config_loop f2 unread cfg.
Proof.
  induction f1 as [|f1 IH]; intros f2 unread cfg H1 H2.
  - destruct unread; [|simpl in H1; lia]. now destruct f2.
  - destruct unread as [|c s]; [now destruct f2|].
    destruct f2 as [|f2]; [simpl in H2; lia|].
    cbn [config_loop]. unfold fgets.
    pose proof (fgets_chars_shorter (256 - 1) (String c s)
                  ltac:(simpl; lia) ltac:(discriminate)) as Hs.
    destruct (fgets_chars (256 - 1) (String c s)) as [raw rest].
    cbn [snd] in Hs. apply IH; simpl in *; lia.
Qed.

Lemma main_extension_line (e : string) (cfg : MainC.config) :
  plain_line ("extension=" ++ e) ->
  config_line (("extension=" ++ e) ++ String "010" "") cfg
  = if Z.of_nat (List.length (MainC.file_extensions cfg)) <? 100
    then MainC.mkConfig (MainC.recursive_mode cfg)
                        (MainC.file_extensions cfg ++ [e])
    else cfg.
Proof.
  intros (Hn & Hz & _). unfold config_line.
  rewrite (cstr_line _ Hz). cbv zeta.
  change (first_is "#" (("extension=" ++ e) ++ String "010" "")) with false.
  change (first_is "010" (("extension=" ++ e) ++ String "010" "")) with false.
  cbn [orb]. rewrite (chomp_line _ "" Hn).
  change (String.prefix "recursive=" ("extension=" ++ e)) with false.
  rewrite prefix_append.
  change 10%nat with (String.length "extension=").
  now rewrite skip_append.
Qed.

Lemma main_recursive_line (v : string) (cfg : MainC.config) :
  plain_line ("recursive=" ++ v) ->
  config_line (("recursive=" ++ v) ++ String "010" "") cfg
  = MainC.mkConfig (String.eqb v "true") (MainC.file_extensions cfg).
Proof.
  intros (Hn & Hz & _). unfold config_line.
  rewrite (cstr_line _ Hz). cbv zeta.
  change (first_is "#" (("recursive=" ++ v) ++ String "010" "")) with false.
  change (first_is "010" (("recursive=" ++ v) ++ String "010" "")) with false.
  cbn [orb]. rewrite (chomp_line _ "" Hn).
  rewrite prefix_append.
  change 10%nat with (String.length "recursive=").
  now rewrite skip_append.
Qed.

Lemma main_extension_lines (es : list string) :
  Forall (fun e => plain_line ("extension=" ++ e)) es ->
  forall cfg,
    (List.length (MainC.file_extensions cfg) + List.length es <= 100)%nat ->
    fold_left (fun c l => config_line (l ++ String "010" "") c)
              (map (fun e => "extension=" ++ e) es) cfg
    = MainC.mkConfig (MainC.recursive_mode cfg)
                     (MainC.file_extensions cfg ++ es).
Proof.
  induction 1 as [|e es He Hes IH]; intros cfg Hlen.
  - cbn. rewrite app_nil_r. now destruct cfg.
  - cbn [map fold_left]. rewrite (main_extension_line e cfg He).
    assert (E : (Z.of_nat (List.length (MainC.file_extensions cfg)) <? 100) = true)
      by (apply Z.ltb_lt; simpl in Hlen; lia).
    rewrite E, IH.
    + cbn [MainC.recursive_mode MainC.file_extensions].
      now rewrite <- app_assoc.
    + cbn [MainC.file_extensions]. rewrite length_app. simpl in *. lia.
Qed.

(** The table of extensions of [main.c] never holds more than its 100
    slots, whatever the file holds. *)
Lemma main_config_line_bound raw cfg :
  (List.length (MainC.file_extensions cfg) <= 100)%nat ->
  (List.length (MainC.file_extensions (config_line raw cfg)) <= 100)%nat.
Proof.
  intros H. unfold config_line. cbv zeta.
  destruct (first_is "#" (cstr raw) || first_is "010" (cstr raw)); [exact H|].
  destruct (String.prefix "recursive=" (chomp (cstr raw))); [exact H|].
  destruct (String.prefix "extension=" (chomp (cstr raw))); [|exact H].
  destruct (Z.ltb_spec (Z.of_nat (List.length (MainC.file_extensions cfg))) 100);
    [|exact H].
  cbn [MainC.file_extensions]. rewrite length_app. simpl. lia.
Qed.

End MainConfig.

Section UnifiedConfig.

Import UnifiedStartup.

Lemma unified_config_loop_lines (ls : list string) :
  Forall plain_line ls ->
  forall fuel cfg,
    (List.length ls <= fuel)%nat ->
    config_loop fuel (text_of_lines ls) cfg
    = fold_left (fun c l => config_line (l ++ String "010" "") c) ls cfg.
Proof.
  induction 1 as [|l ls Hl Hls IH]; intros fuel cfg Hfuel.
  - destruct fuel; reflexivity.
  - destruct fuel as [|fuel]; [simpl in Hfuel; lia|].
    cbn [text_of_lines config_loop fold_left].
    rewrite (fgets_plain_line l _ Hl).
    apply IH. simpl in Hfuel. lia.
Qed.

Lemma unified_recursive_line (v : string) (cfg : UnifiedC.config) :
  plain_line ("recursive=" ++ v) ->
  config_line (("recursive=" ++ v) ++ String "010" "") cfg
  = with_recursive (String.eqb v "true" || String.eqb v "yes") cfg.
Proof.
  intros (Hn & Hz & _). unfold config_line.
  rewrite (cstr_line _ Hz). cbv zeta. rewrite (chomp_line _ "" Hn).
  rewrite prefix_append.
  change 10%nat with (String.length "recursive=").
  now rewrite skip_append.
Qed.

End UnifiedConfig.

(** A line that [main.c] skips as a comment or as empty is no directive
    for [monitor.c] either. *)
Lemma skipped_line_is_no_directive (line : string) :
  first_is "#" line || first_is "010" line = true ->
  String.prefix "recursive=" (chomp line) = false
  /\ String.prefix "extension=" (chomp line) = false.
Proof.
  destruct line as [|c line]; [discriminate|]. cbn [first_is chomp].
  destruct (Ascii.eqb_spec c "010") as [->|Hn]; [now split|].
  rewrite orb_false_r. intros H. apply Ascii.eqb_eq in H as ->. now split.
Qed.

Lemma firstn_snoc_100 {A : Type} (u : list A) (e : A) :
  firstn 100 (u ++ [e])%list
  = if Z.of_nat (List.length (firstn 100 u)) <? 100
    then (firstn 100 u ++ [e])%list else firstn 100 u.
Proof.
  destruct (Nat.lt_ge_cases (List.length u) 100) as [H|H].
  - rewrite (firstn_all2 u) by lia.
    rewrite firstn_all2 by (rewrite length_app; simpl; lia).
    assert (E : (Z.of_nat (List.length u) <? 100) = true) by (apply Z.ltb_lt; lia).
    now rewrite E.
  - rewrite firstn_app.
    replace (100 - List.length u)%nat with 0%nat by lia.
    rewrite firstn_O, app_nil_r.
    assert (E : (Z.of_nat (List.length (firstn 100 u)) <? 100) = false).
    { apply Z.ltb_ge. rewrite length_firstn. lia. }
    now rewrite E.
Qed.

Lemma config_lines_agree raw mcfg ucfg :
  MainC.file_extensions mcfg = firstn 100 (UnifiedC.file_extensions ucfg) ->
  MainC.file_extensions (MainStartup.config_line raw mcfg)
  = firstn 100 (UnifiedC.file_extensions (UnifiedStartup.config_line raw ucfg)).
Proof.
  intros He. unfold MainStartup.config_line, UnifiedStartup.config_line.
  cbv zeta.
  destruct (first_is "#" (cstr raw) || first_is "010" (cstr raw)) eqn:Hskip.
  - destruct (skipped_line_is_no_directive _ Hskip) as [-> ->]. exact He.
  - destruct (String.prefix "recursive=" (chomp (cstr raw))); [exact He|].
    destruct (String.prefix "extension=" (chomp (cstr raw))); [|exact He].
    cbn [UnifiedStartup.with_extensions UnifiedC.file_extensions].
    rewrite firstn_snoc_100, <- He.
    now destruct (Z.of_nat (List.length (MainC.file_extensions mcfg)) <? 100).
Qed.

Lemma config_lines_recursive raw mcfg ucfg :
  (MainC.recursive_mode mcfg = true -> UnifiedC.recursive_mode ucfg = true) ->
  MainC.recursive_mode (MainStartup.config_line raw mcfg) = true ->
  UnifiedC.recursive_mode (UnifiedStartup.config_line raw ucfg) = true.
Proof.
  intros Hr. unfold MainStartup.config_line, UnifiedStartup.config_line.
  cbv zeta.
  destruct (first_is "#" (cstr raw) || first_is "010" (cstr raw)) eqn:Hskip.
  - destruct (skipped_line_is_no_directive _ Hskip) as [-> ->]. exact Hr.
  - destruct (String.prefix "recursive=" (chomp (cstr raw))).
    + cbn. now intros ->.
    + destruct (String.prefix "extension=" (chomp (cstr raw))); [|exact Hr].
      now destruct (Z.of_nat (List.length (MainC.file_extensions mcfg)) <? 100).
Qed.

Lemma config_loops_agree fuel :
  forall unread mcfg ucfg,
    MainC.file_extensions mcfg = firstn 100 (UnifiedC.file_extensions ucfg) ->
    MainC.file_extensions (MainStartup.config_loop fuel unread mcfg)
    = firstn 100 (UnifiedC.file_extensions
                    (UnifiedStartup.config_loop fuel unread ucfg)).
Proof.
  induction fuel as [|fuel IH]; intros unread mcfg ucfg He; [exact He|].
  cbn [MainStartup.config_loop UnifiedStartup.config_loop].
  destruct (fgets 256 unread) as [[raw rest]|]; [|exact He].
  apply IH. now apply config_lines_agree.
Qed.

Lemma config_loops_recursive fuel :
  forall unread mcfg ucfg,
    (MainC.recursive_mode mcfg = true -> UnifiedC.recursive_mode ucfg = true) ->
    MainC.recursive_mode (MainStartup.config_loop fuel unread mcfg) = true ->
    UnifiedC.recursive_mode (UnifiedStartup.config_loop fuel unread ucfg) = true.
Proof.
  induction fuel as [|fuel IH]; intros unread mcfg ucfg Hr; [exact Hr|].
  cbn [MainStartup.config_loop UnifiedStartup.config_loop].
  destruct (fgets 256 unread) as [[raw rest]|]; [|exact Hr].
  apply IH. now apply config_lines_recursive.
Qed.

(** What [load_config] of [main.c] keeps of a file is what the one of
    [monitor.c] keeps, cut to the 100 slots of its table: the lines that
    [main.c] skips as comments or as empty are no directives for
    [monitor.c] either.  Where [main.c] ends with recursion enabled,
    [monitor.c], which takes [yes] for [true] as well, does too. *)
Theorem load_config_main_agrees_with_monitor :
  forall (content : string) (ucfg : UnifiedC.config)
         (mst : MainC.state) (ust : UnifiedC.state),
    let mcfg' := fst (MainStartup.load_config (Some content)
                        MainStartup.initial_config mst) in
    let ucfg' := fst (snd (UnifiedStartup.load_config (Some content) ucfg ust)) in
    MainC.file_extensions mcfg' = firstn 100 (UnifiedC.file_extensions ucfg')
    /\ (UnifiedC.recursive_mode ucfg = true ->
        MainC.recursive_mode mcfg' = true ->
        UnifiedC.recursive_mode ucfg' = true).
Proof.
  intros content ucfg mst ust mcfg' ucfg'. subst mcfg' ucfg'.
  cbn [MainStartup.load_config UnifiedStartup.load_config fst snd].
  split.
  - now apply config_loops_agree.
  - intros Hu. apply config_loops_recursive. intros _. exact Hu.
Qed.

Lemma main_config_line_grows raw cfg :
  exists one,
    MainC.file_extensions (MainStartup.config_line raw cfg)
    = (MainC.file_extensions cfg ++ one)%list.
Proof.
  unfold MainStartup.config_line. cbv zeta.
  destruct (first_is "#" (cstr raw) || first_is "010" (cstr raw));
    [exists []; now rewrite app_nil_r|].
  destruct (String.prefix "recursive=" (chomp (cstr raw)));
    [exists []; cbn; now rewrite app_nil_r|].
  destruct (String.prefix "extension=" (chomp (cstr raw)));
    [|exists []; now rewrite app_nil_r].
  destruct (Z.of_nat (List.length (MainC.file_extensions cfg)) <? 100);
    [eexists; reflexivity | exists []; now rewrite app_nil_r].
Qed.

Lemma string_length_append (a b : string) :
  String.length (a ++ b) = (String.length a + String.length b)%nat.
Proof. induction a as [|c a IH]; simpl; [reflexivity | now rewrite IH]. Qed.

(* ================================================================= *)
(** ** Properties of the configuration loaders *)

(** [load_config] of [main.c] on a file of [extension=] lines adds the
    values, in the order of the file, behind the extensions already
    configured, as long as the table of 100 entries is not exceeded, and
    leaves the recursion flag alone.  Afterwards [should_monitor_file]
    accepts exactly the names whose text behind the last dot is one of
    the configured values: a value that holds a dot itself, [tar.gz]
    say, is loaded and matches no name. *)
Theorem main_load_config_reads_extensions :
  forall (es : list string) (cfg : MainC.config) (st : MainC.state),
    Forall (fun e => plain_line ("extension=" ++ e)) es ->
    (List.length (MainC.file_extensions cfg) + List.length es <= 100)%nat ->
    let cfg' :=
      fst (MainStartup.load_config
             (Some (text_of_lines (map (fun e => "extension=" ++ e) es))) cfg st) in
    cfg' = MainC.mkConfig (MainC.recursive_mode cfg)
                          (MainC.file_extensions cfg ++ es)%list
    /\ (es <> [] ->
        forall filename,
          MainC.should_monitor_file cfg' filename = true <->
          exists stem e,
            filename = stem ++ "." ++ e /\ char_free "." e
            /\ In e (MainC.file_extensions cfg ++ es)%list).
Proof.
  intros es cfg st Hes Hlen cfg'.
  assert (E : cfg' = MainC.mkConfig (MainC.recursive_mode cfg)
                                    (MainC.file_extensions cfg ++ es)%list).
  { subst cfg'. cbn [MainStartup.load_config fst].
    rewrite main_config_loop_lines.
    - now apply main_extension_lines.
    - apply Forall_map. exact Hes.
    - apply lines_le_text. }
  split; [exact E|].
  intros Hne filename. rewrite E. unfold MainC.should_monitor_file.
  cbn [MainC.file_extensions].
  apply extension_filter_nonempty.
  intros H. apply app_eq_nil in H. now destruct Hne.
Qed.

Lemma main_load_config_reads_extensions_witness :
  fst (MainStartup.load_config (Some ex_dotted_config_text)
         MainStartup.initial_config ex_main_state)
  = MainC.mkConfig true ["txt"; "tar.gz"]
  /\ MainC.should_monitor_file
       (fst (MainStartup.load_config (Some ex_dotted_config_text)
               MainStartup.initial_config ex_main_state))
       "notes.txt" = true
  /\ MainC.should_monitor_file
       (fst (MainStartup.load_config (Some ex_dotted_config_text)
               MainStartup.initial_config ex_main_state))
       "a.tar.gz" = false.
Proof.
  assert (H : Forall (fun e => plain_line ("extension=" ++ e)) ["txt"; "tar.gz"])
    by plain_lines.
  assert (L : (List.length (MainC.file_extensions MainStartup.initial_config)
               + List.length ["txt"; "tar.gz"] <= 100)%nat) by (simpl; lia).
  destruct (main_load_config_reads_extensions
              ["txt"; "tar.gz"] MainStartup.initial_config ex_main_state H L)
    as [E F].
  split; [exact E|]. split.
  - apply F; [discriminate|].
    exists "notes", "txt". split; [reflexivity|]. split; [plain_lines|].
    now left.
  - refine (eq_trans
              (f_equal (fun c => MainC.should_monitor_file c "a.tar.gz") E) _).
    vm_compute. reflexivity.
Defined.

(** Whatever the configuration file of [main.c] holds, and whether it can
    be opened or not, [load_config] keeps the extensions configured
    before at the head of the table and never fills it beyond its 100
    entries. *)
Theorem main_load_config_table_bound :
  forall (file : option string) (cfg : MainC.config) (st : MainC.state),
    (List.length (MainC.file_extensions cfg) <= 100)%nat ->
    let cfg' := fst (MainStartup.load_config file cfg st) in
    (List.length (MainC.file_extensions cfg') <= 100)%nat
    /\ exists more,
         MainC.file_extensions cfg' = (MainC.file_extensions cfg ++ more)%list.
Proof.
  intros file cfg st H cfg'. subst cfg'.
  destruct file as [content|]; cbn [MainStartup.load_config fst];
    [|split; [exact H | exists []; now rewrite app_nil_r]].
  generalize (String.length content) as fuel. intros fuel.
  revert content cfg H.
  induction fuel as [|fuel IH]; intros content cfg H;
    [split; [exact H | exists []; now rewrite app_nil_r]|].
  cbn [MainStartup.config_loop].
  destruct (fgets 256 content) as [[raw rest]|];
    [|split; [exact H | exists []; now rewrite app_nil_r]].
  destruct (IH rest (MainStartup.config_line raw cfg)
               (main_config_line_bound raw cfg H)) as [Hb [more Hm]].
  split; [exact Hb|].
  destruct (main_config_line_grows raw cfg) as [one Ho].
  exists (one ++ more)%list. now rewrite Hm, Ho, app_assoc.
Qed.

Lemma main_load_config_table_bound_witness :
  (List.length
     (MainC.file_extensions
        (fst (MainStartup.load_config (Some ex_config_text) ex_main_cfg
                ex_main_state))) <= 100)%nat
  /\ exists more,
       MainC.file_extensions
         (fst (MainStartup.load_config (Some ex_config_text) ex_main_cfg
                 ex_main_state))
       = (MainC.file_extensions ex_main_cfg ++ more)%list.
Proof.
  apply (main_load_config_table_bound (Some ex_config_text) ex_main_cfg
           ex_main_state).
  simpl. lia.
Defined.

(** [fgets] of [main.c] reads at most 255 bytes at a time: of a comment
    line longer than that only the first 255 bytes are skipped, and
    what follows them on the line is read as a line of its own, so that
    a directive there takes effect. *)
Theorem main_long_comment_tail_is_read :
  forall (pad rest : string) (cfg : MainC.config) (st : MainC.state),
    char_free "010" pad ->
    String.length pad = 254%nat ->
    fst (MainStartup.load_config (Some (String "#" pad ++ rest)) cfg st)
    = fst (MainStartup.load_config (Some rest) cfg st).
Proof.
  intros pad rest cfg st Hf Hlen.
  cbn [MainStartup.load_config fst append String.length MainStartup.config_loop].
  unfold fgets. change (256 - 1)%nat with 255%nat.
  change (String "#" (pad ++ rest)) with (String "#" pad ++ rest).
  rewrite fgets_chars_full;
    [| split; [discriminate | exact Hf] | simpl; now rewrite Hlen].
  assert (E : MainStartup.config_line (String "#" pad) cfg = cfg) by reflexivity.
  rewrite E. apply main_config_loop_fuel; [|lia].
  rewrite string_length_append. lia.
Qed.

Lemma main_long_comment_tail_is_read_witness :
  MainC.file_extensions
    (fst (MainStartup.load_config (Some ex_long_comment_text)
            MainStartup.initial_config ex_main_state))
  = ["exe"].
Proof.
  unfold ex_long_comment_text, ex_long_comment.
  rewrite (main_long_comment_tail_is_read
             (String.concat "" (repeat "-" 254)) (text_of_lines ["extension=exe"])
             MainStartup.initial_config ex_main_state).
  - vm_compute. reflexivity.
  - vm_compute. plain_lines.
  - vm_compute. reflexivity.
Defined.

(** The value of a [recursive=] line is compared as a whole and the
    last such line decides: behind a file that ends in the line
    [recursive=v], [main.c] has recursion enabled exactly when [v] is
    [true], and [monitor.c] exactly when [v] is [true] or [yes]. *)
Theorem load_config_recursive_value :
  forall (ls : list string) (v : string)
         (mcfg : MainC.config) (mst : MainC.state)
         (ucfg : UnifiedC.config) (ust : UnifiedC.state),
    Forall plain_line ls ->
    plain_line ("recursive=" ++ v) ->
    let text := text_of_lines (ls ++ ["recursive=" ++ v]) in
    MainC.recursive_mode (fst (MainStartup.load_config (Some text) mcfg mst))
    = String.eqb v "true"
    /\ UnifiedC.recursive_mode
         (fst (snd (UnifiedStartup.load_config (Some text) ucfg ust)))
       = (String.eqb v "true" || String.eqb v "yes").
Proof.
  intros ls v mcfg mst ucfg ust Hls Hv text.
  assert (Hall : Forall plain_line (ls ++ ["recursive=" ++ v])).
  { apply Forall_app. split; [exact Hls | now constructor]. }
  subst text.
  cbn [MainStartup.load_config UnifiedStartup.load_config fst snd].
  rewrite main_config_loop_lines, unified_config_loop_lines;
    try exact Hall; try apply lines_le_text.
  rewrite !fold_left_app. cbn [fold_left].
  rewrite main_recursive_line, unified_recursive_line by exact Hv.
  split; reflexivity.
Qed.

Lemma load_config_recursive_value_witness :
  MainC.recursive_mode
    (fst (MainStartup.load_config
            (Some (text_of_lines (["extension=txt"] ++ ["recursive=yes"])))
            MainStartup.initial_config ex_main_state))
  = false
  /\ UnifiedC.recursive_mode
       (fst (snd (UnifiedStartup.load_config
                    (Some (text_of_lines (["extension=txt"] ++ ["recursive=yes"])))
                    ex_basic_cfg ex_unified_state)))
     = true.
Proof.
  apply (load_config_recursive_value ["extension=txt"] "yes"
           MainStartup.initial_config ex_main_state ex_basic_cfg ex_unified_state);
    plain_lines.
Defined.

(* ================================================================= *)
(** ** main.c: the watch table and the log across the event path *)

Section MainProgress.

Import MainC.

Lemma main_continues_refl st : main_continues st st.
Proof.
  exists [], []. rewrite !app_nil_r.
  split; [reflexivity|]. split; [constructor|]. split; [reflexivity|].
  split; [|tauto].
  destruct (log_file st); cbn; [now rewrite app_nil_r | reflexivity].
Qed.

Lemma main_continues_trans st1 st2 st3 :
  main_continues st1 st2 -> main_continues st2 st3 -> main_continues st1 st3.
Proof.
  intros (ws & ls & Hw & Hf & Hc & Hl & Hb) (ws' & ls' & Hw' & Hf' & Hc' & Hl' & Hb').
  exists (ws ++ ws')%list, (ls ++ ls')%list.
  split; [now rewrite Hw', Hw, app_assoc|].
  split; [now apply Forall_app|].
  split; [now rewrite Hc', Hc, app_assoc|].
  split; [|tauto].
  rewrite Hl', Hl.
  destruct (log_file st1); cbn; [now rewrite app_assoc | reflexivity].
Qed.

Lemma main_continues_log_event m st : main_continues st (log_event m st).
Proof.
  exists [], [m]. cbn. rewrite app_nil_r.
  split; [reflexivity|]. split; [constructor|]. split; [reflexivity|].
  split; [|tauto].
  now destruct (log_file st).
Qed.

Lemma main_continues_fold {A : Type} (f : state -> A -> state) (l : list A) :
  (forall s x, main_continues s (f s x)) ->
  forall st, main_continues st (fold_left f l st).
Proof.
  intros Hf. induction l as [|x l IH]; intros st; cbn [fold_left].
  - apply main_continues_refl.
  - eapply main_continues_trans; [apply Hf | apply IH].
Qed.

Lemma main_continues_add_single_watch os path st :
  main_continues st (snd (add_single_watch os path st)).
Proof.
  unfold add_single_watch.
  destruct (Z.of_nat (List.length (watches st)) >=? MAX_WATCHES) eqn:Hfull;
    [apply main_continues_log_event|].
  cbv zeta.
  destruct (os_inotify_add_watch os path =? -1) eqn:Hwd;
    [apply main_continues_log_event|].
  cbn [snd].
  eapply main_continues_trans; [|apply main_continues_log_event].
  exists [(os_inotify_add_watch os path, strncpy (MAX_PATH_LEN - 1) path)], [].
  cbn [watches console log_file]. rewrite app_nil_r.
  split; [reflexivity|]. split; [|split; [reflexivity|split]].
  - constructor; [|constructor]. cbn. now apply Z.eqb_neq.
  - destruct (log_file st); cbn; [now rewrite app_nil_r | reflexivity].
  - intros _. rewrite length_app. cbn. unfold MAX_WATCHES in *. lia.
Qed.

Lemma main_continues_add_watch_recursive fuel os cfg :
  forall path st,
    main_continues st (snd (add_watch_recursive fuel os cfg path st)).
Proof.
  induction fuel as [|fuel IH]; intros path st; [apply main_continues_refl|].
  cbn [add_watch_recursive].
  destruct (os_stat os path) as [[is_dir sz]|];
    [|apply main_continues_log_event].
  destruct is_dir; cbn [negb]; [|apply main_continues_log_event].
  pose proof (main_continues_add_single_watch os path st) as H1.
  destruct (add_single_watch os path st) as [wd st1]. cbn [snd] in H1.
  destruct (wd =? -1); [exact H1|].
  destruct (recursive_mode cfg); [|exact H1].
  destruct (os_readdir os path) as [entries|]; cbn [snd].
  - eapply main_continues_trans; [exact H1|].
    apply main_continues_fold. intros s d_name.
    destruct (strcmp_eq d_name "." || strcmp_eq d_name "..");
      [apply main_continues_refl|].
    cbv zeta.
    destruct (os_stat os _) as [[[|] ?]|];
      [apply IH | apply main_continues_refl | apply main_continues_refl].
  - eapply main_continues_trans; [exact H1 | apply main_continues_log_event].
Qed.

Lemma main_handle_event_steps fuel os cfg ev watch_path st :
  ev_len ev <> 0 ->
  self_excluded (ev_name ev) = false ->
  should_monitor_file cfg (ev_name ev) = true ->
  let full_path := snprintf MAX_PATH_LEN (watch_path ++ "/" ++ ev_name ev) in
  let msg := fun verb => snprintf 1024 (verb ++ full_path) in
  handle_event fuel os cfg ev watch_path st
  = fold_left (main_log_kind (ev_mask ev) msg) (tl main_event_kinds)
      (if has_flag (ev_mask ev) IN_CREATE then
         if recursive_mode cfg && has_flag (ev_mask ev) IN_ISDIR
         then snd (add_watch_recursive fuel os cfg full_path
                     (log_event (msg "Created: ") st))
         else log_event (msg "Created: ") st
       else st).
Proof.
  intros Hlen Hself Hmon full_path msg.
  unfold handle_event.
  apply Z.eqb_neq in Hlen. rewrite Hlen, Hself, Hmon.
  reflexivity.
Qed.

Lemma main_continues_handle_event fuel os cfg ev watch_path st :
  main_continues st (handle_event fuel os cfg ev watch_path st).
Proof.
  destruct (Z.eq_dec (ev_len ev) 0) as [Hlen|Hlen].
  { unfold handle_event. apply Z.eqb_eq in Hlen. rewrite Hlen.
    apply main_continues_refl. }
  destruct (self_excluded (ev_name ev)) eqn:Hself.
  { unfold handle_event. apply Z.eqb_neq in Hlen. rewrite Hlen, Hself.
    apply main_continues_refl. }
  destruct (should_monitor_file cfg (ev_name ev)) eqn:Hmon.
  2:{ unfold handle_event. apply Z.eqb_neq in Hlen. rewrite Hlen, Hself, Hmon.
      apply main_continues_refl. }
  rewrite (main_handle_event_steps fuel os cfg ev watch_path st Hlen Hself Hmon).
  eapply main_continues_trans;
    [|apply main_continues_fold; intros s k; unfold main_log_kind;
      destruct (has_flag (ev_mask ev) (fst k));
      [apply main_continues_log_event | apply main_continues_refl]].
  destruct (has_flag (ev_mask ev) IN_CREATE); [|apply main_continues_refl].
  destruct (recursive_mode cfg && has_flag (ev_mask ev) IN_ISDIR);
    [|apply main_continues_log_event].
  eapply main_continues_trans;
    [apply main_continues_log_event | apply main_continues_add_watch_recursive].
Qed.

Lemma main_continues_dispatch fuel os cfg ev st :
  main_continues st (dispatch fuel os cfg ev st).
Proof.
  unfold dispatch.
  destruct (find_watch_path (ev_wd ev) (watches st));
    [apply main_continues_handle_event | apply main_continues_refl].
Qed.

Lemma find_watch_path_app wd ws more :
  find_watch_path wd (ws ++ more)
  = match find_watch_path wd ws with
    | Some p => Some p
    | None => find_watch_path wd more
    end.
Proof.
  unfold find_watch_path. induction ws as [|w ws IH]; [reflexivity|].
  cbn [app find]. destruct (fst w =? wd); [reflexivity | exact IH].
Qed.

Lemma main_add_single_watch_lookup :
  forall (os : os_env) (path : string) (st : state) (wd : Z),
    fst (add_single_watch os path st) <> -1 ->
    find_watch_path wd
      (watches (snd (add_single_watch os path st)))
    = match find_watch_path wd (watches st) with
      | Some p => Some p
      | None =>
          if fst (add_single_watch os path st) =? wd
          then Some (strncpy (MAX_PATH_LEN - 1) path)
          else None
      end.
Proof.
  intros os path st wd. unfold add_single_watch.
  destruct (Z.of_nat (List.length (watches st)) >=? MAX_WATCHES);
    [intros H; now destruct H|].
  cbv zeta.
  destruct (os_inotify_add_watch os path =? -1);
    [intros H; now destruct H|].
  intros _. cbn [fst snd log_event watches].
  rewrite find_watch_path_app.
  destruct (find_watch_path wd (watches st)); [reflexivity|].
  unfold find_watch_path. cbn [find fst snd].
  now destruct (os_inotify_add_watch os path =? wd).
Qed.

Lemma substring_length_le (n : nat) (s : string) :
  (String.length (String.substring 0 n s) <= n)%nat.
Proof.
  revert s. induction n as [|n IH]; intros [|a s]; simpl; try lia.
  specialize (IH s). lia.
Qed.

Lemma full_path_fits (s : string) :
  strncpy (MAX_PATH_LEN - 1) (snprintf MAX_PATH_LEN s) = snprintf MAX_PATH_LEN s.
Proof. apply strncpy_fits. unfold snprintf. apply substring_length_le. Qed.

Lemma main_continues_lookup st st' wd p :
  main_continues st st' ->
  find_watch_path wd (watches st) = Some p ->
  find_watch_path wd (watches st') = Some p.
Proof.
  intros (ws & ls & Hw & _) H. now rewrite Hw, find_watch_path_app, H.
Qed.

Lemma main_add_watch_recursive_keeps_root fuel os cfg path st size :
  os_stat os path = Some (true, size) ->
  main_continues (snd (add_single_watch os path st))
                 (snd (add_watch_recursive (S fuel) os cfg path st)).
Proof.
  intros Hstat. cbn [add_watch_recursive]. rewrite Hstat. cbn [negb].
  destruct (add_single_watch os path st) as [wd st1]. cbn [snd].
  destruct (wd =? -1); [apply main_continues_refl|].
  destruct (recursive_mode cfg); [|apply main_continues_refl].
  destruct (os_readdir os path) as [entries|]; cbn [snd];
    [|apply main_continues_log_event].
  clear Hstat. apply main_continues_fold. intros s d_name.
  destruct (strcmp_eq d_name "." || strcmp_eq d_name "..");
    [apply main_continues_refl|].
  cbv zeta.
  destruct (os_stat os _) as [[[|] ?]|];
    [apply main_continues_add_watch_recursive
    | apply main_continues_refl | apply main_continues_refl].
Qed.

Lemma main_continues_log_kinds mask msg kinds st :
  main_continues st (fold_left (main_log_kind mask msg) kinds st).
Proof.
  apply main_continues_fold. intros s k. unfold main_log_kind.
  destruct (has_flag mask (fst k));
    [apply main_continues_log_event | apply main_continues_refl].
Qed.

Lemma main_add_watch_recursive_extensions fuel os :
  forall cfg cfg' path st,
    recursive_mode cfg' = recursive_mode cfg ->
    add_watch_recursive fuel os cfg' path st
    = add_watch_recursive fuel os cfg path st.
Proof.
  induction fuel as [|fuel IH]; intros cfg cfg' path st Hr; [reflexivity|].
  cbn [add_watch_recursive]. rewrite Hr.
  destruct (os_stat os path) as [[[|] sz]|]; cbn [negb]; try reflexivity.
  destruct (add_single_watch os path st) as [wd st1].
  destruct (wd =? -1); [reflexivity|].
  destruct (recursive_mode cfg) eqn:Hc; [|reflexivity].
  destruct (os_readdir os path) as [entries|]; [|reflexivity].
  f_equal. revert st1. induction entries as [|e entries IHe]; intros st1;
    [reflexivity|].
  cbn [fold_left]. rewrite IHe. f_equal.
  destruct (strcmp_eq e "." || strcmp_eq e ".."); [reflexivity|].
  cbv zeta. destruct (os_stat os _) as [[[|] ?]|]; try reflexivity.
  rewrite (IH cfg cfg') by congruence. reflexivity.
Qed.

End MainProgress.

(* ================================================================= *)
(** ** main.c: properties of the watch table and the event loop *)

(** The installer of [main.c], on any directory tree and whatever it
    returns, and its event loop, over any batch of events, only add to
    what is there: the watches registered before stay in their slots,
    new ones come behind them, never with the descriptor [-1] and never
    beyond the 1024 slots of the table; the lines written are appended
    to the log file, none before them changed, and every line that goes
    to the console goes to the open log file too. *)
Theorem main_event_loop_only_extends :
  forall (fuel : nat) (os : os_env) (cfg : MainC.config) (st : MainC.state),
    (forall path,
       main_continues st (snd (MainC.add_watch_recursive fuel os cfg path st)))
    /\ (forall events,
          main_continues st (MainStartup.process_events fuel os cfg events st)).
Proof.
  intros fuel os cfg st. split.
  - intros path. apply main_continues_add_watch_recursive.
  - intros events. unfold MainStartup.process_events.
    apply main_continues_fold. intros s event. apply main_continues_dispatch.
Qed.

(** After a successful [add_single_watch] of [main.c] the search of the
    event loop resolves the returned descriptor to the path, cut to the
    4095 bytes of its slot, unless the descriptor was registered before:
    then the older path stays the answer.  Every other descriptor
    resolves as before. *)
Theorem main_add_single_watch_resolves :
  forall (os : os_env) (path : string) (st : MainC.state) (wd : Z),
    fst (MainC.add_single_watch os path st) <> -1 ->
    MainC.find_watch_path wd
      (MainC.watches (snd (MainC.add_single_watch os path st)))
    = match MainC.find_watch_path wd (MainC.watches st) with
      | Some p => Some p
      | None =>
          if fst (MainC.add_single_watch os path st) =? wd
          then Some (strncpy (MAX_PATH_LEN - 1) path)
          else None
      end.
Proof.
  intros os path st wd. apply main_add_single_watch_lookup.
Qed.

Lemma main_add_single_watch_resolves_witness :
  MainC.find_watch_path 2
    (MainC.watches (snd (MainC.add_single_watch ex_tree_os "/srv/sub"
                           ex_main_state)))
  = Some "/srv/sub".
Proof.
  rewrite (main_add_single_watch_resolves ex_tree_os "/srv/sub" ex_main_state 2).
  - vm_compute. reflexivity.
  - vm_compute. discriminate.
Defined.

(** [add_watch_recursive] of [main.c] returns 0 or -1, and 0 exactly
    when the path is a directory, its own watch could be added and, in
    recursive mode, the directory could be opened: no failure below the
    directory changes the result.  When the path cannot be examined or
    is no directory the table of watches is left as it was; when only
    opening the directory fails the result is -1 although the watch on
    the directory stays registered. *)
Theorem main_add_watch_recursive_result :
  forall (fuel : nat) (os : os_env) (cfg : MainC.config) (path : string)
         (st : MainC.state),
    let r := MainC.add_watch_recursive (S fuel) os cfg path st in
    let added := fst (MainC.add_single_watch os path st) in
    (fst r = 0 \/ fst r = -1)
    /\ (fst r = 0 <->
        (exists size, os_stat os path = Some (true, size))
        /\ added <> -1
        /\ (MainC.recursive_mode cfg = true -> os_readdir os path <> None))
    /\ ((forall size, os_stat os path <> Some (true, size)) ->
        MainC.watches (snd r) = MainC.watches st)
    /\ ((exists size, os_stat os path = Some (true, size)) ->
        added <> -1 -> MainC.recursive_mode cfg = true ->
        os_readdir os path = None ->
        fst r = -1
        /\ MainC.find_watch_path added (MainC.watches (snd r)) <> None).
Proof.
  intros fuel os cfg path st r added. subst r added.
  cbn [MainC.add_watch_recursive].
  destruct (os_stat os path) as [[is_dir sz]|].
  2:{ cbn [fst snd MainC.log_event MainC.watches].
      split; [now right|]. split; [|split].
      - split; [discriminate | intros [[? H] _]; discriminate].
      - reflexivity.
      - intros [? H]. discriminate. }
  destruct is_dir; cbn [negb].
  2:{ cbn [fst snd MainC.log_event MainC.watches].
      split; [now right|]. split; [|split].
      - split; [discriminate | intros [[? H] _]; discriminate].
      - reflexivity.
      - intros [? H]. discriminate. }
  pose proof (main_add_single_watch_lookup os path st
                (fst (MainC.add_single_watch os path st))) as Hres.
  destruct (MainC.add_single_watch os path st) as [wd st1]. cbn [fst snd] in *.
  destruct (Z.eqb_spec wd (-1)) as [Hwd|Hwd].
  { cbn [fst snd]. split; [now right|]. split; [|split].
    - split; [discriminate | intros (_ & H & _); now destruct H].
    - intros H. now destruct (H sz).
    - intros _ H. now destruct H. }
  destruct (MainC.recursive_mode cfg).
  2:{ cbn [fst snd]. split; [now left|]. split; [|split].
      - split; [|reflexivity]. intros _.
        split; [now exists sz|]. split; [exact Hwd | discriminate].
      - intros H. now destruct (H sz).
      - discriminate. }
  destruct (os_readdir os path) as [entries|]; cbn [fst snd].
  - split; [now left|]. split; [|split].
    + split; [|reflexivity]. intros _.
      split; [now exists sz|]. split; [exact Hwd | discriminate].
    + intros H. now destruct (H sz).
    + discriminate.
  - split; [now right|]. split; [|split].
    + split; [discriminate | intros (_ & _ & H); now destruct (H eq_refl)].
    + intros H. now destruct (H sz).
    + intros _ _ _ _. split; [reflexivity|].
      cbn [MainC.log_event MainC.watches]. rewrite (Hres Hwd).
      destruct (MainC.find_watch_path wd (MainC.watches st)); [discriminate|].
      rewrite Z.eqb_refl. discriminate.
Qed.

(** A directory created inside a watched one is watched from its
    [Created] event on: in recursive mode, when the name passes the
    filters and the new directory can be examined and watched, the
    descriptor the kernel gives for it resolves to its full path once
    the event is handled, whatever the directory holds. *)
Theorem main_new_directory_is_watched :
  forall (fuel : nat) (os : os_env) (cfg : MainC.config) (ev : inotify_event)
         (st : MainC.state) (watch_path : string) (size : Z),
    let full_path := snprintf MAX_PATH_LEN (watch_path ++ "/" ++ ev_name ev) in
    let wd := os_inotify_add_watch os full_path in
    MainC.find_watch_path (ev_wd ev) (MainC.watches st) = Some watch_path ->
    ev_len ev <> 0 ->
    MainC.self_excluded (ev_name ev) = false ->
    MainC.should_monitor_file cfg (ev_name ev) = true ->
    MainC.recursive_mode cfg = true ->
    has_flag (ev_mask ev) IN_CREATE = true ->
    has_flag (ev_mask ev) IN_ISDIR = true ->
    os_stat os full_path = Some (true, size) ->
    Z.of_nat (List.length (MainC.watches st)) < MainC.MAX_WATCHES ->
    wd <> -1 ->
    MainC.find_watch_path wd (MainC.watches st) = None ->
    MainC.find_watch_path wd
      (MainC.watches (MainC.dispatch (S fuel) os cfg ev st))
    = Some full_path.
Proof.
  intros fuel os cfg ev st watch_path size full_path wd
         Hwp Hlen Hself Hmon Hrec Hcreate Hdir Hstat Hroom Hwd Hfresh.
  unfold MainC.dispatch. rewrite Hwp.
  rewrite (main_handle_event_steps (S fuel) os cfg ev watch_path st
             Hlen Hself Hmon).
  rewrite Hcreate, Hrec, Hdir. cbn [andb]. fold full_path.
  set (st1 := MainC.log_event (snprintf 1024 ("Created: " ++ full_path)) st).
  eapply main_continues_lookup.
  { eapply main_continues_trans;
      [apply (main_add_watch_recursive_keeps_root fuel os cfg full_path st1 size
                Hstat)
      | apply main_continues_log_kinds]. }
  assert (Hok : fst (MainC.add_single_watch os full_path st1) = wd).
  { unfold MainC.add_single_watch. subst st1. cbn [MainC.log_event MainC.watches].
    destruct (Z.geb_spec (Z.of_nat (List.length (MainC.watches st)))
                         MainC.MAX_WATCHES) as [H|_]; [lia|].
    cbv zeta. fold wd. apply Z.eqb_neq in Hwd. now rewrite Hwd. }
  rewrite main_add_single_watch_lookup by (rewrite Hok; exact Hwd).
  rewrite Hok. subst st1. cbn [MainC.log_event MainC.watches].
  rewrite Hfresh, Z.eqb_refl. f_equal. apply full_path_fits.
Qed.

Lemma main_new_directory_is_watched_witness :
  MainC.find_watch_path 2
    (MainC.watches (MainC.dispatch 1 ex_tree_os ex_open_cfg ex_mkdir_event
                                   ex_main_state))
  = Some "/srv/sub".
Proof.
  apply (main_new_directory_is_watched 0 ex_tree_os ex_open_cfg ex_mkdir_event
           ex_main_state "/srv" 4096);
    try (vm_compute; reflexivity); vm_compute; discriminate.
Defined.

(** With any extension configured, [should_monitor_file] of [main.c]
    rejects every name without a dot, so that an event for such a name,
    the creation of a subdirectory [build] say, changes nothing: no line
    is logged and no watch is added.  The installer does not look at
    the extensions: the directories found at startup are watched
    whatever their names. *)
Theorem main_extensions_hide_new_directories :
  forall (fuel : nat) (os : os_env) (cfg : MainC.config) (ev : inotify_event)
         (st : MainC.state),
    MainC.file_extensions cfg <> [] ->
    char_free "." (ev_name ev) ->
    MainC.dispatch fuel os cfg ev st = st
    /\ forall path,
         MainC.add_watch_recursive fuel os cfg path st
         = MainC.add_watch_recursive fuel os
             (MainC.mkConfig (MainC.recursive_mode cfg) []) path st.
Proof.
  intros fuel os cfg ev st Hne Hdot. split.
  - unfold MainC.dispatch.
    destruct (MainC.find_watch_path (ev_wd ev) (MainC.watches st)); [|reflexivity].
    unfold MainC.handle_event, MainC.should_monitor_file.
    rewrite (extension_filter_no_dot _ _ Hne Hdot). cbn [negb].
    destruct (ev_len ev =? 0); [reflexivity|].
    now destruct (MainC.self_excluded (ev_name ev)).
  - intros path. now apply main_add_watch_recursive_extensions.
Qed.

Lemma main_extensions_hide_new_directories_witness :
  MainC.dispatch 1 ex_tree_os ex_main_cfg ex_mkdir_event ex_main_state
  = ex_main_state
  /\ MainC.find_watch_path 2
       (MainC.watches (snd (MainC.add_watch_recursive 2 ex_tree_os ex_main_cfg
                              "/srv" ex_main_state)))
     = Some "/srv/sub".
Proof.
  destruct (main_extensions_hide_new_directories 2 ex_tree_os ex_main_cfg
              ex_mkdir_event ex_main_state) as [_ H].
  - discriminate.
  - vm_compute. plain_lines.
  - split.
    + apply (main_extensions_hide_new_directories 1 ex_tree_os ex_main_cfg
               ex_mkdir_event ex_main_state); [discriminate | vm_compute; plain_lines].
    + rewrite H. vm_compute. reflexivity.
Defined.

(** An event of [main.c] that passes the filters, and is not the
    creation of a directory in recursive mode, writes one line for each
    of its flags among the eight kinds the handler knows, in the order
    of its tests, each with the full path of the file, and nothing
    else. *)
Theorem main_one_line_per_event_kind :
  forall (fuel : nat) (os : os_env) (cfg : MainC.config) (ev : inotify_event)
         (watch_path : string) (st : MainC.state) (lines : list string),
    ev_len ev <> 0 ->
    MainC.self_excluded (ev_name ev) = false ->
    MainC.should_monitor_file cfg (ev_name ev) = true ->
    has_flag (ev_mask ev) IN_CREATE
    && (MainC.recursive_mode cfg && has_flag (ev_mask ev) IN_ISDIR) = false ->
    MainC.log_file st = Some lines ->
    MainC.log_file (MainC.handle_event fuel os cfg ev watch_path st)
    = Some (lines
            ++ map (fun k => snprintf 1024
                               (snd k ++ snprintf MAX_PATH_LEN
                                           (watch_path ++ "/" ++ ev_name ev)))
                   (filter (fun k => has_flag (ev_mask ev) (fst k))
                           main_event_kinds))%list.
Proof.
  intros fuel os cfg ev watch_path st lines Hlen Hself Hmon Hdir Hlog.
  rewrite (main_handle_event_steps fuel os cfg ev watch_path st Hlen Hself Hmon).
  cbv zeta.
  set (msg := fun verb => snprintf 1024
                            (verb ++ snprintf MAX_PATH_LEN
                                       (watch_path ++ "/" ++ ev_name ev))).
  set (created := if has_flag (ev_mask ev) IN_CREATE then _ else st).
  assert (Hc : MainC.log_file created
               = Some (lines
                       ++ map (fun k => msg (snd k))
                              (filter (fun k => has_flag (ev_mask ev) (fst k))
                                      [(IN_CREATE, "Created: ")]))%list).
  { unfold created. cbn [filter fst].
    destruct (has_flag (ev_mask ev) IN_CREATE).
    - cbn [andb] in Hdir. rewrite Hdir.
      cbn [MainC.log_event MainC.log_file map snd]. now rewrite Hlog.
    - cbn [map]. now rewrite app_nil_r. }
  unfold main_log_kind.
  rewrite (main_log_steps (ev_mask ev) msg (tl main_event_kinds) created _ Hc).
  rewrite <- app_assoc, <- map_app, <- filter_app. reflexivity.
Qed.

Lemma main_one_line_per_event_kind_witness :
  MainC.log_file
    (MainC.handle_event 1 ex_tree_os ex_main_cfg
       (mkEvent 1 (Z.lor IN_DELETE IN_ISDIR) 16 "old.txt") "/srv"
       ex_main_state)
  = Some ["Deleted: /srv/old.txt"].
Proof.
  apply (main_one_line_per_event_kind 1 ex_tree_os ex_main_cfg
           (mkEvent 1 (Z.lor IN_DELETE IN_ISDIR) 16 "old.txt") "/srv"
           ex_main_state []);
    try (vm_compute; reflexivity); vm_compute; discriminate.
Defined.

(* ================================================================= *)
(** ** advanced_monitor.c: the tables, the log and the counters *)

Section AdvancedProgress.

Import AdvancedC.

Lemma wrap64_small z : unsigned_long z -> wrap64 z = z.
Proof. intros H. unfold wrap64. now apply Z.mod_small. Qed.

Lemma wrap64_range z : unsigned_long (wrap64 z).
Proof. unfold unsigned_long, wrap64. apply Z.mod_pos_bound. lia. Qed.

Lemma wrap64_add z n m : wrap64 (wrap64 (z + n) + m) = wrap64 (z + (n + m)).
Proof.
  unfold wrap64. rewrite Zplus_mod_idemp_l. f_equal. lia.
Qed.

Lemma advanced_handle_event_steps fuel os cfg ev watch_path st :
  handle_event fuel os cfg ev watch_path st
  = if ev_len ev =? 0 then st
    else if self_excluded (ev_name ev) then st
    else
      if fst (should_monitor_file cfg (ev_name ev) st)
      then fold_left (fun s f => f s) (advanced_steps fuel os cfg ev watch_path)
                     (snd (should_monitor_file cfg (ev_name ev) st))
      else snd (should_monitor_file cfg (ev_name ev) st).
Proof.
  unfold handle_event.
  destruct (ev_len ev =? 0); [reflexivity|].
  destruct (self_excluded (ev_name ev)); [reflexivity|].
  destruct (should_monitor_file cfg (ev_name ev) st) as [[|] st1];
    reflexivity.
Qed.

Lemma advanced_continues_refl st : advanced_continues st st.
Proof.
  exists [], []. rewrite !app_nil_r. cbn [List.length Z.of_nat].
  rewrite !Z.add_0_r.
  split; [reflexivity|]. split; [constructor|]. split; [reflexivity|].
  split; [destruct (log_file st); cbn; [now rewrite app_nil_r | reflexivity]|].
  split; [intros H; now rewrite wrap64_small|].
  split; [intros H; now rewrite wrap64_small | tauto].
Qed.

Lemma advanced_continues_trans st1 st2 st3 :
  advanced_continues st1 st2 -> advanced_continues st2 st3 ->
  advanced_continues st1 st3.
Proof.
  intros (ws & ls & Hw & Hf & Hc & Hl & He & Hm & Hb)
         (ws' & ls' & Hw' & Hf' & Hc' & Hl' & He' & Hm' & Hb').
  exists (ws ++ ws')%list, (ls ++ ls')%list.
  split; [now rewrite Hw', Hw, app_assoc|].
  split; [now apply Forall_app|].
  split; [now rewrite Hc', Hc, app_assoc|].
  split.
  { rewrite Hl', Hl.
    destruct (log_file st1); cbn; [now rewrite app_assoc | reflexivity]. }
  split.
  { intros H. rewrite He', (He H); [|rewrite (He H); apply wrap64_range].
    rewrite wrap64_add, length_app. f_equal. lia. }
  split; [|tauto].
  intros H. rewrite Hm', (Hm H); [|rewrite (Hm H); apply wrap64_range].
  rewrite wrap64_add, length_app. f_equal. lia.
Qed.

Lemma advanced_continues_log_event m st : advanced_continues st (log_event m st).
Proof.
  exists [], [m]. cbn. rewrite app_nil_r, Z.add_0_r.
  split; [reflexivity|]. split; [constructor|]. split; [reflexivity|].
  split; [now destruct (log_file st)|].
  split; [reflexivity|].
  split; [intros H; now rewrite wrap64_small | tauto].
Qed.

Lemma advanced_continues_fold {A : Type} (f : state -> A -> state) (l : list A) :
  (forall s x, advanced_continues s (f s x)) ->
  forall st, advanced_continues st (fold_left f l st).
Proof.
  intros Hf. induction l as [|x l IH]; intros st; cbn [fold_left].
  - apply advanced_continues_refl.
  - eapply advanced_continues_trans; [apply Hf | apply IH].
Qed.

Lemma advanced_continues_add_single_watch os path st :
  advanced_continues st (snd (add_single_watch os path st)).
Proof.
  unfold add_single_watch.
  destruct (Z.of_nat (List.length (watches st)) >=? MAX_WATCHES) eqn:Hfull;
    [apply advanced_continues_log_event|].
  cbv zeta.
  destruct (os_inotify_add_watch os path =? -1) eqn:Hwd;
    [apply advanced_continues_log_event|].
  cbn [snd log_event watches log_file console events_processed files_monitored
       file_hashes hash_capacity].
  exists [(os_inotify_add_watch os path, strncpy (MAX_PATH_LEN - 1) path)],
         [snprintf 512 ("[WATCH] Watch added: " ++ path)].
  cbn [watches console log_file events_processed files_monitored List.length].
  split; [reflexivity|]. split.
  { constructor; [|constructor]. cbn. now apply Z.eqb_neq. }
  split; [reflexivity|]. split; [now destruct (log_file st)|].
  split; [reflexivity|]. split; [reflexivity|].
  intros _. rewrite length_app. cbn. unfold MAX_WATCHES in *. lia.
Qed.

Lemma advanced_continues_add_watch_recursive fuel os cfg :
  forall path st,
    advanced_continues st (snd (add_watch_recursive fuel os cfg path st)).
Proof.
  induction fuel as [|fuel IH]; intros path st; [apply advanced_continues_refl|].
  cbn [add_watch_recursive].
  destruct (os_stat os path) as [[is_dir sz]|];
    [|apply advanced_continues_log_event].
  destruct is_dir; cbn [negb]; [|apply advanced_continues_log_event].
  pose proof (advanced_continues_add_single_watch os path st) as H1.
  destruct (add_single_watch os path st) as [wd st1]. cbn [snd] in H1.
  destruct (wd =? -1); [exact H1|].
  destruct (recursive_mode cfg); [|exact H1].
  destruct (os_readdir os path) as [entries|]; cbn [snd].
  - eapply advanced_continues_trans; [exact H1|].
    apply advanced_continues_fold. intros s d_name.
    destruct (strcmp_eq d_name "." || strcmp_eq d_name "..");
      [apply advanced_continues_refl|].
    cbv zeta.
    destruct (os_stat os _) as [[[|] ?]|];
      [apply IH | apply advanced_continues_refl | apply advanced_continues_refl].
  - eapply advanced_continues_trans; [exact H1 | apply advanced_continues_log_event].
Qed.

Lemma advanced_continues_set_file_hashes hs cap st :
  advanced_continues st (set_file_hashes hs cap st).
Proof.
  exists [], []. cbn. rewrite !app_nil_r, !Z.add_0_r.
  split; [reflexivity|]. split; [constructor|]. split; [reflexivity|].
  split; [destruct (log_file st); cbn; [now rewrite app_nil_r | reflexivity]|].
  split; [intros H; now rewrite wrap64_small|].
  split; [intros H; now rewrite wrap64_small | tauto].
Qed.

Lemma advanced_continues_has_file_changed os cfg path st :
  advanced_continues st (snd (has_file_changed os cfg path st)).
Proof.
  unfold has_file_changed.
  destruct (negb (enable_checksum cfg)); [apply advanced_continues_refl|].
  destruct (find_hash path (file_hashes st)) as [[i e]|].
  - destruct (os_file_hash os path) as [h|]; [|apply advanced_continues_refl].
    cbv zeta. destruct (negb (strcmp_eq (hash e) h));
      [apply advanced_continues_set_file_hashes | apply advanced_continues_refl].
  - cbv zeta. destruct (os_file_hash os path);
      apply advanced_continues_set_file_hashes.
Qed.

Lemma advanced_continues_match_patterns cfg filename st :
  advanced_continues st (snd (match_patterns cfg filename st)).
Proof.
  unfold match_patterns.
  destruct (Z.of_nat (List.length (patterns cfg)) =? 0);
    [apply advanced_continues_refl|].
  induction (patterns cfg) as [|r rest IH]; [apply advanced_continues_refl|].
  cbn [match_patterns_loop].
  destruct (compiled_regex r filename); [|exact IH].
  destruct (action r =? 0); [apply advanced_continues_refl|].
  destruct (action r =? 1); [apply advanced_continues_refl|].
  destruct (action r =? 2); [apply advanced_continues_log_event | exact IH].
Qed.

Lemma advanced_continues_should_monitor_file cfg filename st :
  advanced_continues st (snd (should_monitor_file cfg filename st)).
Proof.
  unfold should_monitor_file.
  pose proof (advanced_continues_match_patterns cfg filename st) as H.
  destruct (match_patterns cfg filename st) as [ok st1].
  now destruct (negb ok).
Qed.

Lemma advanced_continues_steps fuel os cfg ev watch_path :
  Forall (fun f => forall s, advanced_continues s (f s))
         (advanced_steps fuel os cfg ev watch_path).
Proof.
  unfold advanced_steps. cbv zeta.
  repeat (constructor; [intros s|]); [| | | | | | | | |constructor];
    try (destruct (has_flag (ev_mask ev) _);
         [|apply advanced_continues_refl]);
    try apply advanced_continues_log_event.
  - destruct (os_stat os _); [|apply advanced_continues_refl].
    destruct (_ >? _);
      [apply advanced_continues_log_event | apply advanced_continues_refl].
  - destruct (recursive_mode cfg && has_flag (ev_mask ev) IN_ISDIR);
      [|apply advanced_continues_log_event].
    eapply advanced_continues_trans;
      [apply advanced_continues_log_event
      | apply advanced_continues_add_watch_recursive].
  - pose proof (advanced_continues_has_file_changed os cfg
                  (snprintf MAX_PATH_LEN (watch_path ++ "/" ++ ev_name ev)) s) as H.
    destruct (has_file_changed os cfg _ s) as [[|] s1]; cbn [snd] in H;
      [|exact H].
    eapply advanced_continues_trans; [exact H | apply advanced_continues_log_event].
Qed.

Lemma advanced_continues_run (fs : list (state -> state)) :
  Forall (fun f => forall s, advanced_continues s (f s)) fs ->
  forall st, advanced_continues st (fold_left (fun s f => f s) fs st).
Proof.
  induction 1 as [|f fs Hf _ IH]; intros st; cbn [fold_left].
  - apply advanced_continues_refl.
  - eapply advanced_continues_trans; [apply Hf | apply IH].
Qed.

Lemma advanced_continues_handle_event fuel os cfg ev watch_path st :
  advanced_continues st (handle_event fuel os cfg ev watch_path st).
Proof.
  rewrite advanced_handle_event_steps.
  destruct (ev_len ev =? 0); [apply advanced_continues_refl|].
  destruct (self_excluded (ev_name ev)); [apply advanced_continues_refl|].
  destruct (fst (should_monitor_file cfg (ev_name ev) st));
    [|apply advanced_continues_should_monitor_file].
  eapply advanced_continues_trans;
    [apply advanced_continues_should_monitor_file|].
  apply advanced_continues_run, advanced_continues_steps.
Qed.

Lemma advanced_continues_dispatch fuel os cfg ev st :
  advanced_continues st (dispatch fuel os cfg ev st).
Proof.
  unfold dispatch.
  destruct (find_watch_path (ev_wd ev) (watches st));
    [apply advanced_continues_handle_event | apply advanced_continues_refl].
Qed.

End AdvancedProgress.

Section AdvancedCacheFrame.

Import AdvancedC.

Lemma advanced_cache_log_event m st :
  advanced_cache (log_event m st) = advanced_cache st.
Proof. reflexivity. Qed.

Lemma advanced_cache_fold {A : Type} (f : state -> A -> state) (l : list A) :
  (forall s x, advanced_cache (f s x) = advanced_cache s) ->
  forall st, advanced_cache (fold_left f l st) = advanced_cache st.
Proof.
  intros Hf. induction l as [|x l IH]; intros st; cbn [fold_left];
    [reflexivity|]. now rewrite IH, Hf.
Qed.

Lemma advanced_cache_add_single_watch os path st :
  advanced_cache (snd (add_single_watch os path st)) = advanced_cache st.
Proof.
  unfold add_single_watch.
  destruct (Z.of_nat (List.length (watches st)) >=? MAX_WATCHES); [reflexivity|].
  cbv zeta. now destruct (os_inotify_add_watch os path =? -1).
Qed.

Lemma advanced_cache_add_watch_recursive fuel os cfg :
  forall path st,
    advanced_cache (snd (add_watch_recursive fuel os cfg path st))
    = advanced_cache st.
Proof.
  induction fuel as [|fuel IH]; intros path st; [reflexivity|].
  cbn [add_watch_recursive].
  destruct (os_stat os path) as [[is_dir sz]|]; [|reflexivity].
  destruct is_dir; cbn [negb]; [|reflexivity].
  pose proof (advanced_cache_add_single_watch os path st) as H1.
  destruct (add_single_watch os path st) as [wd st1]. cbn [snd] in H1.
  destruct (wd =? -1); [exact H1|].
  destruct (recursive_mode cfg); [|exact H1].
  destruct (os_readdir os path) as [entries|]; cbn [snd];
    [|now rewrite advanced_cache_log_event].
  rewrite <- H1. apply advanced_cache_fold. intros s d_name.
  destruct (strcmp_eq d_name "." || strcmp_eq d_name ".."); [reflexivity|].
  cbv zeta. destruct (os_stat os _) as [[[|] ?]|]; [apply IH | | ]; reflexivity.
Qed.

Lemma advanced_cache_should_monitor_file cfg filename st :
  advanced_cache (snd (should_monitor_file cfg filename st)) = advanced_cache st.
Proof.
  unfold should_monitor_file.
  assert (H : advanced_cache (snd (match_patterns cfg filename st))
              = advanced_cache st).
  { unfold match_patterns.
    destruct (Z.of_nat (List.length (patterns cfg)) =? 0); [reflexivity|].
    induction (patterns cfg) as [|r rest IH]; [reflexivity|].
    cbn [match_patterns_loop].
    destruct (compiled_regex r filename); [|exact IH].
    destruct (action r =? 0); [reflexivity|].
    destruct (action r =? 1); [reflexivity|].
    destruct (action r =? 2); [reflexivity | exact IH]. }
  destruct (match_patterns cfg filename st) as [ok st1].
  now destruct (negb ok).
Qed.

Lemma advanced_cache_has_file_changed_off os cfg path st :
  enable_checksum cfg = false ->
  has_file_changed os cfg path st = (true, st).
Proof. intros H. unfold has_file_changed. now rewrite H. Qed.

Lemma advanced_cache_steps fuel os cfg ev watch_path :
  enable_checksum cfg = false \/ has_flag (ev_mask ev) IN_MODIFY = false ->
  Forall (fun f => forall s, advanced_cache (f s) = advanced_cache s)
         (advanced_steps fuel os cfg ev watch_path).
Proof.
  intros Hoff. unfold advanced_steps. cbv zeta.
  repeat (constructor; [intros s|]); [| | | | | | | | |constructor];
    try (match goal with
         | |- context [has_flag (ev_mask ev) ?flag] =>
             destruct (has_flag (ev_mask ev) flag) eqn:Hflag; [|reflexivity]
         end);
    try reflexivity.
  - destruct (os_stat os _); [|reflexivity]. now destruct (_ >? _).
  - destruct (recursive_mode cfg && has_flag (ev_mask ev) IN_ISDIR);
      [|reflexivity].
    now rewrite advanced_cache_add_watch_recursive.
  - destruct Hoff as [Hoff|Hoff]; [|discriminate].
    now rewrite advanced_cache_has_file_changed_off.
Qed.

Lemma advanced_cache_run (fs : list (state -> state)) :
  Forall (fun f => forall s, advanced_cache (f s) = advanced_cache s) fs ->
  forall st, advanced_cache (fold_left (fun s f => f s) fs st) = advanced_cache st.
Proof.
  induction 1 as [|f fs Hf _ IH]; intros st; cbn [fold_left]; [reflexivity|].
  now rewrite IH, Hf.
Qed.

End AdvancedCacheFrame.

Lemma advanced_has_file_changed_console os cfg path st :
  AdvancedC.console (snd (AdvancedC.has_file_changed os cfg path st))
  = AdvancedC.console st.
Proof.
  unfold AdvancedC.has_file_changed.
  destruct (negb (AdvancedC.enable_checksum cfg)); [reflexivity|].
  destruct (AdvancedC.find_hash path (AdvancedC.file_hashes st)) as [[i e]|].
  - destruct (os_file_hash os path) as [h|]; [|reflexivity].
    cbv zeta. now destruct (negb (strcmp_eq (AdvancedC.hash e) h)).
  - cbv zeta. now destruct (os_file_hash os path).
Qed.

(* ================================================================= *)
(** ** advanced_monitor.c: properties of the event loop *)

(** The installer of [advanced_monitor.c] and its event loop only add
    to what is there, as those of [main.c] do: watches come behind the
    registered ones, never with the descriptor [-1] nor beyond the 1024
    slots, and lines are appended to the console and to the open log
    file.  Its counter [events_processed] goes up by one for each line
    written, not for each event, and [files_monitored] by one for each
    watch added; both wrap at [2^64]. *)
Theorem advanced_event_loop_counts_lines :
  forall (fuel : nat) (os : os_env) (cfg : AdvancedC.config)
         (st : AdvancedC.state),
    (forall path,
       advanced_continues st
         (snd (AdvancedC.add_watch_recursive fuel os cfg path st)))
    /\ (forall events,
          advanced_continues st (advanced_process_events fuel os cfg events st)).
Proof.
  intros fuel os cfg st. split.
  - intros path. apply advanced_continues_add_watch_recursive.
  - intros events. unfold advanced_process_events.
    apply advanced_continues_fold. intros s event.
    apply advanced_continues_dispatch.
Qed.

(** Only the handling of [IN_MODIFY] touches the checksum cache of
    [advanced_monitor.c]: an event without this flag, and any event
    while checksums are disabled, leaves the entries and the size of
    the table as they were. *)
Theorem advanced_cache_touched_by_modify_only :
  forall (fuel : nat) (os : os_env) (cfg : AdvancedC.config)
         (ev : inotify_event) (st : AdvancedC.state),
    AdvancedC.enable_checksum cfg = false
    \/ has_flag (ev_mask ev) IN_MODIFY = false ->
    advanced_cache (AdvancedC.dispatch fuel os cfg ev st) = advanced_cache st.
Proof.
  intros fuel os cfg ev st Hoff. unfold AdvancedC.dispatch.
  destruct (AdvancedC.find_watch_path (ev_wd ev) (AdvancedC.watches st));
    [|reflexivity].
  rewrite advanced_handle_event_steps.
  destruct (ev_len ev =? 0); [reflexivity|].
  destruct (AdvancedC.self_excluded (ev_name ev)); [reflexivity|].
  destruct (fst (AdvancedC.should_monitor_file cfg (ev_name ev) st));
    [|apply advanced_cache_should_monitor_file].
  rewrite advanced_cache_run by now apply advanced_cache_steps.
  apply advanced_cache_should_monitor_file.
Qed.

Lemma advanced_cache_touched_by_modify_only_witness :
  advanced_cache
    (AdvancedC.dispatch 1 (ex_os_with_file "/srv/notes.txt" digest_a)
       ex_adv_cfg ex_attrib_event ex_adv_state)
  = advanced_cache ex_adv_state.
Proof.
  apply (advanced_cache_touched_by_modify_only 1
           (ex_os_with_file "/srv/notes.txt" digest_a) ex_adv_cfg
           ex_attrib_event ex_adv_state).
  right. vm_compute. reflexivity.
Defined.

(** A write to a file whose digest is the cached one leaves no trace
    in [advanced_monitor.c]: for an [IN_MODIFY] event on a readable
    file that passes the filters without an alert and is not large, the
    state is unchanged when the cache holds the digest of the file;
    otherwise there is one [Modified] line, with the size of the file,
    and the cache holds the digest afterwards.  A file is large when
    its size exceeds the limit the program computes: the [int] product
    [max_file_size_mb * 1024 * 1024], which wraps around from a limit
    of 2048 MB on. *)
Theorem advanced_modify_reported_on_new_digest :
  forall (fuel : nat) (os : os_env) (cfg : AdvancedC.config)
         (ev : inotify_event) (watch_path : string) (st : AdvancedC.state)
         (d : string) (size : Z),
    let full_path := snprintf MAX_PATH_LEN (watch_path ++ "/" ++ ev_name ev) in
    let st' := AdvancedC.handle_event fuel os cfg ev watch_path st in
    ev_len ev <> 0 ->
    AdvancedC.self_excluded (ev_name ev) = false ->
    AdvancedC.should_monitor_file cfg (ev_name ev) st = (true, st) ->
    ev_mask ev = IN_MODIFY ->
    AdvancedC.enable_checksum cfg = true ->
    os_file_hash os full_path = Some d ->
    String.length d = 64%nat ->
    os_stat os full_path = Some (false, size) ->
    size <= int_mul (int_mul (AdvancedC.max_file_size_mb cfg) 1024) 1024 ->
    (advanced_cached full_path st = Some d -> st' = st)
    /\ (advanced_cached full_path st <> Some d ->
        AdvancedC.console st'
        = (AdvancedC.console st
             ++ [snprintf 1024 ("Modified: " ++ full_path ++ " ("
                                  ++ fmt_int size ++ " bytes)")])%list
        /\ advanced_cached full_path st' = Some d).
Proof.
  intros fuel os cfg ev watch_path st d size full_path st'
         Hlen Hself Hmon Hmask Hsum Hhash Hd Hstat Hsize.
  assert (Hfit : (String.length full_path < MAX_PATH_LEN)%nat).
  { subst full_path. unfold snprintf.
    pose proof (substring_length_le (MAX_PATH_LEN - 1)
                  (watch_path ++ "/" ++ ev_name ev)) as H.
    unfold MAX_PATH_LEN in *. lia. }
  pose proof (has_file_changed_contract cfg Hsum os full_path d st Hhash Hd Hfit)
    as Hc.
  assert (E : st' = let (changed, s) :=
                      AdvancedC.has_file_changed os cfg full_path st in
                    if changed
                    then AdvancedC.log_event
                           (snprintf 1024 ("Modified: " ++ full_path ++ " ("
                                             ++ fmt_int size ++ " bytes)")) s
                    else s).
  { subst st'. rewrite advanced_handle_event_steps.
    apply Z.eqb_neq in Hlen. rewrite Hlen, Hself, Hmon. cbn [fst snd].
    unfold advanced_steps. fold full_path. rewrite Hmask, Hstat.
    assert (Hgt : (size >? int_mul (int_mul (AdvancedC.max_file_size_mb cfg)
                                            1024) 1024) = false)
      by (rewrite Z.gtb_ltb; apply Z.ltb_ge; lia).
    cbv beta iota zeta delta [fold_left].
    rewrite Hgt.
    reflexivity. }
  rewrite E. clear E.
  pose proof (advanced_has_file_changed_console os cfg full_path st) as Hcon.
  destruct (advanced_cached full_path st) as [d0|] eqn:Hcached.
  - destruct Hc as (Hr & Hsame & Hdiff).
    destruct (AdvancedC.has_file_changed os cfg full_path st) as [changed s].
    cbn [fst snd] in *. subst changed.
    destruct (String.eqb_spec d0 d) as [->|Hne]; cbn [negb].
    + split; [intros _; now apply Hsame | intros H; now destruct H].
    + split; [intros [= H]; now destruct Hne|]. intros _.
      split; [|now apply Hdiff].
      cbn [AdvancedC.log_event AdvancedC.console]. now rewrite Hcon.
  - destruct Hc as (Hr & Hnew).
    destruct (AdvancedC.has_file_changed os cfg full_path st) as [changed s].
    cbn [fst snd] in *. subst changed.
    split; [discriminate|]. intros _. split; [|exact Hnew].
    cbn [AdvancedC.log_event AdvancedC.console]. now rewrite Hcon.
Qed.

Lemma advanced_modify_reported_on_new_digest_witness :
  AdvancedC.handle_event 1 (ex_os_with_file "/srv/notes.txt" digest_a)
    ex_adv_cfg (mkEvent 1 IN_MODIFY 16 "notes.txt") "/srv" ex_seen_state
  = ex_seen_state.
Proof.
  apply (advanced_modify_reported_on_new_digest 1
           (ex_os_with_file "/srv/notes.txt" digest_a) ex_adv_cfg
           (mkEvent 1 IN_MODIFY 16 "notes.txt") "/srv" ex_seen_state
           digest_a 12);
    try (vm_compute; reflexivity); vm_compute; discriminate.
Defined.

(* ================================================================= *)
(** ** The checksum caches: what a check leaves alone *)

Section AdvancedCacheLocal.

Import AdvancedC.

Lemma advanced_find_hash_snoc q hs e :
  find_hash q (hs ++ [e])
  = match find_hash q hs with
    | Some r => Some r
    | None => if strcmp_eq (filepath e) q then Some (List.length hs, e) else None
    end.
Proof.
  induction hs as [|h hs IH]; cbn [app find_hash List.length].
  - now destruct (strcmp_eq (filepath e) q).
  - destruct (strcmp_eq (filepath h) q); [reflexivity|].
    rewrite IH. destruct (find_hash q hs) as [[i x]|]; [reflexivity|].
    now destruct (strcmp_eq (filepath e) q).
Qed.

Lemma advanced_find_hash_other p q hs i e e' :
  find_hash p hs = Some (i, e) -> filepath e' = filepath e -> q <> p ->
  option_map snd (find_hash q (update_nth i e' hs))
  = option_map snd (find_hash q hs).
Proof.
  intros Hp Hk Hq. revert i Hp.
  induction hs as [|h hs IH]; intros i; cbn [find_hash]; [discriminate|].
  unfold strcmp_eq.
  destruct (String.eqb_spec (filepath h) p) as [Eh|Eh].
  - intros [= <- <-]. cbn [update_nth find_hash]. unfold strcmp_eq.
    rewrite Hk.
    destruct (String.eqb_spec (filepath h) q) as [Eq|_]; [congruence|].
    reflexivity.
  - destruct (find_hash p hs) as [[j x]|] eqn:Ej; [|discriminate].
    intros [= <- <-]. cbn [update_nth find_hash]. unfold strcmp_eq.
    destruct (String.eqb (filepath h) q); [reflexivity|].
    specialize (IH j eq_refl).
    destruct (find_hash q (update_nth j e' hs)) as [[a b]|],
             (find_hash q hs) as [[a' b']|]; cbn in *; congruence.
Qed.

Lemma advanced_update_nth_length {A : Type} i (x : A) l :
  List.length (update_nth i x l) = List.length l.
Proof.
  revert i. induction l as [|y l IH]; intros [|i]; cbn; try reflexivity.
  now rewrite IH.
Qed.

Lemma advanced_check_local os cfg p q st :
  q <> p -> (String.length p < MAX_PATH_LEN)%nat ->
  let st' := snd (has_file_changed os cfg p st) in
  advanced_cached q st' = advanced_cached q st
  /\ (List.length (file_hashes st) <= List.length (file_hashes st')
      <= List.length (file_hashes st) + 1)%nat
  /\ (Z.of_nat (List.length (file_hashes st)) <= hash_capacity st ->
      Z.of_nat (List.length (file_hashes st')) <= hash_capacity st').
Proof.
  intros Hq Hfit st'. subst st'. unfold has_file_changed, advanced_cached.
  destruct (negb (enable_checksum cfg)); [cbn [snd]; repeat split; lia|].
  destruct (find_hash p (file_hashes st)) as [[i e]|] eqn:Hp.
  - destruct (os_file_hash os p) as [h|]; [|cbn [snd]; repeat split; lia].
    cbv zeta. destruct (negb (strcmp_eq (hash e) h));
      [|cbn [snd]; repeat split; lia].
    cbn [snd set_file_hashes file_hashes hash_capacity].
    rewrite advanced_update_nth_length.
    split; [|repeat split; lia].
    pose proof (advanced_find_hash_other p q (file_hashes st) i e
                  (mkHashInfo (filepath e) (strncpy (HASH_SIZE - 1) h)
                     (os_time os)
                     match os_stat os p with
                     | Some (_, sz) => sz
                     | None => file_size e
                     end) Hp eq_refl Hq) as H.
    destruct (find_hash q (update_nth i _ (file_hashes st))) as [[a b]|],
             (find_hash q (file_hashes st)) as [[a' b']|];
      cbn in *; congruence.
  - cbv zeta.
    assert (Hcap : Z.of_nat (List.length (file_hashes st)) <= hash_capacity st ->
                   Z.of_nat (List.length (file_hashes st)) + 1
                   <= (if Z.of_nat (List.length (file_hashes st)) >=? hash_capacity st
                       then if hash_capacity st =? 0 then 1000
                            else hash_capacity st * 2
                       else hash_capacity st)).
    { intros H.
      destruct (Z.geb_spec (Z.of_nat (List.length (file_hashes st)))
                           (hash_capacity st)); [|lia].
      destruct (Z.eqb_spec (hash_capacity st) 0); lia. }
    destruct (os_file_hash os p) as [h|];
      cbn [snd set_file_hashes file_hashes hash_capacity].
    + rewrite length_app, advanced_find_hash_snoc. cbn [List.length filepath].
      rewrite path_fits by exact Hfit.
      split; [|split; [lia | intros H; specialize (Hcap H); lia]].
      destruct (find_hash q (file_hashes st)) as [[a b]|]; [reflexivity|].
      unfold strcmp_eq.
      destruct (String.eqb_spec p q) as [E|_]; [now destruct Hq | reflexivity].
    + split; [reflexivity|]. split; [lia|]. intros H. specialize (Hcap H). lia.
Qed.

End AdvancedCacheLocal.

Section UnifiedCacheLocal.

Import UnifiedC.

Lemma unified_find_hash_snoc q hs e :
  find_hash q (hs ++ [e])
  = match find_hash q hs with
    | Some r => Some r
    | None => if strcmp_eq (filepath e) q then Some (List.length hs, e) else None
    end.
Proof.
  induction hs as [|h hs IH]; cbn [app find_hash List.length].
  - now destruct (strcmp_eq (filepath e) q).
  - destruct (strcmp_eq (filepath h) q); [reflexivity|].
    rewrite IH. destruct (find_hash q hs) as [[i x]|]; [reflexivity|].
    now destruct (strcmp_eq (filepath e) q).
Qed.

Lemma unified_find_hash_other p q hs i e e' :
  find_hash p hs = Some (i, e) -> filepath e' = filepath e -> q <> p ->
  option_map snd (find_hash q (update_nth i e' hs))
  = option_map snd (find_hash q hs).
Proof.
  intros Hp Hk Hq. revert i Hp.
  induction hs as [|h hs IH]; intros i; cbn [find_hash]; [discriminate|].
  unfold strcmp_eq.
  destruct (String.eqb_spec (filepath h) p) as [Eh|Eh].
  - intros [= <- <-]. cbn [update_nth find_hash]. unfold strcmp_eq.
    rewrite Hk.
    destruct (String.eqb_spec (filepath h) q) as [Eq|_]; [congruence|].
    reflexivity.
  - destruct (find_hash p hs) as [[j x]|] eqn:Ej; [|discriminate].
    intros [= <- <-]. cbn [update_nth find_hash]. unfold strcmp_eq.
    destruct (String.eqb (filepath h) q); [reflexivity|].
    specialize (IH j eq_refl).
    destruct (find_hash q (update_nth j e' hs)) as [[a b]|],
             (find_hash q hs) as [[a' b']|]; cbn in *; congruence.
Qed.

Lemma unified_update_nth_length {A : Type} i (x : A) l :
  List.length (update_nth i x l) = List.length l.
Proof.
  revert i. induction l as [|y l IH]; intros [|i]; cbn; try reflexivity.
  now rewrite IH.
Qed.

Lemma unified_check_local os cfg p q st :
  q <> p -> (String.length p < MAX_PATH_LEN)%nat ->
  let st' := snd (check_file_changed os cfg p st) in
  unified_cached q st' = unified_cached q st
  /\ (List.length (file_hashes st) <= List.length (file_hashes st')
      <= List.length (file_hashes st) + 1)%nat
  /\ (Z.of_nat (List.length (file_hashes st)) <= hash_capacity st ->
      Z.of_nat (List.length (file_hashes st')) <= hash_capacity st').
Proof.
  intros Hq Hfit st'. subst st'. unfold check_file_changed, unified_cached.
  destruct (negb (enable_checksum cfg)); [cbn [snd]; repeat split; lia|].
  destruct (os_file_hash os p) as [h|]; [|cbn [snd]; repeat split; lia].
  destruct (find_hash p (file_hashes st)) as [[i e]|] eqn:Hp.
  - cbv zeta. destruct (negb (strcmp_eq (hash e) h));
      [|cbn [snd]; repeat split; lia].
    cbn [snd with_hashes file_hashes hash_capacity].
    rewrite unified_update_nth_length.
    split; [|repeat split; lia].
    pose proof (unified_find_hash_other p q (file_hashes st) i e
                  (mkHashInfo (filepath e) (strncpy (HASH_SIZE - 1) h)
                     (os_time os) (file_size e)) Hp eq_refl Hq) as H.
    destruct (find_hash q (update_nth i _ (file_hashes st))) as [[a b]|],
             (find_hash q (file_hashes st)) as [[a' b']|];
      cbn in *; congruence.
  - cbv zeta.
    assert (Hcap : Z.of_nat (List.length (file_hashes st)) <= hash_capacity st ->
                   Z.of_nat (List.length (file_hashes st)) + 1
                   <= (if Z.of_nat (List.length (file_hashes st)) >=? hash_capacity st
                       then if hash_capacity st =? 0 then 100
                            else hash_capacity st * 2
                       else hash_capacity st)).
    { intros H.
      destruct (Z.geb_spec (Z.of_nat (List.length (file_hashes st)))
                           (hash_capacity st)); [|lia].
      destruct (Z.eqb_spec (hash_capacity st) 0); lia. }
    cbn [snd with_hashes file_hashes hash_capacity].
    rewrite length_app, unified_find_hash_snoc. cbn [List.length filepath].
    rewrite path_fits by exact Hfit.
    split; [|split; [lia | intros H; specialize (Hcap H); lia]].
    destruct (find_hash q (file_hashes st)) as [[a b]|]; [reflexivity|].
    unfold strcmp_eq.
    destruct (String.eqb_spec p q) as [E|_]; [now destruct Hq | reflexivity].
Qed.

End UnifiedCacheLocal.

(** A check of one file against the checksum cache, in [monitor.c] and
    in [advanced_monitor.c], is local to that file: the digest stored
    for any other path is what it was, no entry is dropped, at most one
    is added, and the entries in use stay within the size of the
    table. *)
Theorem cache_check_is_local :
  forall (os : os_env) (p q : string),
    q <> p ->
    (String.length p < MAX_PATH_LEN)%nat ->
    (forall cfg st,
       let st' := snd (UnifiedC.check_file_changed os cfg p st) in
       unified_cached q st' = unified_cached q st
       /\ (List.length (UnifiedC.file_hashes st)
           <= List.length (UnifiedC.file_hashes st')
           <= List.length (UnifiedC.file_hashes st) + 1)%nat
       /\ (Z.of_nat (List.length (UnifiedC.file_hashes st))
             <= UnifiedC.hash_capacity st ->
           Z.of_nat (List.length (UnifiedC.file_hashes st'))
             <= UnifiedC.hash_capacity st'))
    /\ (forall cfg st,
          let st' := snd (AdvancedC.has_file_changed os cfg p st) in
          advanced_cached q st' = advanced_cached q st
          /\ (List.length (AdvancedC.file_hashes st)
              <= List.length (AdvancedC.file_hashes st')
              <= List.length (AdvancedC.file_hashes st) + 1)%nat
          /\ (Z.of_nat (List.length (AdvancedC.file_hashes st))
                <= AdvancedC.hash_capacity st ->
              Z.of_nat (List.length (AdvancedC.file_hashes st'))
                <= AdvancedC.hash_capacity st')).
Proof.
  intros os p q Hq Hfit. split; intros cfg st.
  - now apply unified_check_local.
  - now apply advanced_check_local.
Qed.

Lemma cache_check_is_local_witness :
  advanced_cached "/srv/notes.txt"
    (snd (AdvancedC.has_file_changed
            (ex_os_with_file "/srv/todo.txt" digest_b) ex_adv_cfg
            "/srv/todo.txt" ex_seen_state))
  = Some digest_a.
Proof.
  destruct (cache_check_is_local (ex_os_with_file "/srv/todo.txt" digest_b)
              "/srv/todo.txt" "/srv/notes.txt") as [_ H].
  - discriminate.
  - apply Nat.ltb_lt. vm_compute. reflexivity.
  - destruct (H ex_adv_cfg ex_seen_state) as [E _]. rewrite E.
    vm_compute. reflexivity.
Defined.

(* ================================================================= *)
(** ** monitor.c: invariants of the event path *)

Section UnifiedInvariant.

Import UnifiedC.

Variable P : state -> Prop.
Variable cfg : config.
Hypothesis P_log : forall m s, P s -> P (log_event cfg m s).

Lemma unified_fold_invariant {A : Type} (f : state -> A -> state) (l : list A) :
  (forall s x, P s -> P (f s x)) ->
  forall st, P st -> P (fold_left f l st).
Proof.
  intros Hf. induction l as [|x l IH]; intros st H; cbn [fold_left];
    [exact H|]. apply IH, Hf, H.
Qed.

Lemma add_watch_recursive_with_invariant add :
  (forall os p s, P s -> P (snd (add os cfg p s))) ->
  forall fuel os p st,
    P st -> P (snd (add_watch_recursive_with add fuel os cfg p st)).
Proof.
  intros Hadd fuel os. induction fuel as [|fuel IH]; intros p st H; [exact H|].
  cbn [add_watch_recursive_with].
  destruct (os_stat os p) as [[is_dir sz]|]; [|now apply P_log].
  destruct is_dir; cbn [negb]; [|now apply P_log].
  pose proof (Hadd os p st H) as H1.
  destruct (add os cfg p st) as [w st1]. cbn [snd] in H1.
  destruct (w =? -1); [exact H1|].
  destruct (negb (recursive_mode cfg)); [exact H1|].
  destruct (os_readdir os p) as [entries|]; cbn [snd]; [|now apply P_log].
  apply unified_fold_invariant; [|exact H1]. intros s d_name Hs.
  destruct (strcmp_eq d_name "." || strcmp_eq d_name ".."); [exact Hs|].
  cbv zeta. destruct (os_stat os _) as [[[|] ?]|]; [now apply IH | | ]; exact Hs.
Qed.

Lemma log_flags_invariant mask full_path modified st :
  (forall s, P s -> P (modified s)) ->
  P st -> P (log_flags cfg mask full_path modified st).
Proof.
  intros Hmod H. unfold log_flags. cbv zeta.
  repeat match goal with
         | |- P (if ?b then _ else _) => destruct b
         | |- P (log_event cfg _ _) => apply P_log
         | |- P (modified _) => apply Hmod
         end; exact H.
Qed.

Lemma created_step_invariant add fuel os mask m full_path st :
  (forall os p s, P s -> P (snd (add os cfg p s))) ->
  P st ->
  P (if has_flag mask IN_CREATE then
       if has_flag mask IN_ISDIR && recursive_mode cfg
       then snd (add_watch_recursive_with add fuel os cfg full_path
                   (log_event cfg m st))
       else log_event cfg m st
     else st).
Proof.
  intros Hadd H. destruct (has_flag mask IN_CREATE); [|exact H].
  destruct (has_flag mask IN_ISDIR && recursive_mode cfg); [|now apply P_log].
  apply add_watch_recursive_with_invariant; [exact Hadd | now apply P_log].
Qed.

Lemma handle_event_basic_invariant fuel os ev watch_path st :
  (forall os p s, P s -> P (snd (add_watch_basic os cfg p s))) ->
  P (bump_total_events st) ->
  P (handle_event_basic fuel os cfg ev watch_path st).
Proof.
  intros Hadd H. unfold handle_event_basic. cbv zeta.
  destruct (ev_len ev >? 0); [|exact H].
  destruct (negb (should_monitor_file cfg (ev_name ev))); [exact H|].
  apply log_flags_invariant; [intros s Hs; now apply P_log|].
  now apply (created_step_invariant add_watch_basic).
Qed.

Lemma handle_event_advanced_invariant fuel os ev watch_path st :
  (forall os p s, P s -> P (snd (add_watch_basic os cfg p s))) ->
  (forall os p s, P s -> P (snd (check_file_changed os cfg p s))) ->
  P (bump_total_events st) ->
  P (handle_event_advanced fuel os cfg ev watch_path st).
Proof.
  intros Hadd Hcheck H. unfold handle_event_advanced. cbv zeta.
  destruct (ev_len ev >? 0); [|exact H].
  destruct (negb (should_monitor_file cfg (ev_name ev))); [exact H|].
  apply log_flags_invariant.
  - intros s Hs.
    match goal with
    | |- context [check_file_changed os cfg ?p s] =>
        pose proof (Hcheck os p s Hs) as Hc;
        destruct (check_file_changed os cfg p s) as [[|] s1]
    end; cbn [snd] in Hc; [now apply P_log | exact Hc].
  - now apply (created_step_invariant add_watch_basic).
Qed.

Lemma handle_event_enhanced_invariant fuel os ev st :
  (forall os p s, P s -> P (snd (add_watch_dynamic os cfg p s))) ->
  (forall i e, find_watch_by_wd (ev_wd ev) (wm_entries st) = Some (i, e) ->
               P (count_event i e st)) ->
  (find_watch_by_wd (ev_wd ev) (wm_entries st) = None -> P st) ->
  P (handle_event_enhanced fuel os cfg ev st).
Proof.
  intros Hadd Hcount Hnone. unfold handle_event_enhanced.
  destruct (find_watch_by_wd (ev_wd ev) (wm_entries st)) as [[i e]|];
    [|apply P_log; now apply Hnone].
  specialize (Hcount i e eq_refl). cbv zeta.
  destruct (ev_len ev >? 0); [|exact Hcount].
  destruct (negb (should_monitor_file cfg (ev_name ev))); [exact Hcount|].
  apply log_flags_invariant; [intros s Hs; now apply P_log|].
  now apply (created_step_invariant add_watch_dynamic).
Qed.

End UnifiedInvariant.

Section UnifiedCounters.

Import UnifiedC.

Lemma log_event_stats cfg m st : stats (log_event cfg m st) = stats st.
Proof. now destruct (log_event_frame cfg m st) as (_ & _ & _ & _ & _ & H). Qed.

Lemma log_event_wm cfg m st :
  wm_entries (log_event cfg m st) = wm_entries st
  /\ wm_capacity (log_event cfg m st) = wm_capacity st.
Proof. now destruct (log_event_frame cfg m st) as (_ & H1 & H2 & _). Qed.

Lemma add_watch_basic_stats os cfg p st :
  stats (snd (add_watch_basic os cfg p st)) = stats st
  /\ wm_entries (snd (add_watch_basic os cfg p st)) = wm_entries st.
Proof.
  unfold add_watch_basic.
  destruct (Z.of_nat (List.length (watches st)) >=? 1024); cbn [snd];
    [now rewrite log_event_stats, (proj1 (log_event_wm _ _ _))|].
  cbv zeta. destruct (os_inotify_add_watch os p =? -1); cbn [snd];
    now rewrite log_event_stats, (proj1 (log_event_wm _ _ _)).
Qed.

Lemma check_file_changed_stats os cfg p st :
  stats (snd (check_file_changed os cfg p st)) = stats st.
Proof.
  unfold check_file_changed.
  destruct (negb (enable_checksum cfg)); [reflexivity|].
  destruct (os_file_hash os p) as [h|]; [|reflexivity].
  destruct (find_hash p (file_hashes st)) as [[i e]|]; [|reflexivity].
  cbv zeta. now destruct (negb (strcmp_eq (hash e) h)).
Qed.

(** What [add_watch_dynamic] does to the table and to the statistics it
    does not own. *)
Lemma add_watch_dynamic_table os cfg p st :
  let r := add_watch_dynamic os cfg p st in
  total_events (stats (snd r)) = total_events (stats st)
  /\ max_events_per_path (stats (snd r)) = max_events_per_path (stats st)
  /\ most_active_path (stats (snd r)) = most_active_path (stats st)
  /\ (fst r = -1 -> wm_entries (snd r) = wm_entries st)
  /\ (fst r <> -1 ->
      wm_entries (snd r)
      = (wm_entries st
           ++ [mkWatch (fst r) (strncpy (MAX_PATH_LEN - 1) p) (os_time os) 0])%list).
Proof.
  unfold add_watch_dynamic. cbv zeta.
  destruct (Z.of_nat (List.length (wm_entries st)) >=? wm_capacity st).
  - destruct (negb (os_realloc_ok os)).
    + cbn [fst snd stats with_stats total_events max_events_per_path
           most_active_path wm_entries].
      rewrite log_event_stats, (proj1 (log_event_wm _ _ _)).
      repeat split. intros H. now destruct H.
    + destruct (os_inotify_add_watch os p =? -1) eqn:Hw; cbn [fst snd];
        rewrite !log_event_stats, !(proj1 (log_event_wm _ _ _));
        cbn [stats with_stats with_wm total_events max_events_per_path
             most_active_path wm_entries];
        rewrite ?log_event_stats, ?(proj1 (log_event_wm _ _ _));
        cbn [stats with_stats with_wm total_events max_events_per_path
             most_active_path wm_entries].
      * repeat split. intros H. now destruct H.
      * repeat split. intros H. apply Z.eqb_neq in Hw. now destruct Hw.
  - destruct (os_inotify_add_watch os p =? -1) eqn:Hw; cbn [fst snd];
      rewrite !log_event_stats, !(proj1 (log_event_wm _ _ _));
      cbn [stats with_wm wm_entries].
    + repeat split. intros H. now destruct H.
    + repeat split. intros H. apply Z.eqb_neq in Hw. now destruct Hw.
Qed.

Lemma find_watch_by_wd_snoc w es e :
  find_watch_by_wd w (es ++ [e])
  = match find_watch_by_wd w es with
    | Some r => Some r
    | None => if wd e =? w then Some (List.length es, e) else None
    end.
Proof.
  induction es as [|x es IH]; cbn [app find_watch_by_wd List.length].
  - now destruct (wd e =? w).
  - destruct (wd x =? w); [reflexivity|].
    rewrite IH. destruct (find_watch_by_wd w es) as [[i y]|]; [reflexivity|].
    now destruct (wd e =? w).
Qed.

Lemma update_nth_Forall {A : Type} (Q : A -> Prop) i x l :
  Forall Q l -> Q x -> Forall Q (update_nth i x l).
Proof.
  intros Hl Hx. revert i. induction Hl as [|y l Hy Hl IH]; intros [|i];
    cbn [update_nth]; constructor; auto.
Qed.

Lemma most_active_log_event cfg m st :
  most_active_bounds st -> most_active_bounds (log_event cfg m st).
Proof.
  unfold most_active_bounds.
  now rewrite log_event_stats, (proj1 (log_event_wm _ _ _)).
Qed.

Lemma most_active_add_watch_dynamic os cfg p st :
  most_active_bounds st ->
  most_active_bounds (snd (add_watch_dynamic os cfg p st)).
Proof.
  intros [H0 Hall]. unfold most_active_bounds.
  destruct (add_watch_dynamic_table os cfg p st) as (_ & Hmax & _ & Hfail & Hok).
  rewrite Hmax. split; [exact H0|].
  destruct (Z.eq_dec (fst (add_watch_dynamic os cfg p st)) (-1)) as [E|E].
  - now rewrite (Hfail E).
  - rewrite (Hok E). apply Forall_app. split; [exact Hall|].
    constructor; [exact H0 | constructor].
Qed.

Lemma most_active_count_event i e st :
  most_active_bounds st -> most_active_bounds (count_event i e st).
Proof.
  intros [H0 Hall]. unfold most_active_bounds.
  destruct (count_event_spec i e st) as (_ & _ & _ & _ & _ & Hes & Hmax).
  rewrite Hes, Hmax. split; [lia|].
  apply update_nth_Forall.
  - eapply Forall_impl; [|exact Hall]. cbn. intros a Ha. lia.
  - cbn [event_count]. lia.
Qed.

End UnifiedCounters.

Section UnifiedLines.

Import UnifiedC.

Lemma append_line_open m st :
  log_file st = Open ->
  log_file (append_line m st) = Open
  /\ log_lines (append_line m st) = (log_lines st ++ [m])%list.
Proof.
  intros H. unfold append_line. rewrite H. split; [reflexivity|].
  unfold log_lines. cbn [with_log files]. unfold dir_set.
  now rewrite String.eqb_refl.
Qed.

Lemma unified_log_steps cfg (mask : Z) (msg : string -> string)
    (kinds : list (Z * string)) :
  mode cfg <> MODE_ADVANCED ->
  forall st,
    log_file st = Open ->
    let st' := fold_left (fun s k => if has_flag mask (fst k)
                                     then log_event cfg (msg (snd k)) s else s)
                         kinds st in
    log_file st' = Open
    /\ log_lines st'
       = (log_lines st ++ map (fun k => msg (snd k))
                              (filter (fun k => has_flag mask (fst k)) kinds))%list.
Proof.
  intros Hmode. induction kinds as [|k kinds IH]; intros st Hopen; cbn zeta.
  - cbn [fold_left filter map]. now rewrite app_nil_r.
  - cbn [fold_left filter]. destruct (has_flag mask (fst k)).
    + rewrite (log_event_plain cfg _ st Hmode).
      destruct (append_line_open (msg (snd k)) st Hopen) as [Ho Hl].
      destruct (IH _ Ho) as [Ho' Hl']. split; [exact Ho'|].
      rewrite Hl', Hl. cbn [map]. now rewrite <- app_assoc.
    + now apply IH.
Qed.


End UnifiedLines.

(* ================================================================= *)
(** ** monitor.c: properties of the statistics and of the watch table *)

(** [total_events] of [monitor.c] counts events, each once: handling an
    event whose watch is found in the table of the mode raises it by
    one, wrapping at [2^64], whether the event is filtered out or not
    and however many lines it writes or watches it adds; an event of an
    unknown watch leaves it alone. *)
Theorem unified_total_events_counts_events :
  forall (fuel : nat) (os : os_env) (cfg : UnifiedC.config)
         (ev : inotify_event) (st : UnifiedC.state),
    UnifiedC.total_events (UnifiedC.stats (UnifiedC.dispatch fuel os cfg ev st))
    = if unified_known cfg ev st
      then wrap64 (UnifiedC.total_events (UnifiedC.stats st) + 1)
      else UnifiedC.total_events (UnifiedC.stats st).
Proof.
  intros fuel os cfg ev st.
  set (P := fun c s => UnifiedC.total_events (UnifiedC.stats s) = c).
  assert (Plog : forall c m s, P c s -> P c (UnifiedC.log_event cfg m s)).
  { intros c m s. unfold P. now rewrite log_event_stats. }
  assert (Pbasic : forall c os p s,
             P c s -> P c (snd (UnifiedC.add_watch_basic os cfg p s))).
  { intros c os' p s. unfold P.
    now rewrite (proj1 (add_watch_basic_stats os' cfg p s)). }
  assert (Pdyn : forall c os p s,
             P c s -> P c (snd (UnifiedC.add_watch_dynamic os cfg p s))).
  { intros c os' p s. unfold P.
    now rewrite (proj1 (add_watch_dynamic_table os' cfg p s)). }
  assert (Pcheck : forall c os p s,
             P c s -> P c (snd (UnifiedC.check_file_changed os cfg p s))).
  { intros c os' p s. unfold P. now rewrite check_file_changed_stats. }
  unfold UnifiedC.dispatch, unified_known.
  destruct (UnifiedC.mode cfg).
  - destruct (UnifiedC.find_watch_path (ev_wd ev) (UnifiedC.watches st));
      cbn [not_null]; [|reflexivity].
    apply (handle_event_basic_invariant (P _) cfg (Plog _)); [apply Pbasic|].
    reflexivity.
  - destruct (UnifiedC.find_watch_path (ev_wd ev) (UnifiedC.watches st));
      cbn [not_null]; [|reflexivity].
    apply (handle_event_advanced_invariant (P _) cfg (Plog _));
      [apply Pbasic | apply Pcheck | reflexivity].
  - apply (handle_event_enhanced_invariant (P _) cfg (Plog _)); [apply Pdyn| |].
    + intros i e H. rewrite H. cbn [not_null]. unfold P.
      now destruct (count_event_spec i e st) as (_ & _ & _ & _ & Ht & _).
    + intros H. rewrite H. reflexivity.
Qed.

(** In the enhanced mode of [monitor.c] the maximum recorded in the
    statistics stays an upper bound of the event counters of all
    watches: the installer, on any directory tree, and the handler, on
    any event, keep it so. *)
Theorem enhanced_maximum_bounds_every_counter :
  forall (fuel : nat) (os : os_env) (cfg : UnifiedC.config)
         (st : UnifiedC.state),
    most_active_bounds st ->
    (forall p,
       most_active_bounds
         (snd (UnifiedC.add_watch_recursive_enhanced fuel os cfg p st)))
    /\ (forall ev,
          most_active_bounds (UnifiedC.handle_event_enhanced fuel os cfg ev st)).
Proof.
  intros fuel os cfg st H. split.
  - intros p. unfold UnifiedC.add_watch_recursive_enhanced.
    apply (add_watch_recursive_with_invariant most_active_bounds cfg);
      [intros; now apply most_active_log_event
      | intros; now apply most_active_add_watch_dynamic | exact H].
  - intros ev.
    apply (handle_event_enhanced_invariant most_active_bounds cfg).
    + intros. now apply most_active_log_event.
    + intros. now apply most_active_add_watch_dynamic.
    + intros i e _. now apply most_active_count_event.
    + intros _. exact H.
Qed.

Lemma enhanced_maximum_bounds_every_counter_witness :
  most_active_bounds
    (UnifiedC.handle_event_enhanced 1 ex_os ex_enhanced_cfg ex_attrib_event
                                    ex_enhanced_state).
Proof.
  apply (enhanced_maximum_bounds_every_counter 1 ex_os ex_enhanced_cfg
           ex_enhanced_state).
  split; [vm_compute; discriminate|].
  constructor; [vm_compute; discriminate | constructor].
Defined.

(** After a successful [add_watch_dynamic] the search of the enhanced
    handler resolves the returned descriptor to a fresh entry with the
    path, cut to 4095 bytes, the time of the call and no events, unless
    the descriptor was in the table before: then the older entry stays
    the answer.  Every other descriptor resolves as before, and a
    failed call leaves the entries as they were. *)
Theorem enhanced_add_watch_dynamic_resolves :
  forall (os : os_env) (cfg : UnifiedC.config) (p : string)
         (st : UnifiedC.state) (w : Z),
    let r := UnifiedC.add_watch_dynamic os cfg p st in
    (fst r <> -1 ->
     UnifiedC.find_watch_by_wd w (UnifiedC.wm_entries (snd r))
     = match UnifiedC.find_watch_by_wd w (UnifiedC.wm_entries st) with
       | Some found => Some found
       | None =>
           if fst r =? w
           then Some (List.length (UnifiedC.wm_entries st),
                      UnifiedC.mkWatch (fst r) (strncpy (MAX_PATH_LEN - 1) p)
                                       (os_time os) 0)
           else None
       end)
    /\ (fst r = -1 -> UnifiedC.wm_entries (snd r) = UnifiedC.wm_entries st).
Proof.
  intros os cfg p st w r. subst r.
  destruct (add_watch_dynamic_table os cfg p st) as (_ & _ & _ & Hfail & Hok).
  split; [|exact Hfail].
  intros H. rewrite (Hok H), find_watch_by_wd_snoc. reflexivity.
Qed.

(** In the basic mode of [monitor.c] an event that passes the filter,
    and is not the creation of a directory in recursive mode, writes one
    line for each of its flags among the seven kinds the handler knows,
    in the order of its tests and each with the full path of the file:
    [Closed] for a close of either kind, and no line for a change of
    attributes. *)
Theorem unified_basic_one_line_per_event_kind :
  forall (fuel : nat) (os : os_env) (cfg : UnifiedC.config)
         (ev : inotify_event) (watch_path : string) (st : UnifiedC.state),
    UnifiedC.mode cfg = UnifiedC.MODE_BASIC ->
    UnifiedC.log_file st = UnifiedC.Open ->
    (ev_len ev >? 0) = true ->
    UnifiedC.should_monitor_file cfg (ev_name ev) = true ->
    has_flag (ev_mask ev) IN_CREATE
    && (has_flag (ev_mask ev) IN_ISDIR && UnifiedC.recursive_mode cfg) = false ->
    UnifiedC.log_lines (UnifiedC.handle_event_basic fuel os cfg ev watch_path st)
    = (UnifiedC.log_lines st
         ++ map (fun k => snprintf (MAX_PATH_LEN + 100)
                            (snd k ++ snprintf MAX_PATH_LEN
                                        (watch_path ++ "/" ++ ev_name ev)))
                (filter (fun k => has_flag (ev_mask ev) (fst k))
                        unified_event_kinds))%list.
Proof.
  intros fuel os cfg ev watch_path st Hmode Hopen Hlen Hmon Hdir.
  assert (Hplain : UnifiedC.mode cfg <> UnifiedC.MODE_ADVANCED)
    by (rewrite Hmode; discriminate).
  set (msg := fun verb => snprintf (MAX_PATH_LEN + 100)
                            (verb ++ snprintf MAX_PATH_LEN
                                       (watch_path ++ "/" ++ ev_name ev))).
  set (step := fun s (k : Z * string) =>
                 if has_flag (ev_mask ev) (fst k)
                 then UnifiedC.log_event cfg (msg (snd k)) s else s).
  set (created := if has_flag (ev_mask ev) IN_CREATE
                  then UnifiedC.log_event cfg (msg "Created: ")
                         (UnifiedC.bump_total_events st)
                  else UnifiedC.bump_total_events st).
  assert (E : UnifiedC.handle_event_basic fuel os cfg ev watch_path st
              = fold_left step (tl unified_event_kinds) created).
  { unfold UnifiedC.handle_event_basic. rewrite Hlen, Hmon. unfold created.
    destruct (has_flag (ev_mask ev) IN_CREATE); [|reflexivity].
    cbn [andb] in Hdir. rewrite Hdir. reflexivity. }
  assert (Hc : UnifiedC.log_file created = UnifiedC.Open
               /\ UnifiedC.log_lines created
                  = (UnifiedC.log_lines st
                       ++ map (fun k => msg (snd k))
                              (filter (fun k => has_flag (ev_mask ev) (fst k))
                                      [(IN_CREATE, "Created: ")]))%list).
  { unfold created. cbn [filter fst].
    destruct (has_flag (ev_mask ev) IN_CREATE).
    - rewrite (log_event_plain cfg _ _ Hplain).
      apply (append_line_open (msg "Created: ")
               (UnifiedC.bump_total_events st) Hopen).
    - cbn [map]. rewrite app_nil_r. split; [exact Hopen | reflexivity]. }
  destruct Hc as [Ho Hl].
  destruct (unified_log_steps cfg (ev_mask ev) msg (tl unified_event_kinds)
              Hplain created Ho) as [_ H].
  rewrite E. fold step in H. rewrite H, Hl, <- app_assoc, <- map_app.
  rewrite <- filter_app. reflexivity.
Qed.

Lemma unified_basic_one_line_per_event_kind_witness :
  UnifiedC.log_lines
    (UnifiedC.handle_event_basic 1 ex_os ex_basic_cfg
       (mkEvent 1 (Z.lor IN_DELETE (Z.lor IN_ISDIR IN_CLOSE_NOWRITE)) 16
                "old.txt") "/srv" ex_unified_state)
  = ["Deleted: /srv/old.txt"; "Closed: /srv/old.txt"].
Proof.
  apply (unified_basic_one_line_per_event_kind 1 ex_os ex_basic_cfg
           (mkEvent 1 (Z.lor IN_DELETE (Z.lor IN_ISDIR IN_CLOSE_NOWRITE)) 16
                    "old.txt") "/srv" ex_unified_state);
    vm_compute; reflexivity.
Defined.

(* ================================================================= *)
(** ** monitor.c: properties of the log rotation *)

(** A rotation of [monitor.c] writes through the stream it has just
    closed, which is undefined in C, exactly when compression is on, as
    [monitor.c] always has it, and the log file is found in the
    directory: [compress_old_log] then reports through [log_event]
    between the [fclose] and the [fopen] of [rotate_log_file].  With
    compression off, or with no log file to compress, a rotation makes
    no such write. *)
Theorem rotation_writes_after_close :
  forall (cfg : UnifiedC.config) (st : UnifiedC.state),
    UnifiedC.log_file st <> UnifiedC.Null ->
    UnifiedC.undefined (UnifiedC.rotate_log_file cfg st)
    = UnifiedC.undefined st
      || (UnifiedC.enable_compression cfg
          && not_null (UnifiedC.files st UnifiedC.LOG_FILE)).
Proof.
  intros cfg st Hn. now apply rotate_log_file_undefined.
Qed.

Lemma rotation_writes_after_close_witness :
  UnifiedC.undefined ex_log_state = false
  /\ UnifiedC.undefined (UnifiedC.rotate_log_file ex_advanced_cfg ex_log_state)
     = true.
Proof.
  split; [reflexivity|].
  rewrite (rotation_writes_after_close ex_advanced_cfg ex_log_state).
  - reflexivity.
  - discriminate.
Defined.



(* ================================================================= *)
(** ** advanced_monitor.c: reading the configuration *)

Section AdvancedConfig.

Import AdvancedStartup.

Variable regcomp : string -> option (string -> bool).

Lemma fgets_pattern_line (l rest : string) :
  plain_pattern_line l ->
  fgets 512 (l ++ String "010" rest) = Some (l ++ String "010" "", rest).
Proof.
  intros (Hn & _ & Hlen). unfold fgets.
  destruct (l ++ String "010" rest) eqn:E.
  - destruct l; discriminate.
  - rewrite <- E. f_equal. apply fgets_chars_line; [exact Hn|]. simpl. lia.
Qed.

Lemma string_append_assoc (a b c : string) : (a ++ b) ++ c = a ++ (b ++ c).
Proof. induction a as [|x a IH]; cbn [append]; [reflexivity | now rewrite IH]. Qed.

Lemma pattern_line_directive (rule : Z * string) rules :
  0 <= fst rule <= 2 ->
  plain_pattern_line (pattern_directive rule) ->
  pattern_line regcomp (pattern_directive rule ++ String "010" "") rules
  = (rules ++ compiled_rule regcomp rule)%list.
Proof.
  intros Hact (Hn & Hz & _). unfold pattern_line.
  rewrite (cstr_line _ Hz). cbv zeta. rewrite (chomp_line _ "" Hn).
  clear Hn Hz.
  destruct rule as [act text]. unfold pattern_directive. cbn [fst snd] in *.
  assert (Hadd : forall a, add_pattern regcomp text a rules
                           = (rules ++ compiled_rule regcomp (a, text))%list).
  { intros a. unfold add_pattern, compiled_rule. cbn [fst snd].
    destruct (regcomp text); [reflexivity | now rewrite app_nil_r]. }
  destruct (Z.eqb_spec act 0) as [->|H0].
  - rewrite string_append_assoc, prefix_append.
    change 16%nat with (String.length "pattern_exclude=").
    now rewrite skip_append.
  - destruct (Z.eqb_spec act 1) as [->|H1].
    + change (String.prefix "pattern_exclude="
                (("pattern_include=" ++ text) ++ String "010" "")) with false.
      rewrite string_append_assoc, prefix_append.
      change 16%nat with (String.length "pattern_include=").
      now rewrite skip_append.
    + assert (act = 2) as -> by lia.
      change (String.prefix "pattern_exclude="
                (("pattern_alert=" ++ text) ++ String "010" "")) with false.
      change (String.prefix "pattern_include="
                (("pattern_alert=" ++ text) ++ String "010" "")) with false.
      rewrite string_append_assoc, prefix_append.
      change 14%nat with (String.length "pattern_alert=").
      now rewrite skip_append.
Qed.

Lemma patterns_loop_lines (specs : list (Z * string)) :
  Forall (fun r => 0 <= fst r <= 2 /\ plain_pattern_line (pattern_directive r))
         specs ->
  forall fuel rules,
    (List.length specs <= fuel)%nat ->
    (List.length rules + List.length specs <= 100)%nat ->
    patterns_loop regcomp fuel (text_of_lines (map pattern_directive specs)) rules
    = (rules ++ flat_map (compiled_rule regcomp) specs)%list.
Proof.
  induction 1 as [|r specs [Hact Hr] _ IH]; intros fuel rules Hfuel Hroom.
  - destruct fuel; cbn; now rewrite app_nil_r.
  - destruct fuel as [|fuel]; [simpl in Hfuel; lia|].
    cbn [map text_of_lines patterns_loop flat_map].
    rewrite (fgets_pattern_line _ _ Hr).
    assert (E : (Z.of_nat (List.length rules) <? MAX_PATTERNS) = true).
    { apply Z.ltb_lt. unfold MAX_PATTERNS. simpl in Hroom. lia. }
    rewrite E, (pattern_line_directive r rules Hact Hr).
    rewrite IH, <- app_assoc; [reflexivity | simpl in Hfuel; lia|].
    rewrite length_app. simpl in Hroom.
    assert (List.length (compiled_rule regcomp r) <= 1)%nat
      by (unfold compiled_rule; destruct (regcomp (snd r)); simpl; lia).
    lia.
Qed.

End AdvancedConfig.

Lemma advanced_config_line_agrees atoi raw mcfg acfg :
  AdvancedC.recursive_mode acfg = MainC.recursive_mode mcfg ->
  AdvancedC.file_extensions acfg = MainC.file_extensions mcfg ->
  AdvancedC.recursive_mode (AdvancedStartup.config_line atoi raw acfg)
  = MainC.recursive_mode (MainStartup.config_line raw mcfg)
  /\ AdvancedC.file_extensions (AdvancedStartup.config_line atoi raw acfg)
     = MainC.file_extensions (MainStartup.config_line raw mcfg).
Proof.
  intros Hr He. unfold AdvancedStartup.config_line, MainStartup.config_line.
  cbv zeta.
  destruct (first_is "#" (cstr raw) || first_is "010" (cstr raw)); [now split|].
  destruct (String.prefix "recursive=" (chomp (cstr raw))); [now split|].
  destruct (String.prefix "extension=" (chomp (cstr raw))).
  - rewrite He.
    destruct (Z.of_nat (List.length (MainC.file_extensions mcfg)) <? 100);
      cbn; now split.
  - destruct (String.prefix "enable_checksum=" (chomp (cstr raw))); [now split|].
    destruct (String.prefix "enable_compression=" (chomp (cstr raw)));
      [now split|].
    destruct (String.prefix "max_file_size_mb=" (chomp (cstr raw))); now split.
Qed.

Lemma advanced_config_loop_agrees atoi fuel :
  forall unread mcfg acfg,
    AdvancedC.recursive_mode acfg = MainC.recursive_mode mcfg ->
    AdvancedC.file_extensions acfg = MainC.file_extensions mcfg ->
    AdvancedC.recursive_mode (AdvancedStartup.config_loop atoi fuel unread acfg)
    = MainC.recursive_mode (MainStartup.config_loop fuel unread mcfg)
    /\ AdvancedC.file_extensions
         (AdvancedStartup.config_loop atoi fuel unread acfg)
       = MainC.file_extensions (MainStartup.config_loop fuel unread mcfg).
Proof.
  induction fuel as [|fuel IH]; intros unread mcfg acfg Hr He; [now split|].
  cbn [AdvancedStartup.config_loop MainStartup.config_loop].
  destruct (fgets 256 unread) as [[raw rest]|]; [|now split].
  destruct (advanced_config_line_agrees atoi raw mcfg acfg Hr He) as [Hr' He'].
  now apply IH.
Qed.

(* ================================================================= *)
(** ** advanced_monitor.c: properties of the configuration loader *)

(** [load_patterns_from_config] takes the rules into use in the order
    of their lines in the file, each with the action its keyword names
    and the first 255 bytes of its text, behind the rules already in
    use, and skips the lines whose expression [regcomp] rejects, as long
    as the table of 100 rules is not exceeded. *)
Theorem advanced_patterns_loaded_in_file_order :
  forall (regcomp : string -> option (string -> bool))
         (specs : list (Z * string)) (rules : list AdvancedC.pattern_rule_t),
    Forall (fun r => 0 <= fst r <= 2 /\ plain_pattern_line (pattern_directive r))
           specs ->
    (List.length rules + List.length specs <= 100)%nat ->
    AdvancedStartup.load_patterns_from_config regcomp
      (Some (text_of_lines (map pattern_directive specs))) rules
    = (rules ++ flat_map (compiled_rule regcomp) specs)%list.
Proof.
  intros regcomp specs rules Hspecs Hroom.
  cbn [AdvancedStartup.load_patterns_from_config].
  apply patterns_loop_lines; [exact Hspecs | | exact Hroom].
  rewrite <- (length_map pattern_directive specs). apply lines_le_text.
Qed.

Lemma advanced_patterns_loaded_in_file_order_witness :
  map AdvancedC.pattern
      (AdvancedStartup.load_patterns_from_config ex_regcomp
         (Some (text_of_lines
                  (map pattern_directive
                       [(2, "secret"); (0, "[bad"); (0, "bak")]))) [])
  = ["secret"; "bak"].
Proof.
  rewrite (advanced_patterns_loaded_in_file_order ex_regcomp
             [(2, "secret"); (0, "[bad"); (0, "bak")] []).
  - vm_compute. reflexivity.
  - repeat (constructor; [split; [cbn; lia | vm_compute; plain_lines]|]).
    constructor.
  - simpl. lia.
Defined.

(** [load_config] of [advanced_monitor.c] reads the recursion flag and
    the extensions as the one of [main.c] does: from the same file, or
    without one, the two programs end with the same flag and the same
    list of extensions, whatever else the file holds. *)
Theorem advanced_load_config_agrees_with_main :
  forall (atoi : string -> Z) (regcomp : string -> option (string -> bool))
         (file again : option string)
         (mst : MainC.state) (ast : AdvancedC.state),
    let mcfg := fst (MainStartup.load_config file MainStartup.initial_config mst) in
    let acfg := fst (AdvancedStartup.load_config atoi regcomp file again
                       AdvancedStartup.initial_config ast) in
    AdvancedC.recursive_mode acfg = MainC.recursive_mode mcfg
    /\ AdvancedC.file_extensions acfg = MainC.file_extensions mcfg.
Proof.
  intros atoi regcomp file again mst ast mcfg acfg. subst mcfg acfg.
  destruct file as [content|];
    cbn [MainStartup.load_config AdvancedStartup.load_config fst];
    [|now split].
  cbn [AdvancedStartup.with_patterns AdvancedC.recursive_mode
       AdvancedC.file_extensions].
  now apply advanced_config_loop_agrees.
Qed.

(* ================================================================= *)
(** ** monitor.c: the command line *)

Section CommandLine.

Import UnifiedMain.

Lemma mode_argument_split (arg : string) :
  String.prefix "--mode=" arg = true -> arg = "--mode=" ++ skip 7 arg.
Proof.
  intros H. apply prefix_iff in H as [post ->].
  change 7%nat with (String.length "--mode="). now rewrite skip_append.
Qed.

Lemma mode_of_argument_spec (arg : string) :
  String.prefix "--mode=" arg = true ->
  mode_of_argument arg
  = if strcmp_eq (skip 7 arg) "basic" then Some UnifiedC.MODE_BASIC
    else if strcmp_eq (skip 7 arg) "advanced" then Some UnifiedC.MODE_ADVANCED
    else if strcmp_eq (skip 7 arg) "enhanced" then Some UnifiedC.MODE_ENHANCED
    else None.
Proof.
  intros H. rewrite (mode_argument_split arg H) at 1.
  unfold mode_of_argument, strcmp_eq.
  generalize (skip 7 arg) as v. intros v.
  assert (E : forall w, String.eqb ("--mode=" ++ v) ("--mode=" ++ w)
                        = String.eqb v w) by reflexivity.
  change "--mode=basic" with ("--mode=" ++ "basic").
  change "--mode=advanced" with ("--mode=" ++ "advanced").
  change "--mode=enhanced" with ("--mode=" ++ "enhanced").
  now rewrite !E.
Qed.

Lemma mode_of_argument_prefix (arg : string) m :
  mode_of_argument arg = Some m -> String.prefix "--mode=" arg = true.
Proof.
  unfold mode_of_argument.
  destruct (String.eqb_spec arg "--mode=basic") as [->|_]; [reflexivity|].
  destruct (String.eqb_spec arg "--mode=advanced") as [->|_]; [reflexivity|].
  destruct (String.eqb_spec arg "--mode=enhanced") as [->|_]; [reflexivity|].
  discriminate.
Qed.

Lemma parse_arguments_plain (args : list string) :
  Forall plain_argument args ->
  forall mode watch_path,
    parse_arguments args mode watch_path
    = inr (fold_left (fun m arg => match mode_of_argument arg with
                                   | Some m' => m'
                                   | None => m
                                   end) args mode,
           fold_left (fun p arg => if first_is "-" arg then p else Some arg)
                     args watch_path).
Proof.
  induction 1 as [|arg args (Hh & Hhelp & Hv & Hmode) _ IH];
    intros mode watch_path; [reflexivity|].
  cbn [parse_arguments fold_left]. unfold strcmp_eq.
  destruct (String.eqb_spec arg "-h") as [E|_]; [now destruct Hh|].
  destruct (String.eqb_spec arg "--help") as [E|_]; [now destruct Hhelp|].
  destruct (String.eqb_spec arg "--version") as [E|_]; [now destruct Hv|].
  cbn [orb].
  destruct (String.prefix "--mode=" arg) eqn:Hp.
  - specialize (Hmode eq_refl). cbv zeta.
    assert (Hdash : first_is "-" arg = true).
    { rewrite (mode_argument_split arg Hp). reflexivity. }
    rewrite Hdash. rewrite (mode_of_argument_spec arg Hp) in *.
    unfold strcmp_eq in *.
    destruct (String.eqb (skip 7 arg) "basic"); [apply IH|].
    destruct (String.eqb (skip 7 arg) "advanced"); [apply IH|].
    destruct (String.eqb (skip 7 arg) "enhanced"); [apply IH|].
    now destruct Hmode.
  - assert (Hnone : mode_of_argument arg = None).
    { destruct (mode_of_argument arg) eqn:E; [|reflexivity].
      apply mode_of_argument_prefix in E. congruence. }
    rewrite Hnone.
    destruct (first_is "-" arg); cbn [negb]; apply IH.
Qed.

End CommandLine.

(** The command line of [monitor.c] is read from left to right and the
    last word counts: without a request for the usage or the version
    and without an unknown mode name, the program runs in the mode of
    the last [--mode=] argument, the basic one if there is none, on the
    last argument that does not start with a dash; every other argument
    that starts with a dash is ignored, and without a directory the
    program exits with status 1. *)
Theorem monitor_command_line_last_wins :
  forall (args : list string),
    Forall plain_argument args ->
    UnifiedMain.arguments args
    = match last_path args with
      | Some watch_path => UnifiedMain.Go (last_mode args) watch_path
      | None => UnifiedMain.Exit 1
      end.
Proof.
  intros args H. unfold UnifiedMain.arguments.
  rewrite (parse_arguments_plain args H). fold (last_mode args).
  fold (last_path args). now destruct (last_path args).
Qed.

Lemma monitor_command_line_last_wins_witness :
  UnifiedMain.arguments
    ["--mode=advanced"; "/tmp"; "--verbose"; "--mode=enhanced"; "/srv"]
  = UnifiedMain.Go UnifiedC.MODE_ENHANCED "/srv".
Proof.
  rewrite (monitor_command_line_last_wins
             ["--mode=advanced"; "/tmp"; "--verbose"; "--mode=enhanced"; "/srv"]).
  - reflexivity.
  - repeat (constructor;
            [repeat split; try discriminate; intros _; vm_compute; discriminate|]).
    constructor.
Defined.

(* ================================================================= *)
(** ** advanced_monitor.c: the shifting loop and the rotation *)

Section AdvancedShifting.

Import AdvancedLog.

Lemma advanced_generation_inj i j :
  (i <= 9)%nat -> (j <= 9)%nat -> generation i = generation j -> i = j.
Proof.
  intros Hi Hj H.
  do 10 (destruct i as [|i];
         [ do 10 (destruct j as [|j];
                  [ try reflexivity; vm_compute in H; discriminate | ]);
           exfalso; lia | ]).
  exfalso; lia.
Qed.

Lemma advanced_generation_not_log i : (i <= 9)%nat -> generation i <> LOG_FILE.
Proof.
  intros Hi H.
  do 10 (destruct i as [|i]; [vm_compute in H; discriminate|]).
  lia.
Qed.

Lemma advanced_shift_generations_S j d :
  shift_generations (S j) d
  = shift_generations j
      (match d (generation j) with
       | Some _ =>
           if Nat.eqb (S j) (MAX_LOG_FILES - 1)
           then UnifiedC.unlink (generation j) d
           else UnifiedC.rename (generation j) (generation (S j)) d
       | None => d
       end).
Proof.
  cbn [shift_generations]. replace (S j - 1)%nat with j by lia. reflexivity.
Qed.

Lemma advanced_shift_generations_moves i :
  (i <= 8)%nat ->
  forall d,
    d (generation i) = None ->
    (forall k, (k < i)%nat ->
               shift_generations i d (generation (S k)) = d (generation k))
    /\ ((0 < i)%nat -> shift_generations i d (generation 0) = None)
    /\ (forall n, (forall k, (k <= i)%nat -> n <> generation k) ->
                  shift_generations i d n = d n).
Proof.
  induction i as [|j IH]; intros Hi d Hfree.
  - split; [intros k Hk; lia|]. split; [lia|]. reflexivity.
  - rewrite advanced_shift_generations_S.
    assert (E : Nat.eqb (S j) (MAX_LOG_FILES - 1) = false)
      by (apply Nat.eqb_neq; unfold MAX_LOG_FILES; lia).
    rewrite E.
    set (d' := match d (generation j) with
               | Some _ => UnifiedC.rename (generation j) (generation (S j)) d
               | None => d
               end).
    assert (Hne : generation (S j) <> generation j)
      by (intros H; apply advanced_generation_inj in H; lia).
    assert (A : d' (generation (S j)) = d (generation j)).
    { unfold d', UnifiedC.rename.
      destruct (d (generation j)) eqn:Ej; [|exact Hfree].
      rewrite dir_set_other by exact Hne. apply dir_set_same. }
    assert (B : d' (generation j) = None).
    { unfold d', UnifiedC.rename.
      destruct (d (generation j)) eqn:Ej; [|exact Ej].
      apply dir_set_same. }
    assert (C : forall n, n <> generation j -> n <> generation (S j) ->
                          d' n = d n).
    { intros n H1 H2. unfold d', UnifiedC.rename.
      destruct (d (generation j)); [|reflexivity].
      now rewrite !dir_set_other. }
    destruct (IH ltac:(lia) d' B) as (I1 & I2 & I3).
    split; [|split].
    + intros k Hk. destruct (Nat.eq_dec k j) as [->|Hkj].
      * rewrite I3; [exact A|].
        intros k' Hk' H. apply advanced_generation_inj in H; lia.
      * rewrite I1 by lia.
        apply C; intros H; apply advanced_generation_inj in H; lia.
    + intros _. destruct j as [|j'].
      * exact B.
      * apply I2. lia.
    + intros n Hn. rewrite I3.
      * apply C; apply Hn; lia.
      * intros k Hk. apply Hn. lia.
Qed.

Lemma advanced_shift_generations_all d :
  let r := shift_generations (MAX_LOG_FILES - 1) d in
  (forall k, (k < 8)%nat -> r (generation (S k)) = d (generation k))
  /\ r (generation 0) = None
  /\ (forall n, (forall k, (k <= 8)%nat -> n <> generation k) -> r n = d n).
Proof.
  change (MAX_LOG_FILES - 1)%nat with 9%nat. cbv zeta.
  rewrite advanced_shift_generations_S.
  change (Nat.eqb 9 (MAX_LOG_FILES - 1)) with true. cbv iota.
  set (d9 := match d (generation 8) with
             | Some _ => UnifiedC.unlink (generation 8) d
             | None => d
             end).
  assert (B : d9 (generation 8) = None).
  { unfold d9, UnifiedC.unlink.
    destruct (d (generation 8)) eqn:E; [|exact E].
    apply dir_set_same. }
  assert (C : forall n, n <> generation 8 -> d9 n = d n).
  { intros n H. unfold d9, UnifiedC.unlink.
    destruct (d (generation 8)); [|reflexivity].
    now apply dir_set_other. }
  destruct (advanced_shift_generations_moves 8 ltac:(lia) d9 B) as (I1 & I2 & I3).
  split; [|split].
  - intros k Hk. rewrite I1 by exact Hk. apply C.
    intros H. apply advanced_generation_inj in H; lia.
  - apply I2. lia.
  - intros n Hn. rewrite I3 by exact Hn. apply C. apply Hn. lia.
Qed.

(** The directory behind the shifting loop and the renaming of the
    log. *)
Lemma advanced_rotation_renamed d :
  let d1 := UnifiedC.rename LOG_FILE (generation 0)
                   (shift_generations (MAX_LOG_FILES - 1) d) in
  d1 LOG_FILE = None
  /\ d1 (generation 0) = d LOG_FILE
  /\ (forall k, (k < 8)%nat -> d1 (generation (S k)) = d (generation k))
  /\ (forall n, n <> LOG_FILE -> (forall k, (k <= 8)%nat -> n <> generation k) ->
                d1 n = d n).
Proof.
  destruct (advanced_shift_generations_all d) as (S1 & S2 & S3).
  cbv zeta in *.
  set (ds := shift_generations (MAX_LOG_FILES - 1) d) in *.
  assert (Hg : forall k, (k <= 9)%nat -> generation k <> LOG_FILE)
    by (intros k Hk; now apply advanced_generation_not_log).
  assert (Hlog : ds LOG_FILE = d LOG_FILE).
  { apply S3. intros k Hk H. symmetry in H. apply Hg in H; [exact H | lia]. }
  unfold UnifiedC.rename. rewrite Hlog.
  destruct (d LOG_FILE) as [c|] eqn:El.
  - split; [apply dir_set_same|]. split; [|split].
    + rewrite dir_set_other by (apply Hg; lia). apply dir_set_same.
    + intros k Hk. rewrite dir_set_other by (apply Hg; lia).
      rewrite dir_set_other
        by (intros H; apply advanced_generation_inj in H; lia).
      now apply S1.
    + intros n H1 H2. rewrite dir_set_other by exact H1.
      rewrite dir_set_other by (apply H2; lia). now apply S3.
  - split; [now rewrite Hlog|]. split; [exact S2|]. split.
    + intros k Hk. now apply S1.
    + intros n H1 H2. now apply S3.
Qed.

End AdvancedShifting.

(* ================================================================= *)
(** ** advanced_monitor.c: properties of the log rotation *)

(** A rotation of [advanced_monitor.c] with compression off keeps nine
    generations: the log becomes the generation 0, each generation
    [k < 8] becomes [k + 1], what the generation 8 held is gone, and no
    other file is touched; the log file is open again and holds the
    line that reports the rotation, which goes to the console and is
    counted too. *)
Theorem advanced_rotation_shifts_generations :
  forall (st : AdvancedLog.state),
    AdvancedLog.log_file st <> UnifiedC.Null ->
    let st' := AdvancedLog.rotate_log_file false st in
    AdvancedLog.files st' (AdvancedLog.generation 0)
    = AdvancedLog.files st AdvancedLog.LOG_FILE
    /\ (forall k, (k < 8)%nat ->
          AdvancedLog.files st' (AdvancedLog.generation (S k))
          = AdvancedLog.files st (AdvancedLog.generation k))
    /\ (forall n,
          n <> AdvancedLog.LOG_FILE ->
          (forall k, (k <= 8)%nat -> n <> AdvancedLog.generation k) ->
          AdvancedLog.files st' n = AdvancedLog.files st n)
    /\ AdvancedLog.log_file st' = UnifiedC.Open
    /\ AdvancedLog.files st' AdvancedLog.LOG_FILE
       = Some ["🔄 Log file rotated successfully"]
    /\ AdvancedLog.console st'
       = (AdvancedLog.console st ++ ["🔄 Log file rotated successfully"])%list
    /\ AdvancedLog.events_processed st'
       = wrap64 (AdvancedLog.events_processed st + 1).
Proof.
  intros st Hn st'. subst st'.
  destruct (advanced_rotation_renamed (AdvancedLog.files st))
    as (Hlog & Hg0 & Hshift & Hrest).
  assert (G0 : snprintf MAX_PATH_LEN (AdvancedLog.LOG_FILE ++ ".0")
               = AdvancedLog.generation 0) by (vm_compute; reflexivity).
  assert (Hg : forall k, (k <= 9)%nat ->
                         AdvancedLog.generation k <> AdvancedLog.LOG_FILE)
    by (intros k Hk; now apply advanced_generation_not_log).
  unfold AdvancedLog.rotate_log_file. rewrite G0. cbv zeta in *.
  set (d1 := UnifiedC.rename AdvancedLog.LOG_FILE (AdvancedLog.generation 0)
               (AdvancedLog.shift_generations (AdvancedLog.MAX_LOG_FILES - 1)
                  (AdvancedLog.files st))) in *.
  assert (E : AdvancedLog.log_event "🔄 Log file rotated successfully"
                (AdvancedLog.with_log UnifiedC.Open
                   (UnifiedC.dir_set d1 AdvancedLog.LOG_FILE (Some []))
                   (AdvancedLog.with_log UnifiedC.Stale d1 st))
              = AdvancedLog.mkState UnifiedC.Open
                  (UnifiedC.dir_set
                     (UnifiedC.dir_set d1 AdvancedLog.LOG_FILE (Some []))
                     AdvancedLog.LOG_FILE
                     (Some ["🔄 Log file rotated successfully"]))
                  (AdvancedLog.console st
                     ++ ["🔄 Log file rotated successfully"])%list
                  (wrap64 (AdvancedLog.events_processed st + 1))
                  (AdvancedLog.undefined st)).
  { unfold AdvancedLog.log_event, AdvancedLog.log_lines.
    cbn [AdvancedLog.with_log AdvancedLog.log_file AdvancedLog.files
         AdvancedLog.console AdvancedLog.events_processed].
    now rewrite dir_set_same. }
  assert (R : match AdvancedLog.log_file st with
              | UnifiedC.Null => st
              | _ =>
                  AdvancedLog.log_event "🔄 Log file rotated successfully"
                    (AdvancedLog.with_log UnifiedC.Open
                       match AdvancedLog.files
                               (AdvancedLog.with_log UnifiedC.Stale d1 st)
                               AdvancedLog.LOG_FILE with
                       | Some _ =>
                           AdvancedLog.files
                             (AdvancedLog.with_log UnifiedC.Stale d1 st)
                       | None =>
                           UnifiedC.dir_set
                             (AdvancedLog.files
                                (AdvancedLog.with_log UnifiedC.Stale d1 st))
                             AdvancedLog.LOG_FILE (Some [])
                       end (AdvancedLog.with_log UnifiedC.Stale d1 st))
              end
              = AdvancedLog.mkState UnifiedC.Open
                  (UnifiedC.dir_set
                     (UnifiedC.dir_set d1 AdvancedLog.LOG_FILE (Some []))
                     AdvancedLog.LOG_FILE
                     (Some ["🔄 Log file rotated successfully"]))
                  (AdvancedLog.console st
                     ++ ["🔄 Log file rotated successfully"])%list
                  (wrap64 (AdvancedLog.events_processed st + 1))
                  (AdvancedLog.undefined st)).
  { cbn [AdvancedLog.with_log AdvancedLog.files]. rewrite Hlog.
    destruct (AdvancedLog.log_file st); [now destruct Hn | exact E | exact E]. }
  rewrite R. cbn [AdvancedLog.files AdvancedLog.log_file AdvancedLog.console
                  AdvancedLog.events_processed].
  split; [|split; [|split; [|split; [|split; [|split]]]]]; try reflexivity.
  - rewrite !dir_set_other by (apply Hg; lia). exact Hg0.
  - intros k Hk. rewrite !dir_set_other by (apply Hg; lia). now apply Hshift.
  - intros n H1 H2. rewrite !dir_set_other by exact H1. now apply Hrest.
Qed.

Lemma advanced_rotation_shifts_generations_witness :
  AdvancedLog.files (AdvancedLog.rotate_log_file false ex_advanced_log_state)
                    "advanced_monitor.log.2"
  = Some ["last week"].
Proof.
  destruct (advanced_rotation_shifts_generations ex_advanced_log_state)
    as (_ & H & _); [discriminate|].
  exact (H 1%nat ltac:(lia)).
Defined.

(** A rotation of [advanced_monitor.c] writes through the stream it
    has just closed, which is undefined in C, exactly when compression
    is on and the log file is found in the directory:
    [compress_old_log] then reports through [log_event] between the
    [fclose] and the [fopen] of [rotate_log_file].  With compression
    off, or with no log file to compress, a rotation makes no such
    write. *)
Theorem advanced_rotation_writes_after_close :
  forall (enable_compression : bool) (st : AdvancedLog.state),
    AdvancedLog.log_file st <> UnifiedC.Null ->
    AdvancedLog.undefined (AdvancedLog.rotate_log_file enable_compression st)
    = AdvancedLog.undefined st
      || (enable_compression
          && not_null (AdvancedLog.files st AdvancedLog.LOG_FILE)).
Proof.
  intros c st Hn.
  destruct (advanced_rotation_renamed (AdvancedLog.files st))
    as (_ & Hg0 & _).
  assert (G0 : snprintf MAX_PATH_LEN (AdvancedLog.LOG_FILE ++ ".0")
               = AdvancedLog.generation 0) by (vm_compute; reflexivity).
  cbv zeta in Hg0.
  unfold AdvancedLog.rotate_log_file. rewrite G0. cbv zeta.
  set (d1 := UnifiedC.rename AdvancedLog.LOG_FILE (AdvancedLog.generation 0)
               (AdvancedLog.shift_generations (AdvancedLog.MAX_LOG_FILES - 1)
                  (AdvancedLog.files st))) in *.
  assert (H : AdvancedLog.undefined
                (if c
                 then AdvancedLog.compress_old_log (AdvancedLog.generation 0)
                        (AdvancedLog.with_log UnifiedC.Stale d1 st)
                 else AdvancedLog.with_log UnifiedC.Stale d1 st)
              = AdvancedLog.undefined st
                || (c && not_null (AdvancedLog.files st AdvancedLog.LOG_FILE))).
  { destruct c; cbn [andb];
      [|cbn [AdvancedLog.with_log AdvancedLog.undefined];
        now rewrite orb_false_r].
    unfold AdvancedLog.compress_old_log.
    cbn [AdvancedLog.with_log AdvancedLog.files AdvancedLog.log_file].
    rewrite Hg0.
    destruct (AdvancedLog.files st AdvancedLog.LOG_FILE); cbn [not_null].
    - cbn [AdvancedLog.log_event AdvancedLog.log_file AdvancedLog.undefined].
      now rewrite orb_true_r.
    - cbn [AdvancedLog.undefined]. now rewrite orb_false_r. }
  destruct (AdvancedLog.log_file st); [now destruct Hn | exact H | exact H].
Qed.

Lemma advanced_rotation_writes_after_close_witness :
  AdvancedLog.undefined ex_advanced_log_state = false
  /\ AdvancedLog.undefined
       (AdvancedLog.rotate_log_file true ex_advanced_log_state) = true
  /\ AdvancedLog.undefined
       (AdvancedLog.rotate_log_file false ex_advanced_log_state) = false.
Proof.
  split; [reflexivity|]. split.
  - rewrite (advanced_rotation_writes_after_close true ex_advanced_log_state);
      [reflexivity | discriminate].
  - rewrite (advanced_rotation_writes_after_close false ex_advanced_log_state);
      [reflexivity | discriminate].
Defined.
